(** * Frame recording and frame delivery of the operator console

    A shallow embedding of [ui/app/recorder.py] ([FrameRecorder]) and
    [ui/app/frame_provider.py] ([FrameProvider]), with the collaborators
    the two classes call (the file system, the video encoder, the wall
    clock, the capture device and the drawing primitives of OpenCV)
    modelled as an explicit world. *)

From Stdlib Require Import ZArith List String Ascii Lia Sorted.
From Stdlib Require Import DecimalString DecimalPos DecimalZ.
From stdpp Require Import base gmap strings list.

Local Open Scope Z_scope.

(** ** Images

    A numpy array of shape [(rows, cols)] (with a last axis of three
    channels for a colour image): the shape is carried with the data, as
    numpy does, so that an array with no row still has a width. A pixel
    is its three [uint8] channels, in B, G, R order. *)

Definition pixel : Type := Z * Z * Z.

Record ndarray (A : Type) := mk_ndarray {
  shape0 : nat;                  (* a.shape[0], the height *)
  shape1 : nat;                  (* a.shape[1], the width *)
  data : list (list A)           (* row major *)
}.
Arguments mk_ndarray {A} _ _ _.
Arguments shape0 {A} _.
Arguments shape1 {A} _.
Arguments data {A} _.

Abbreviation image := (ndarray pixel).

(** The data agree with the declared shape. *)
Definition well_shaped {A} (a : ndarray A) : Prop :=
  length (data a) = shape0 a /\ Forall (fun r => length r = shape1 a) (data a).

(** [a[y][x]] *)
Definition at_ {A} (a : ndarray A) (y x : nat) : option A :=
  match data a !! y with
  | Some r => r !! x
  | None => None
  end.

(** ** Text *)

Definition newline : ascii := "010"%char.
Definition nl : string := String newline EmptyString.

(** [f"{n}"] for a Python [int]. *)
Definition fmt_int (z : Z) : string := NilZero.string_of_int (Z.to_int z).

Definition digit (d : Z) : ascii := ascii_of_nat (48 + Z.to_nat (d mod 10)).

(** The six digits after the decimal point. *)
Definition frac6 (n : Z) : string :=
  String (digit (n / 100000)) (String (digit (n / 10000))
  (String (digit (n / 1000)) (String (digit (n / 100))
  (String (digit (n / 10)) (String (digit n) EmptyString))))).

(** [f"{t:.6f}"]. A reading of [time.time()] is kept as the number of
    microseconds that [.6f] prints, so that no floating point value is
    needed: rounding to six decimals is monotone, and the order of the
    printed values is the order of the readings. *)
Definition fmt_time (us : Z) : string :=
  (if us <? 0 then "-" else "") +:+
  fmt_int (Z.abs us / 1000000) +:+ "." +:+ frac6 (Z.abs us mod 1000000).

(** The lines of a text file: each line ends at a newline, which is not
    part of it; text after the last newline is a last, unterminated line. *)
Fixpoint lines_from (cur : string) (s : string) : list string :=
  match s with
  | EmptyString => match cur with EmptyString => [] | _ => [cur] end
  | String c s' =>
      if Ascii.eqb c newline then cur :: lines_from EmptyString s'
      else lines_from (cur +:+ String c EmptyString) s'
  end.

Definition splitlines (s : string) : list string := lines_from EmptyString s.

(** The text whose lines are [ls], each one ended by a newline. *)
Definition unlines (ls : list string) : string :=
  fold_right (fun l acc => l +:+ nl +:+ acc) EmptyString ls.
(** No newline in [s]. *)
Fixpoint newline_free (s : string) : bool :=
  match s with
  | EmptyString => true
  | String c s' => negb (Ascii.eqb c newline) && newline_free s'
  end.

(** ** The file system

    A path is its list of components, root first. Only the name space is
    modelled (which paths exist, and as what): operations fail on a name
    clash, never on permissions or lack of space.

    The content of a file is the text handed to its handle so far.
    Python buffers a text file, so that while the handle is open the
    file on disk holds some part of that text only, and all of it once
    the handle is closed: the content of a file is the file on disk
    where no handle of it is open, and the statements read the log
    after [stop] has closed it. A handle that is dropped while open (a
    second [start] on a recorder that holds a log) is closed by the
    interpreter with a position of its own in the file; this is not
    modelled, and the statements on the content of the log are about a
    [start] on a recorder that holds no handle, as the state machine of
    the recorder has it. *)

Abbreviation path := (list string).

Inductive node :=
| Dir
| File (content : string).

Abbreviation filesystem := (gmap (list string) node).

Definition is_dir (fs : filesystem) (p : path) : bool :=
  match p with
  | [] => true
  | _ => match fs !! p with Some Dir => true | _ => false end
  end.

(** [Path.mkdir(parents=True, exist_ok=True)]: every missing ancestor is
    created, an existing directory is accepted, an existing file on the
    way is an error. *)
Fixpoint mkdir_from (pre : path) (rest : list string) (fs : filesystem)
  : option filesystem :=
  match rest with
  | [] => Some fs
  | c :: rest' =>
      let q := pre ++ [c] in
      match fs !! q with
      | Some (File _) => None
      | Some Dir => mkdir_from q rest' fs
      | None => mkdir_from q rest' (<[q := Dir]> fs)
      end
  end.

Definition mkdir_parents (p : path) (fs : filesystem) : option filesystem :=
  mkdir_from [] p fs.

(** The mode of the builtin [open]. *)
Inductive open_mode := ModeW | ModeA.

(** [open(p, mode)]: the parent must be a directory and [p] must not be
    one; ["w"] creates or truncates, ["a"] creates or keeps. *)
Definition fs_open (mode : open_mode) (p : path) (fs : filesystem)
  : option filesystem :=
  if is_dir fs (removelast p) then
    match fs !! p, mode with
    | Some Dir, _ => None
    | Some (File c), ModeA => Some fs
    | _, _ => Some (<[p := File EmptyString]> fs)
    end
  else None.

(** [f.write(s)] on an open handle of [p]: the text is handed over, and
    follows what the handle was given before. *)
Definition fs_append (p : path) (s : string) (fs : filesystem) : filesystem :=
  match fs !! p with
  | Some (File c) => <[p := File (c +:+ s)]> fs
  | _ => fs
  end.

Definition file_content (fs : filesystem) (p : path) : option string :=
  match fs !! p with
  | Some (File c) => Some c
  | _ => None
  end.

(** ** The encoder and the clock *)

(** [cv2.VideoWriter_fourcc(c1, c2, c3, c4)]. *)
Definition VideoWriter_fourcc (c1 c2 c3 c4 : ascii) : Z :=
  Z.lor (Z.lor (Z.lor (Z.land (Z.of_N (N_of_ascii c1)) 255)
                      (Z.shiftl (Z.land (Z.of_N (N_of_ascii c2)) 255) 8))
               (Z.shiftl (Z.land (Z.of_N (N_of_ascii c3)) 255) 16))
        (Z.shiftl (Z.land (Z.of_N (N_of_ascii c4)) 255) 24).

(** A [cv2.VideoWriter] object, as constructed. *)
Record VideoWriter := mk_VideoWriter {
  vw_path : path;
  vw_fourcc : Z;
  vw_fps : Z;
  vw_size : Z * Z;
  isOpened : bool
}.

(** What the host decides: which encoder opens, and what the wall clock
    reads at its n-th reading (in microseconds, see [fmt_time]). *)
Record Host := mk_Host {
  encoder_opens : path -> Z -> Z -> Z * Z -> bool;
  clock : nat -> Z
}.

Definition clock_monotone (h : Host) : Prop :=
  forall i j : nat, (i <= j)%nat -> clock h i <= clock h j.

(** ** The world and its trace

    The trace holds the calls that the code makes on its collaborators,
    in their order. What the interpreter does on its own when an object
    is dropped (it closes a handle that a second [start] overwrites) is
    not a call of the code, and is not in the trace. *)

Inductive event :=
| EvMkdir (p : path)
| EvVideoWriter (w : VideoWriter)
| EvOpen (mode : open_mode) (p : path)
| EvFileWrite (p : path) (s : string)
| EvVideoWrite (w : VideoWriter) (frame : image)
| EvRelease (w : VideoWriter)
| EvClose (p : path).

Record World := mk_World {
  fs : gmap (list string) node;
  trace : list event;            (* oldest first *)
  ticks : nat                    (* readings of the clock so far *)
}.

Inductive exn :=
| RuntimeError (msg : string)
| OSError (p : path)
| TypeError
| ValueError
| CvError.

Inductive result (A : Type) :=
| Ok (a : A)
| Raise (e : exn).
Arguments Ok {A} a.
Arguments Raise {A} e.

(** ** FrameRecorder *)

Module Recorder.

Record RecordConfig := mk_RecordConfig {
  out_dir : path;
  fps : Z
}.

Record FrameRecorder := mk_FrameRecorder {
  _writer : option VideoWriter;
  _ts_file : option path;        (* the open file object *)
  _start_time : option Z;
  _frame_size : option (Z * Z)
}.

(** [FrameRecorder.__init__] *)
Definition init : FrameRecorder :=
  {| _writer := None; _ts_file := None; _start_time := None; _frame_size := None |}.

Definition is_recording (self : FrameRecorder) : bool :=
  match _writer self with Some _ => true | None => false end.

(** A method runs on the object and the world, and leaves both as they
    are at the point where it returns or raises. *)
Record State := mk_State {
  self : FrameRecorder;
  world : World
}.

Definition M (A : Type) : Type := State -> result A * State.

Definition ret {A} (a : A) : M A := fun st => (Ok a, st).
Definition raise {A} (e : exn) : M A := fun st => (Raise e, st).
Definition bind {A B} (m : M A) (k : A -> M B) : M B :=
  fun st => match m st with
            | (Ok a, st') => k a st'
            | (Raise e, st') => (Raise e, st')
            end.

Notation "x <- m ;; k" := (bind m (fun x => k))
  (at level 100, m at next level, k at level 200, right associativity).
Notation "m ;;; k" := (bind m (fun _ => k))
  (at level 100, k at level 200, right associativity).

Definition get_self : M FrameRecorder := fun st => (Ok (self st), st).
Definition set_self (f : FrameRecorder -> FrameRecorder) : M unit :=
  fun st => (Ok tt, {| self := f (self st); world := world st |}).
Definition get_world : M World := fun st => (Ok (world st), st).
Definition put_world (w : World) : M unit :=
  fun st => (Ok tt, {| self := self st; world := w |}).

Definition emit (e : event) : M unit :=
  w <- get_world ;;
  put_world {| fs := fs w; trace := trace w ++ [e]; ticks := ticks w |}.

Definition put_fs (f : filesystem) : M unit :=
  w <- get_world ;;
  put_world {| fs := f; trace := trace w; ticks := ticks w |}.

Definition set_writer (v : option VideoWriter) (s : FrameRecorder) :=
  {| _writer := v; _ts_file := _ts_file s;
     _start_time := _start_time s; _frame_size := _frame_size s |}.
Definition set_ts_file (v : option path) (s : FrameRecorder) :=
  {| _writer := _writer s; _ts_file := v;
     _start_time := _start_time s; _frame_size := _frame_size s |}.
Definition set_start_time (v : option Z) (s : FrameRecorder) :=
  {| _writer := _writer s; _ts_file := _ts_file s;
     _start_time := v; _frame_size := _frame_size s |}.
Definition set_frame_size (v : option (Z * Z)) (s : FrameRecorder) :=
  {| _writer := _writer s; _ts_file := _ts_file s;
     _start_time := _start_time s; _frame_size := v |}.

Definition fourcc_candidates : list string := ["avc1"; "H264"; "mp4v"].
Definition header : string := "frame_idx,unix_time" +:+ nl.
Definition no_codec : exn :=
  RuntimeError "Failed to open VideoWriter (no supported codec).".

Section WithHost.

Context (host : Host).

(** [cfg.out_dir.mkdir(parents=True, exist_ok=True)] *)
Definition mkdir (p : path) : M unit :=
  w <- get_world ;;
  match mkdir_parents p (fs w) with
  | Some f => put_fs f ;;; emit (EvMkdir p)
  | None => raise (OSError p)
  end.

(** [open(p, "w", encoding="utf-8")] *)
Definition open (mode : open_mode) (p : path) : M path :=
  w <- get_world ;;
  match fs_open mode p (fs w) with
  | Some f => put_fs f ;;; emit (EvOpen mode p) ;;; ret p
  | None => raise (OSError p)
  end.

(** [f.write(s)]: see the note on buffering above. *)
Definition file_write (f : path) (s : string) : M unit :=
  w <- get_world ;;
  put_fs (fs_append f s (fs w)) ;;; emit (EvFileWrite f s).

(** [f.close()]: from here on the content of the file is the file on
    disk. *)
Definition file_close (f : path) : M unit := emit (EvClose f).

(** [time.time()] *)
Definition time_time : M Z :=
  w <- get_world ;;
  put_world {| fs := fs w; trace := trace w; ticks := S (ticks w) |} ;;;
  ret (clock host (ticks w)).

(** [cv2.VideoWriter_fourcc] on the four characters of [fcc] *)
Definition fourcc_of (fcc : string) : M Z :=
  match fcc with
  | String c1 (String c2 (String c3 (String c4 EmptyString))) =>
      ret (VideoWriter_fourcc c1 c2 c3 c4)
  | _ => raise TypeError
  end.

(** [cv2.VideoWriter(str(out_path), fourcc, fps, frame_size)] *)
Definition new_VideoWriter (p : path) (fourcc fps_ : Z) (size : Z * Z)
  : M VideoWriter :=
  let w := {| vw_path := p; vw_fourcc := fourcc; vw_fps := fps_; vw_size := size;
              isOpened := encoder_opens host p fourcc fps_ size |} in
  emit (EvVideoWriter w) ;;; ret w.

(** The loop of [start] over the candidates, with its [break]. *)
Fixpoint try_candidates (out_path : path) (fps_ : Z) (size : Z * Z)
    (cands : list string) : M (option VideoWriter) :=
  match cands with
  | [] => ret None
  | fcc :: rest =>
      fourcc <- fourcc_of fcc ;;
      w <- new_VideoWriter out_path fourcc fps_ size ;;
      if isOpened w then ret (Some w)
      else try_candidates out_path fps_ size rest
  end.

Definition start (cfg : RecordConfig) (frame_size : Z * Z) : M unit :=
  mkdir (out_dir cfg) ;;;
  set_self (set_frame_size (Some frame_size)) ;;;
  let out_path := out_dir cfg ++ ["recording.mp4"] in
  writer <- try_candidates out_path (fps cfg) frame_size fourcc_candidates ;;
  match writer with
  | None => raise no_codec
  | Some w =>
      set_self (set_writer (Some w)) ;;;
      f <- open ModeW (out_dir cfg ++ ["timestamps.csv"]) ;;
      set_self (set_ts_file (Some f)) ;;;
      file_write f header ;;;
      t <- time_time ;;
      set_self (set_start_time (Some t))
  end.

Definition write (frame_bgr : image) (frame_idx : Z) : M unit :=
  s <- get_self ;;
  match _writer s, _ts_file s with
  | Some w, Some f =>
      emit (EvVideoWrite w frame_bgr) ;;;
      t <- time_time ;;
      file_write f (fmt_int frame_idx +:+ "," +:+ fmt_time t +:+ nl)
  | _, _ => ret tt
  end.

Definition stop : M unit :=
  s <- get_self ;;
  match _writer s with
  | Some w => emit (EvRelease w)
  | None => ret tt
  end ;;;
  set_self (set_writer None) ;;;
  s <- get_self ;;
  match _ts_file s with
  | Some f => file_close f
  | None => ret tt
  end ;;;
  set_self (set_ts_file None) ;;;
  set_self (set_start_time None) ;;;
  set_self (set_frame_size None).

(** The calls a client can make, and a run of them: a call that raises
    leaves the object as it is at that point, and the client goes on. *)
Inductive call :=
| CallStart (cfg : RecordConfig) (frame_size : Z * Z)
| CallWrite (frame_bgr : image) (frame_idx : Z)
| CallStop.

Definition do_call (c : call) : M unit :=
  match c with
  | CallStart cfg size => start cfg size
  | CallWrite fr i => write fr i
  | CallStop => stop
  end.

Definition run (cs : list call) (st : State) : State :=
  fold_left (fun st c => snd (do_call c st)) cs st.

(** [write] once per frame, in order. *)
Fixpoint write_all (frames : list (image * Z)) : M unit :=
  match frames with
  | [] => ret tt
  | (fr, i) :: rest => write fr i ;;; write_all rest
  end.

End WithHost.

(** *** Vocabulary of the statements *)

Definition out_path (cfg : RecordConfig) : path := out_dir cfg ++ ["recording.mp4"].
Definition log_path (cfg : RecordConfig) : path := out_dir cfg ++ ["timestamps.csv"].

(** The code of a candidate, where it has four characters. *)
Definition fourcc_code (fcc : string) : option Z :=
  match fcc with
  | String c1 (String c2 (String c3 (String c4 EmptyString))) =>
      Some (VideoWriter_fourcc c1 c2 c3 c4)
  | _ => None
  end.

(** The writer that [start] constructs for a candidate, and whether it
    opens. *)
Definition writer_of (host : Host) (cfg : RecordConfig) (size : Z * Z) (fcc : string)
  : VideoWriter :=
  let code := default 0 (fourcc_code fcc) in
  {| vw_path := out_path cfg; vw_fourcc := code; vw_fps := fps cfg; vw_size := size;
     isOpened := encoder_opens host (out_path cfg) code (fps cfg) size |}.

Definition opens (host : Host) (cfg : RecordConfig) (size : Z * Z) (fcc : string) : bool :=
  isOpened (writer_of host cfg size fcc).

(** The candidates that the loop reaches: up to the first that opens. *)
Fixpoint tried (opens : string -> bool) (cands : list string) : list string :=
  match cands with
  | [] => []
  | c :: rest => if opens c then [c] else c :: tried opens rest
  end.

Definition add_events (evs : list event) (st : State) : State :=
  {| self := self st;
     world := {| fs := fs (world st); trace := trace (world st) ++ evs;
                 ticks := ticks (world st) |} |}.

(** The writers constructed along a trace, oldest first. *)
Definition constructed (tr : list event) : list VideoWriter :=
  omap (fun e => match e with EvVideoWriter w => Some w | _ => None end) tr.

(** The state of [start] once the directory exists, and once the loop
    over the candidates is over. *)
Definition after_mkdir (cfg : RecordConfig) (size : Z * Z) (f : filesystem)
    (st : State) : State :=
  {| self := set_frame_size (Some size) (self st);
     world := {| fs := f; trace := trace (world st) ++ [EvMkdir (out_dir cfg)];
                 ticks := ticks (world st) |} |}.

Definition after_attempts (host : Host) (cfg : RecordConfig) (size : Z * Z)
    (f : filesystem) (st : State) : State :=
  add_events (map (fun c => EvVideoWriter (writer_of host cfg size c))
                  (tried (opens host cfg size) fourcc_candidates))
             (after_mkdir cfg size f st).

(** A row of the log, without its newline. *)
Definition row (i : Z) (t : Z) : string := fmt_int i +:+ "," +:+ fmt_time t.

(** What [stop] releases and closes. *)
Definition stop_events (s : FrameRecorder) : list event :=
  match _writer s with Some w => [EvRelease w] | None => [] end ++
  match _ts_file s with Some f => [EvClose f] | None => [] end.

Definition read_lines (f : filesystem) (p : path) : option (list string) :=
  splitlines <$> file_content f p.

(** What opening the log for appending would do to a log that exists:
    after a session, the file begins with what it held before. *)
Definition keeps_previous_log (host : Host) (cfg : RecordConfig) (size : Z * Z)
    (st : State) : Prop :=
  forall old,
    file_content (fs (world st)) (log_path cfg) = Some old ->
    fst (start host cfg size st) = Ok tt ->
    exists rest,
      file_content (fs (world (snd (stop (snd (start host cfg size st))))))
                   (log_path cfg)
      = Some (old +:+ rest).

(** The recorder holds no handle. *)
Definition idle (s : FrameRecorder) : Prop :=
  _writer s = None /\ _ts_file s = None.

(** Both handles are held, or neither. *)
Definition paired (s : FrameRecorder) : Prop :=
  _writer s = None <-> _ts_file s = None.

(** The log is held only with the writer. *)
Definition log_needs_writer (s : FrameRecorder) : Prop :=
  _ts_file s <> None -> _writer s <> None.

(** *** Hosts, configurations and file systems of the examples *)

Definition host_mp4v : Host :=
  {| encoder_opens := fun _ code _ _ => code =? VideoWriter_fourcc "m" "p" "4" "v";
     clock := fun n => 1700000000000000 + 33333 * Z.of_nat n |}.

Definition host_no_codec : Host :=
  {| encoder_opens := fun _ _ _ _ => false;
     clock := fun n => 1700000000000000 + 33333 * Z.of_nat n |}.

(** A host whose wall clock is set back between two readings. *)
Definition host_clock_back : Host :=
  {| encoder_opens := fun _ code _ _ => code =? VideoWriter_fourcc "m" "p" "4" "v";
     clock := fun n => 1700000001000000 - 33333 * Z.of_nat n |}.

Definition cfg_rec : RecordConfig := {| out_dir := ["home"; "pi"; "rec"]; fps := 30 |}.

(** A recorder just constructed, on the file system [f]. *)
Definition fresh (f : filesystem) : State :=
  {| self := init; world := {| fs := f; trace := []; ticks := 0 |} |}.

Definition fs_rec_dir : filesystem :=
  <[ ["home"; "pi"; "rec"] := Dir ]> (<[ ["home"; "pi"] := Dir ]> (<[ ["home"] := Dir ]> ∅)).

(** The directory holds the log of an earlier session. *)
Definition fs_stale_log : filesystem :=
  <[ ["home"; "pi"; "rec"; "timestamps.csv"] :=
       File ("frame_idx,unix_time" +:+ nl +:+ "7,1.000000" +:+ nl) ]> fs_rec_dir.

(** The name of the log is taken by a directory. *)
Definition fs_log_is_dir : filesystem :=
  <[ ["home"; "pi"; "rec"; "timestamps.csv"] := Dir ]> fs_rec_dir.

Definition blank : image := {| shape0 := 0; shape1 := 0; data := [] |}.

End Recorder.

(** ** FrameProvider *)

Module Provider.

Record UiSettings := mk_UiSettings {
  target_fps : Z;
  show_disparity : bool;
  show_right : bool;
  record_fps : Z;
  width : Z;
  height : Z
}.

(** What a drawing primitive does to the pixel at row [y], column [x]:
    it writes into the array it is given, and cannot change its shape.
    On an array with no pixel it raises, see [draw]. *)
Definition painter : Type := nat -> nat -> pixel -> pixel.

(** The parts of OpenCV and of the floating point unit that are not
    computed here: the rasterisation of a circle and of a text (font
    [FONT_HERSHEY_SIMPLEX] at scale 0.7), the grey level of a pixel, the
    colour table [COLORMAP_TURBO], and the centre
    [(int(w*0.5 + w*0.25*sin t), int(h*0.5 + h*0.15*cos(0.7 t)))]
    of the circle for a width, a height and an elapsed time. *)
Record Cv2 := mk_Cv2 {
  circle : Z * Z -> Z -> pixel -> Z -> painter;
  putText : string -> Z * Z -> pixel -> Z -> painter;
  bgr2gray : pixel -> Z;
  colormap_turbo : Z -> pixel;
  centre : Z -> Z -> Z -> Z * Z
}.

(** [np.zeros((h, w, 3), dtype=np.uint8)] *)
Definition np_zeros (h w : Z) : result image :=
  if (h <? 0) || (w <? 0) then Raise ValueError
  else Ok {| shape0 := Z.to_nat h; shape1 := Z.to_nat w;
             data := replicate (Z.to_nat h) (replicate (Z.to_nat w) (0, 0, 0)) |}.

Definition paint (p : painter) (a : image) : image :=
  {| shape0 := shape0 a; shape1 := shape1 a;
     data := imap (fun y row => imap (fun x px => p y x px) row) (data a) |}.

(** [np.roll] of one row: [offset %= n or 1], then the last [offset]
    elements come first. *)
Definition roll_row {A} (shift : Z) (r : list A) : list A :=
  let n := length r in
  let offset := Z.to_nat (shift mod (if (n =? 0)%nat then 1 else Z.of_nat n)) in
  if (offset =? 0)%nat then r
  else drop (n - offset) r ++ take (n - offset) r.

(** [np.roll(a, shift=shift, axis=1)] *)
Definition np_roll {A} (shift : Z) (a : ndarray A) : ndarray A :=
  {| shape0 := shape0 a; shape1 := shape1 a;
     data := roll_row shift <$> data a |}.

Definition same_shape {A B} (a : ndarray A) (b : ndarray B) : bool :=
  (shape0 a =? shape0 b)%nat && (shape1 a =? shape1 b)%nat.

Definition absdiff_px (p q : pixel) : pixel :=
  match p, q with
  | (b1, g1, r1), (b2, g2, r2) => (Z.abs (b1 - b2), Z.abs (g1 - g2), Z.abs (r1 - r2))
  end.

(** [cv2.absdiff(a, b)] *)
Definition absdiff (a b : image) : result image :=
  if same_shape a b then
    Ok {| shape0 := shape0 a; shape1 := shape1 a;
          data := zip_with (zip_with absdiff_px) (data a) (data b) |}
  else Raise CvError.

Definition map_px {A B} (f : A -> B) (a : ndarray A) : ndarray B :=
  {| shape0 := shape0 a; shape1 := shape1 a;
     data := (fun r : list A => f <$> r) <$> data a |}.

Definition is_empty {A} (a : ndarray A) : bool :=
  (shape0 a =? 0)%nat || (shape1 a =? 0)%nat.

(** A drawing primitive of OpenCV ([cv2.circle], [cv2.putText]) called
    on the array [a]: it raises [cv2.error] on an array with no row or
    no column, and paints into the array otherwise. *)
Definition draw (p : painter) (a : image) : result image :=
  if is_empty a then Raise CvError else Ok (paint p a).

(** Two arrays of the same height, side by side. *)
Definition hcat (a b : image) : image :=
  {| shape0 := shape0 a; shape1 := shape1 a + shape1 b;
     data := zip_with app (data a) (data b) |}.

(** [np.hstack(parts)]: the rows of the parts, side by side. *)
Fixpoint hstack (parts : list image) : result image :=
  match parts with
  | [] => Raise ValueError
  | [a] => Ok a
  | a :: rest =>
      match hstack rest with
      | Ok b => if (shape0 a =? shape0 b)%nat then Ok (hcat a b) else Raise ValueError
      | Raise e => Raise e
      end
  end.

Inductive VideoCapture := Device (index : Z).

Record FrameProvider := mk_FrameProvider {
  s : UiSettings;
  use_webcam : bool;
  _t0 : Z;
  _cap : option VideoCapture
}.

(** [FrameProvider.__init__], at the clock reading [now]. *)
Definition init (settings : UiSettings) (use_webcam_ : bool) (now : Z)
  : FrameProvider :=
  {| s := settings; use_webcam := use_webcam_; _t0 := now;
     _cap := if use_webcam_ then Some (Device 0) else None |}.

(** What the surroundings give to one call of [get_frame]: the reading
    of [time.time()], and what [self._cap.read()] returns if it is
    called. *)
Record Tick := mk_Tick {
  now : Z;
  cap_read : bool * option image
}.

Definition white : pixel := (255, 255, 255).
Definition yellow : pixel := (0, 255, 255).
Definition caption : string :=
  "UI Preview (replace FrameProvider with pipeline output)".

Definition bind {A B} (m : result A) (k : A -> result B) : result B :=
  match m with
  | Ok a => k a
  | Raise e => Raise e
  end.

Notation "x <- m ;; k" := (bind m (fun x => k))
  (at level 100, m at next level, k at level 200, right associativity).

Section WithCv2.

Context (cv2 : Cv2).

(** [cv2.cvtColor(a, cv2.COLOR_BGR2GRAY)] *)
Definition cvtColor_BGR2GRAY (a : image) : result (ndarray Z) :=
  if is_empty a then Raise CvError else Ok (map_px (bgr2gray cv2) a).

(** [cv2.applyColorMap(a, cv2.COLORMAP_TURBO)] *)
Definition applyColorMap_TURBO (a : ndarray Z) : result image :=
  if is_empty a then Raise CvError else Ok (map_px (colormap_turbo cv2) a).

(** The text of the overlay. *)
Definition overlay_text (frame_bgr : image) : string :=
  fmt_int (Z.of_nat (shape1 frame_bgr)) +:+ "x" +:+
  fmt_int (Z.of_nat (shape0 frame_bgr)).

Definition _make_overlay (frame_bgr : image) : result image :=
  draw (putText cv2 (overlay_text frame_bgr)
                (20, Z.of_nat (shape0 frame_bgr) - 20) white 2)
       frame_bgr.

(** The base panel of the synthetic frame, at elapsed time [t]. *)
Definition base_panel (self : FrameProvider) (t : Z) : result image :=
  let h := height (s self) in
  let w := width (s self) in
  base <- np_zeros h w ;;
  base <- draw (circle cv2 (centre cv2 w h t) 35 yellow (-1)) base ;;
  base <- draw (putText cv2 caption (20, 40) white 2) base ;;
  Ok base.

(** The secondary panel. *)
Definition right_panel (base : image) : image := np_roll 18 base.

(** The panels of the synthetic frame, put side by side. *)
Definition compose (self : FrameProvider) (t : Z) : result image :=
  base <- base_panel self t ;;
  let right := right_panel base in
  let parts := [base] in
  let parts := if show_right (s self) then parts ++ [right] else parts in
  parts <-
    (if show_disparity (s self) then
       d <- absdiff base right ;;
       disp <- cvtColor_BGR2GRAY d ;;
       disp <- applyColorMap_TURBO disp ;;
       Ok (parts ++ [disp])
     else Ok parts) ;;
  hstack parts.

Definition synthetic (self : FrameProvider) (e : Tick) : result image :=
  frame <- compose self (now e - _t0 self) ;;
  _make_overlay frame.

Definition get_frame (self : FrameProvider) (e : Tick) : result image :=
  match _cap self, cap_read e with
  | Some _, (true, Some frame) => _make_overlay frame
  | _, _ => synthetic self e
  end.

End WithCv2.

(** *** Vocabulary of the statements *)

(** How many panels the settings ask for. *)
Definition panels (st : UiSettings) : nat :=
  1 + (if show_right st then 1 else 0) + (if show_disparity st then 1 else 0).

(** The difference panel of a base panel. *)
Definition difference_panel (cv2 : Cv2) (base : image) : result image :=
  d <- absdiff base (right_panel base) ;;
  disp <- cvtColor_BGR2GRAY cv2 d ;;
  applyColorMap_TURBO cv2 disp.

(** The panels that are put side by side, given the base and the
    difference panel. *)
Definition shown (st : UiSettings) (base disp : image) : list image :=
  [base] ++ (if show_right st then [right_panel base] else [])
         ++ (if show_disparity st then [disp] else []).

(** Whether the capture device hands over a frame at this tick. *)
Definition delivers (self : FrameProvider) (e : Tick) : bool :=
  match _cap self, cap_read e with
  | Some _, (true, Some _) => true
  | _, _ => false
  end.

(** [get_frame] once per tick. *)
Definition frames_of (cv2 : Cv2) (self : FrameProvider) (ticks : list Tick)
  : list (result image) :=
  get_frame cv2 self <$> ticks.

Definition from_ok (r : result image) : image :=
  match r with
  | Ok a => a
  | Raise _ => {| shape0 := 0; shape1 := 0; data := [] |}
  end.

(** *** Drawing primitives, settings and ticks of the examples *)

(** A circle is the column of its centre, a text is the pixel of its
    origin. *)
Definition cv2_demo : Cv2 :=
  {| circle := fun c r col th y x p => if Z.of_nat x =? fst c then col else p;
     putText := fun txt org col th y x p =>
                  if (Z.of_nat y =? snd org) && (Z.of_nat x =? fst org) then col else p;
     bgr2gray := fun p => fst (fst p);
     colormap_turbo := fun z => (z, z, z);
     centre := fun w h t => (t mod w, h / 2) |}.

Definition settings_100x50 : UiSettings :=
  {| target_fps := 30; show_disparity := false; show_right := false;
     record_fps := 30; width := 100; height := 50 |}.

(** The defaults of [UiSettings]. *)
Definition settings_default : UiSettings :=
  {| target_fps := 30; show_disparity := true; show_right := true;
     record_fps := 30; width := 848; height := 480 |}.

Definition settings_small : UiSettings :=
  {| target_fps := 30; show_disparity := true; show_right := false;
     record_fps := 30; width := 24; height := 3 |}.

(** A tick at which the device has no frame. *)
Definition tick_fail : Tick := {| now := 5; cap_read := (false, None) |}.

(** A tick at which the device hands over a frame of one row and two
    columns. *)
Definition device_frame : image :=
  {| shape0 := 1; shape1 := 2; data := [[(1, 2, 3); (4, 5, 6)]] |}.

Definition tick_device : Tick := {| now := 5; cap_read := (true, Some device_frame) |}.

(** What the claim on the 100 by 50 source says of a source and a tick. *)
Definition returns_100x50 (cv2 : Cv2) (self : FrameProvider) (e : Tick) : Prop :=
  exists frame, get_frame cv2 self e = Ok frame /\
                shape0 frame = 50%nat /\ shape1 frame = 100%nat.

End Provider.

(** ** Further vocabulary *)

(** The character [c] does not occur in [s]. *)
Fixpoint lacks (c : ascii) (s : string) : bool :=
  match s with
  | EmptyString => true
  | String x s' => negb (Ascii.eqb x c) && lacks c s'
  end.

Module RecorderExt.
Import Recorder.

(** A file stands where a directory of the way to [p] is needed. *)
Definition file_on_the_way (f : filesystem) (p : path) : Prop :=
  exists k c, (0 < k <= length p)%nat /\ f !! take k p = Some (File c).

(** The files of the handles that the recorder holds: the log, and the
    video of the writer. Every call may change them on disk: [write]
    and [stop] through the handles, and [start] by dropping them, at
    which point the interpreter closes them. *)
Definition held (s : FrameRecorder) (p : path) : Prop :=
  _ts_file s = Some p \/ (exists w, _writer s = Some w /\ vw_path w = p).

(** The paths a call may change on disk: the files of the handles held,
    and for [start] also the directories that [mkdir] makes, the log,
    and the file of the encoder, which OpenCV writes. *)
Definition touches (c : call) (st : State) (p : path) : Prop :=
  held (self st) p \/
  match c with
  | CallStart cfg _ =>
      (exists k, p = take k (out_dir cfg)) \/ p = log_path cfg \/ p = out_path cfg
  | CallWrite _ _ | CallStop => False
  end.

(** The frames handed to the encoder along a trace, with their writer. *)
Definition encoded (tr : list event) : list (VideoWriter * image) :=
  omap (fun e => match e with EvVideoWrite w fr => Some (w, fr) | _ => None end) tr.

(** What the writes of a session leave in the trace: for each frame,
    the frame to the encoder and then its row to the log. *)
Fixpoint frame_events (host : Host) (w : VideoWriter) (f : path) (tick : nat)
    (frames : list (image * Z)) : list event :=
  match frames with
  | [] => []
  | (fr, i) :: rest =>
      EvVideoWrite w fr :: EvFileWrite f (row i (clock host tick) +:+ nl)
        :: frame_events host w f (S tick) rest
  end.

(** The first directory of the way is a file. *)
Definition fs_home_is_file : filesystem := <[ ["home"] := File "" ]> ∅.

End RecorderExt.

Module ProviderExt.
Import Provider.

(** [FrameProvider.close]: the provider afterwards, and the device that
    was released, if one was held. *)
Definition close (self : FrameProvider) : FrameProvider * option VideoCapture :=
  ({| s := s self; use_webcam := use_webcam self; _t0 := _t0 self; _cap := None |},
   _cap self).

(** The difference panel, pixel by pixel. *)
Definition difference_px (cv2 : Cv2) (p q : pixel) : pixel :=
  colormap_turbo cv2 (bgr2gray cv2 (absdiff_px p q)).

(** The column of the base panel that column [x] of the secondary panel
    shows. *)
Definition shifted (w : Z) (x : nat) : nat := Z.to_nat ((Z.of_nat x - 18) mod w).

(** What [cv2.absdiff] returns on two arrays of one shape. *)
Definition absdiff_of (a b : image) : image :=
  {| shape0 := shape0 a; shape1 := shape1 a;
     data := zip_with (zip_with absdiff_px) (data a) (data b) |}.

(** The difference panel of a base panel that is not empty. *)
Definition difference_of (cv2 : Cv2) (base : image) : image :=
  map_px (colormap_turbo cv2) (map_px (bgr2gray cv2) (absdiff_of base (right_panel base))).

(** The panels put side by side, as the two flags say. *)
Definition layout (cv2 : Cv2) (st : UiSettings) (base : image) : image :=
  match show_right st, show_disparity st with
  | false, false => base
  | true, false => hcat base (right_panel base)
  | false, true => hcat base (difference_of cv2 base)
  | true, true => hcat base (hcat (right_panel base) (difference_of cv2 base))
  end.

(** Settings of the examples: both further panels, and a width below
    zero. *)
Definition settings_both : UiSettings :=
  {| target_fps := 30; show_disparity := true; show_right := true;
     record_fps := 30; width := 24; height := 3 |}.

Definition settings_negative : UiSettings :=
  {| target_fps := 30; show_disparity := true; show_right := true;
     record_fps := 30; width := -1; height := 480 |}.

End ProviderExt.

(** ** MainWindow

    The part of [ui/app/main.py] that drives the provider and the
    recorder: the handlers of the buttons, of the timer and of the
    settings. A widget is the record of what the handlers set on it or
    read from it; what the operator enters (the directory of the dialog,
    the boxes, the fps, the index of the resolution) is an argument of
    the handler. *)

Module Main.

(** A [QImage] of format RGB888. A scan line takes [bytesPerLine]
    bytes, of which the first [3 * width] are the pixels, three bytes
    each; the bytes after them are padding, whose content is not
    defined and which is not kept here. *)
Record QImage := mk_QImage {
  q_width : nat;
  q_height : nat;
  q_bytes_per_line : nat;
  q_scan : list (list Z)   (* the pixel bytes of each scan line *)
}.

(** [QImage.sizeInBytes()] *)
Definition sizeInBytes (q : QImage) : nat := (q_height q * q_bytes_per_line q)%nat.

(** [QImage.pixel(x, y)], as its red, green and blue. *)
Definition q_pixel (q : QImage) (x y : nat) : option (Z * Z * Z) :=
  match q_scan q !! y with
  | Some line =>
      match line !! (3 * x)%nat, line !! (3 * x + 1)%nat, line !! (3 * x + 2)%nat with
      | Some r, Some g, Some b => Some (r, g, b)
      | _, _, _ => None
      end
  | None => None
  end.

(** [QImage(data, w, h, bytes_per_line, QImage.Format.Format_RGB888)]:
    the image reads the buffer it is given, scan line [y] from the
    offset [y * bytes_per_line] on. *)
Definition QImage_of (bytes : list Z) (w h bytes_per_line : nat) : QImage :=
  {| q_width := w; q_height := h; q_bytes_per_line := bytes_per_line;
     q_scan := (fun y : nat => take (3 * w) (drop (y * bytes_per_line) bytes)) <$> seq 0 h |}.

(** [QImage.copy()]: an image with a buffer of its own, in which Qt
    aligns every scan line to 32 bits. *)
Definition copy (q : QImage) : QImage :=
  {| q_width := q_width q; q_height := q_height q;
     q_bytes_per_line := ((q_width q * 24 + 31) / 32 * 4)%nat;
     q_scan := q_scan q |}.

Definition swap_channels (p : pixel) : pixel :=
  match p with (c0, c1, c2) => (c2, c1, c0) end.

(** [cv2.cvtColor(a, cv2.COLOR_BGR2RGB)] *)
Definition cvtColor_BGR2RGB (a : image) : result image :=
  if Provider.is_empty a then Raise CvError else Ok (Provider.map_px swap_channels a).

Definition channels (p : pixel) : list Z :=
  match p with (c0, c1, c2) => [c0; c1; c2] end.

(** [a.data]: the bytes of a contiguous array, row after row. *)
Definition bytes_of (a : image) : list Z :=
  mjoin ((fun r : list pixel => mjoin (channels <$> r)) <$> data a).

Definition bgr_to_qimage (frame_bgr : image) : result QImage :=
  Provider.bind (cvtColor_BGR2RGB frame_bgr) (fun rgb =>
  let h := shape0 rgb in
  let w := shape1 rgb in
  let ch := 3%nat in
  let bytes_per_line := (ch * w)%nat in
  Ok (copy (QImage_of (bytes_of rgb) w h bytes_per_line))).

Record QPushButton := mk_QPushButton {
  text : string;
  enabled : bool
}.

Record QTimer := mk_QTimer {
  isActive : bool;
  interval : Z
}.

Record MainWindow := mk_MainWindow {
  provider : Provider.FrameProvider;   (* self.provider; its settings are self.s, one object *)
  recorder : Recorder.FrameRecorder;   (* self.recorder *)
  _frame_idx : Z;
  _last_fps_t : Z;   (* a clock reading *)
  _fps_counter : Z;
  _fps_value : Z * Z;   (* frames and elapsed microseconds; 0.0 is (0, 1) *)
  preview_label : option QImage;   (* the pixmap of the label, before scaling *)
  btn_preview : QPushButton;
  btn_record : QPushButton;
  res_combo : nat;   (* currentIndex *)
  timer : QTimer;
  stats_timer : QTimer;
  boxes : list string;   (* the message boxes shown, oldest first *)
  accepted : bool;   (* event.accept() of closeEvent *)
  world : World
}.

Definition set_provider (v : Provider.FrameProvider) (mw : MainWindow) : MainWindow :=
  {| provider := v; recorder := recorder mw; _frame_idx := _frame_idx mw;
     _last_fps_t := _last_fps_t mw; _fps_counter := _fps_counter mw;
     _fps_value := _fps_value mw; preview_label := preview_label mw;
     btn_preview := btn_preview mw; btn_record := btn_record mw;
     res_combo := res_combo mw; timer := timer mw; stats_timer := stats_timer mw;
     boxes := boxes mw; accepted := accepted mw; world := world mw |}.
Definition set_recorder (v : Recorder.FrameRecorder) (mw : MainWindow) : MainWindow :=
  {| provider := provider mw; recorder := v; _frame_idx := _frame_idx mw;
     _last_fps_t := _last_fps_t mw; _fps_counter := _fps_counter mw;
     _fps_value := _fps_value mw; preview_label := preview_label mw;
     btn_preview := btn_preview mw; btn_record := btn_record mw;
     res_combo := res_combo mw; timer := timer mw; stats_timer := stats_timer mw;
     boxes := boxes mw; accepted := accepted mw; world := world mw |}.
Definition set_frame_idx (v : Z) (mw : MainWindow) : MainWindow :=
  {| provider := provider mw; recorder := recorder mw; _frame_idx := v;
     _last_fps_t := _last_fps_t mw; _fps_counter := _fps_counter mw;
     _fps_value := _fps_value mw; preview_label := preview_label mw;
     btn_preview := btn_preview mw; btn_record := btn_record mw;
     res_combo := res_combo mw; timer := timer mw; stats_timer := stats_timer mw;
     boxes := boxes mw; accepted := accepted mw; world := world mw |}.
Definition set_last_fps_t (v : Z) (mw : MainWindow) : MainWindow :=
  {| provider := provider mw; recorder := recorder mw; _frame_idx := _frame_idx mw;
     _last_fps_t := v; _fps_counter := _fps_counter mw; _fps_value := _fps_value mw;
     preview_label := preview_label mw; btn_preview := btn_preview mw;
     btn_record := btn_record mw; res_combo := res_combo mw; timer := timer mw;
     stats_timer := stats_timer mw; boxes := boxes mw; accepted := accepted mw;
     world := world mw |}.
Definition set_fps_counter (v : Z) (mw : MainWindow) : MainWindow :=
  {| provider := provider mw; recorder := recorder mw; _frame_idx := _frame_idx mw;
     _last_fps_t := _last_fps_t mw; _fps_counter := v; _fps_value := _fps_value mw;
     preview_label := preview_label mw; btn_preview := btn_preview mw;
     btn_record := btn_record mw; res_combo := res_combo mw; timer := timer mw;
     stats_timer := stats_timer mw; boxes := boxes mw; accepted := accepted mw;
     world := world mw |}.
Definition set_fps_value (v : Z * Z) (mw : MainWindow) : MainWindow :=
  {| provider := provider mw; recorder := recorder mw; _frame_idx := _frame_idx mw;
     _last_fps_t := _last_fps_t mw; _fps_counter := _fps_counter mw; _fps_value := v;
     preview_label := preview_label mw; btn_preview := btn_preview mw;
     btn_record := btn_record mw; res_combo := res_combo mw; timer := timer mw;
     stats_timer := stats_timer mw; boxes := boxes mw; accepted := accepted mw;
     world := world mw |}.
Definition set_preview_label (v : option QImage) (mw : MainWindow) : MainWindow :=
  {| provider := provider mw; recorder := recorder mw; _frame_idx := _frame_idx mw;
     _last_fps_t := _last_fps_t mw; _fps_counter := _fps_counter mw;
     _fps_value := _fps_value mw; preview_label := v; btn_preview := btn_preview mw;
     btn_record := btn_record mw; res_combo := res_combo mw; timer := timer mw;
     stats_timer := stats_timer mw; boxes := boxes mw; accepted := accepted mw;
     world := world mw |}.
Definition set_btn_preview (v : QPushButton) (mw : MainWindow) : MainWindow :=
  {| provider := provider mw; recorder := recorder mw; _frame_idx := _frame_idx mw;
     _last_fps_t := _last_fps_t mw; _fps_counter := _fps_counter mw;
     _fps_value := _fps_value mw; preview_label := preview_label mw; btn_preview := v;
     btn_record := btn_record mw; res_combo := res_combo mw; timer := timer mw;
     stats_timer := stats_timer mw; boxes := boxes mw; accepted := accepted mw;
     world := world mw |}.
Definition set_btn_record (v : QPushButton) (mw : MainWindow) : MainWindow :=
  {| provider := provider mw; recorder := recorder mw; _frame_idx := _frame_idx mw;
     _last_fps_t := _last_fps_t mw; _fps_counter := _fps_counter mw;
     _fps_value := _fps_value mw; preview_label := preview_label mw;
     btn_preview := btn_preview mw; btn_record := v; res_combo := res_combo mw;
     timer := timer mw; stats_timer := stats_timer mw; boxes := boxes mw;
     accepted := accepted mw; world := world mw |}.
Definition set_res_combo (v : nat) (mw : MainWindow) : MainWindow :=
  {| provider := provider mw; recorder := recorder mw; _frame_idx := _frame_idx mw;
     _last_fps_t := _last_fps_t mw; _fps_counter := _fps_counter mw;
     _fps_value := _fps_value mw; preview_label := preview_label mw;
     btn_preview := btn_preview mw; btn_record := btn_record mw; res_combo := v;
     timer := timer mw; stats_timer := stats_timer mw; boxes := boxes mw;
     accepted := accepted mw; world := world mw |}.
Definition set_timer (v : QTimer) (mw : MainWindow) : MainWindow :=
  {| provider := provider mw; recorder := recorder mw; _frame_idx := _frame_idx mw;
     _last_fps_t := _last_fps_t mw; _fps_counter := _fps_counter mw;
     _fps_value := _fps_value mw; preview_label := preview_label mw;
     btn_preview := btn_preview mw; btn_record := btn_record mw;
     res_combo := res_combo mw; timer := v; stats_timer := stats_timer mw;
     boxes := boxes mw; accepted := accepted mw; world := world mw |}.
Definition set_stats_timer (v : QTimer) (mw : MainWindow) : MainWindow :=
  {| provider := provider mw; recorder := recorder mw; _frame_idx := _frame_idx mw;
     _last_fps_t := _last_fps_t mw; _fps_counter := _fps_counter mw;
     _fps_value := _fps_value mw; preview_label := preview_label mw;
     btn_preview := btn_preview mw; btn_record := btn_record mw;
     res_combo := res_combo mw; timer := timer mw; stats_timer := v; boxes := boxes mw;
     accepted := accepted mw; world := world mw |}.
Definition set_boxes (v : list string) (mw : MainWindow) : MainWindow :=
  {| provider := provider mw; recorder := recorder mw; _frame_idx := _frame_idx mw;
     _last_fps_t := _last_fps_t mw; _fps_counter := _fps_counter mw;
     _fps_value := _fps_value mw; preview_label := preview_label mw;
     btn_preview := btn_preview mw; btn_record := btn_record mw;
     res_combo := res_combo mw; timer := timer mw; stats_timer := stats_timer mw;
     boxes := v; accepted := accepted mw; world := world mw |}.
Definition set_accepted (v : bool) (mw : MainWindow) : MainWindow :=
  {| provider := provider mw; recorder := recorder mw; _frame_idx := _frame_idx mw;
     _last_fps_t := _last_fps_t mw; _fps_counter := _fps_counter mw;
     _fps_value := _fps_value mw; preview_label := preview_label mw;
     btn_preview := btn_preview mw; btn_record := btn_record mw;
     res_combo := res_combo mw; timer := timer mw; stats_timer := stats_timer mw;
     boxes := boxes mw; accepted := v; world := world mw |}.
Definition set_world (v : World) (mw : MainWindow) : MainWindow :=
  {| provider := provider mw; recorder := recorder mw; _frame_idx := _frame_idx mw;
     _last_fps_t := _last_fps_t mw; _fps_counter := _fps_counter mw;
     _fps_value := _fps_value mw; preview_label := preview_label mw;
     btn_preview := btn_preview mw; btn_record := btn_record mw;
     res_combo := res_combo mw; timer := timer mw; stats_timer := stats_timer mw;
     boxes := boxes mw; accepted := accepted mw; world := v |}.

(** [self.s] *)
Definition settings (mw : MainWindow) : Provider.UiSettings := Provider.s (provider mw).

Definition set_settings (v : Provider.UiSettings) (mw : MainWindow) : MainWindow :=
  set_provider {| Provider.s := v; Provider.use_webcam := Provider.use_webcam (provider mw);
                  Provider._t0 := Provider._t0 (provider mw);
                  Provider._cap := Provider._cap (provider mw) |} mw.

Definition resolutions : list (Z * Z) :=
  [(640, 480); (848, 480); (960, 540); (1280, 720)].

(** [int(1000 / max(1, target_fps))]: the quotient of the two integers
    is below 1000, so that the float of [/] truncates to the integer
    quotient. *)
Definition interval_ms (target_fps : Z) : Z := 1000 / Z.max 1 target_fps.

Definition M (A : Type) : Type := MainWindow -> result A * MainWindow.

Definition ret {A} (a : A) : M A := fun mw => (Ok a, mw).
Definition raise {A} (e : exn) : M A := fun mw => (Raise e, mw).
Definition bind {A B} (m : M A) (k : A -> M B) : M B :=
  fun mw => match m mw with
            | (Ok a, mw') => k a mw'
            | (Raise e, mw') => (Raise e, mw')
            end.

Notation "x <- m ;; k" := (bind m (fun x => k))
  (at level 100, m at next level, k at level 200, right associativity).
Notation "m ;;; k" := (bind m (fun _ => k))
  (at level 100, k at level 200, right associativity).

Definition get : M MainWindow := fun mw => (Ok mw, mw).
Definition modify (f : MainWindow -> MainWindow) : M unit := fun mw => (Ok tt, f mw).

(** A method of the recorder, run on [self.recorder] and the world. *)
Definition on_recorder {A} (m : Recorder.M A) : M A :=
  fun mw =>
    match m {| Recorder.self := recorder mw; Recorder.world := world mw |} with
    | (r, st) => (r, set_world (Recorder.world st) (set_recorder (Recorder.self st) mw))
    end.

Section WithHost.

Context (host : Host) (cv2 : Provider.Cv2).

(** [time.time()] *)
Definition time_time : M Z :=
  mw <- get ;;
  let w := world mw in
  modify (set_world {| fs := fs w; trace := trace w; ticks := S (ticks w) |}) ;;;
  ret (clock host (ticks w)).

(** [self.provider.get_frame()]: the clock is read on the synthetic
    path only, before the frame is made. *)
Definition provider_get_frame (cap : bool * option image) : M image :=
  mw <- get ;;
  let w := world mw in
  let e := {| Provider.now := clock host (ticks w); Provider.cap_read := cap |} in
  (if Provider.delivers (provider mw) e then ret tt
   else modify (set_world {| fs := fs w; trace := trace w; ticks := S (ticks w) |})) ;;;
  match Provider.get_frame cv2 (provider mw) e with
  | Ok frame => ret frame
  | Raise ex => raise ex
  end.

(** [MainWindow.__init__], up to the filling of the combo box. *)
Definition init0 (w : World) : MainWindow :=
  let t0 := clock host (ticks w) in
  let t1 := clock host (S (ticks w)) in
  {| provider := Provider.init Provider.settings_default false t0;
     recorder := Recorder.init;
     _frame_idx := 0;
     _last_fps_t := t1;
     _fps_counter := 0;
     _fps_value := (0, 1);
     preview_label := None;
     btn_preview := {| text := "Start Preview"; enabled := true |};
     btn_record := {| text := "Start Recording"; enabled := false |};
     res_combo := 0;
     timer := {| isActive := false; interval := 0 |};
     stats_timer := {| isActive := false; interval := 0 |};
     boxes := [];
     accepted := false;
     world := {| fs := fs w; trace := trace w; ticks := S (S (ticks w)) |} |}.

Definition _toggle_preview : M unit :=
  mw <- get ;;
  if isActive (timer mw) then
    modify (set_timer {| isActive := false; interval := interval (timer mw) |}) ;;;
    modify (fun mw => set_btn_preview
              {| text := "Start Preview"; enabled := enabled (btn_preview mw) |} mw) ;;;
    modify (fun mw => set_btn_record
              {| text := text (btn_record mw); enabled := false |} mw)
  else
    let interval_ms := interval_ms (Provider.target_fps (settings mw)) in
    modify (set_timer {| isActive := true; interval := interval_ms |}) ;;;
    modify (fun mw => set_btn_preview
              {| text := "Stop Preview"; enabled := enabled (btn_preview mw) |} mw) ;;;
    modify (fun mw => set_btn_record
              {| text := text (btn_record mw); enabled := true |} mw).

(** [dialog] is what [QFileDialog.getExistingDirectory] returns if it
    is shown: [None] is the empty string of a cancelled dialog. *)
Definition _toggle_recording (dialog : option path) (cap : bool * option image) : M unit :=
  mw <- get ;;
  if negb (isActive (timer mw)) then
    modify (fun mw => set_boxes (boxes mw ++ ["Start preview before recording."]) mw)
  else if Recorder.is_recording (recorder mw) then
    on_recorder Recorder.stop ;;;
    modify (fun mw => set_btn_record
              {| text := "Start Recording"; enabled := enabled (btn_record mw) |} mw)
  else
    match dialog with
    | None => ret tt
    | Some out_dir =>
        frame <- provider_get_frame cap ;;
        let h := shape0 frame in
        let w := shape1 frame in
        mw <- get ;;
        let cfg := {| Recorder.out_dir := out_dir;
                      Recorder.fps := Provider.record_fps (settings mw) |} in
        on_recorder (Recorder.start host cfg (Z.of_nat w, Z.of_nat h)) ;;;
        modify (fun mw => set_btn_record
                  {| text := "Stop Recording"; enabled := enabled (btn_record mw) |} mw)
    end.

Definition with_flags (right disp : bool) (st : Provider.UiSettings) : Provider.UiSettings :=
  {| Provider.target_fps := Provider.target_fps st; Provider.show_disparity := disp;
     Provider.show_right := right; Provider.record_fps := Provider.record_fps st;
     Provider.width := Provider.width st; Provider.height := Provider.height st |}.

Definition with_fps (v : Z) (st : Provider.UiSettings) : Provider.UiSettings :=
  {| Provider.target_fps := v; Provider.show_disparity := Provider.show_disparity st;
     Provider.show_right := Provider.show_right st;
     Provider.record_fps := Provider.record_fps st;
     Provider.width := Provider.width st; Provider.height := Provider.height st |}.

Definition with_size (w h : Z) (st : Provider.UiSettings) : Provider.UiSettings :=
  {| Provider.target_fps := Provider.target_fps st;
     Provider.show_disparity := Provider.show_disparity st;
     Provider.show_right := Provider.show_right st;
     Provider.record_fps := Provider.record_fps st;
     Provider.width := w; Provider.height := h |}.

(** [chk_right] and [chk_disp] are what the two boxes say. *)
Definition _update_view_flags (chk_right chk_disp : bool) : M unit :=
  modify (fun mw => set_settings (with_flags chk_right chk_disp (settings mw)) mw).

(** [spin] is the value of the spin box. *)
Definition _update_fps (spin : Z) : M unit :=
  modify (fun mw => set_settings (with_fps spin (settings mw)) mw) ;;;
  mw <- get ;;
  if isActive (timer mw) then
    modify (set_timer {| isActive := true;
                         interval := interval_ms (Provider.target_fps (settings mw)) |})
  else ret tt.

(** [w, h = self.res_combo.currentData()] *)
Definition _update_resolution : M unit :=
  mw <- get ;;
  match resolutions !! res_combo mw with
  | Some (w, h) => modify (fun mw => set_settings (with_size w h (settings mw)) mw)
  | None => raise TypeError
  end.

(** The loop of [_set_combo_to_current_resolution]: the first index
    from [i] on whose resolution is the current one. *)
Fixpoint first_index (cur : Z * Z) (i : nat) (items : list (Z * Z)) : option nat :=
  match items with
  | [] => None
  | wh :: rest =>
      if bool_decide (wh = cur) then Some i else first_index cur (S i) rest
  end.

Definition _set_combo_to_current_resolution : M unit :=
  mw <- get ;;
  match first_index (Provider.width (settings mw), Provider.height (settings mw))
                    0 resolutions with
  | Some i => modify (set_res_combo i)
  | None => ret tt
  end.

(** [MainWindow.__init__] *)
Definition init (w : World) : MainWindow :=
  let mw := snd (_set_combo_to_current_resolution (init0 w)) in
  set_stats_timer {| isActive := true; interval := 1000 |} mw.

Definition _tick_preview (cap : bool * option image) : M unit :=
  frame <- provider_get_frame cap ;;
  qimg <- (fun mw => match bgr_to_qimage frame with
                     | Ok q => (Ok q, mw)
                     | Raise ex => (Raise ex, mw)
                     end) ;;
  modify (set_preview_label (Some qimg)) ;;;
  mw <- get ;;
  (if Recorder.is_recording (recorder mw) then
     on_recorder (Recorder.write host frame (_frame_idx mw))
   else ret tt) ;;;
  modify (fun mw => set_frame_idx (_frame_idx mw + 1) mw) ;;;
  modify (fun mw => set_fps_counter (_fps_counter mw + 1) mw) ;;;
  now <- time_time ;;
  mw <- get ;;
  if 1000000 <=? now - _last_fps_t mw then
    modify (set_fps_value (_fps_counter mw, now - _last_fps_t mw)) ;;;
    modify (set_fps_counter 0) ;;;
    modify (set_last_fps_t now)
  else ret tt.

(** The body of the [try] of [closeEvent]. *)
Definition closeEvent_body : M unit :=
  modify (fun mw => set_timer {| isActive := false; interval := interval (timer mw) |} mw) ;;;
  modify (fun mw => set_stats_timer
            {| isActive := false; interval := interval (stats_timer mw) |} mw) ;;;
  mw <- get ;;
  (if Recorder.is_recording (recorder mw) then on_recorder Recorder.stop else ret tt) ;;;
  modify (fun mw => set_provider (fst (ProviderExt.close (provider mw))) mw).

(** [closeEvent]: [event.accept()] is in the [finally], and runs
    whatever the body did. *)
Definition closeEvent : M unit :=
  fun mw =>
    match closeEvent_body mw with
    | (r, mw') => (r, set_accepted true mw')
    end.

(** What the operator and the timer do. *)
Inductive ui_event :=
| TogglePreview
| ToggleRecording (dialog : option path) (cap : bool * option image)
| TickPreview (cap : bool * option image)
| UpdateViewFlags (chk_right chk_disp : bool)
| UpdateFps (spin : Z)
| SelectResolution (i : nat)
| CloseWindow.

(** Choosing another entry of the combo box makes it the current one
    and runs [_update_resolution]; choosing the current one again is no
    change of index, and runs nothing. *)
Definition handle (ev : ui_event) : M unit :=
  match ev with
  | TogglePreview => _toggle_preview
  | ToggleRecording dialog cap => _toggle_recording dialog cap
  | TickPreview cap => _tick_preview cap
  | UpdateViewFlags r d => _update_view_flags r d
  | UpdateFps v => _update_fps v
  | SelectResolution i =>
      mw <- get ;;
      if bool_decide (i = res_combo mw) then ret tt
      else modify (set_res_combo i) ;;; _update_resolution
  | CloseWindow => closeEvent
  end.

Definition run_ui (evs : list ui_event) (mw : MainWindow) : MainWindow :=
  fold_left (fun mw ev => snd (handle ev mw)) evs mw.

(** The ticks of the timer, one after the other; the first that raises
    ends the run. *)
Fixpoint ticks_of (caps : list (bool * option image)) : M unit :=
  match caps with
  | [] => ret tt
  | cap :: rest => _tick_preview cap ;;; ticks_of rest
  end.

End WithHost.

(** While the preview runs, the timer has the interval of the target
    rate; and the record button is enabled exactly then. *)
Definition timer_inv (mw : MainWindow) : Prop :=
  (isActive (timer mw) = true ->
   interval (timer mw) = interval_ms (Provider.target_fps (settings mw))) /\
  enabled (btn_record mw) = isActive (timer mw).

(** The two buttons say what a click on them would do, and the recorder
    holds both handles or none. *)
Definition labels_inv (mw : MainWindow) : Prop :=
  (text (btn_record mw) = "Stop Recording" <->
   Recorder.is_recording (recorder mw) = true) /\
  (text (btn_preview mw) = "Stop Preview" <-> isActive (timer mw) = true) /\
  Recorder.paired (recorder mw).

(** The combo box shows the resolution in use. *)
Definition combo_inv (mw : MainWindow) : Prop :=
  resolutions !! res_combo mw
  = Some (Provider.width (settings mw), Provider.height (settings mw)).

(** An event that the widgets allow: the combo box has no entry beyond
    its list. *)
Definition allowed (ev : ui_event) : Prop :=
  match ev with
  | SelectResolution i => (i < length resolutions)%nat
  | _ => True
  end.

(** The rows that [n] ticks add to the log, from the frame index [idx]
    and the clock count [tick] on: while it records, a tick reads the
    clock three times, and its row has the second reading. *)
Fixpoint tick_rows (host : Host) (idx : Z) (tick : nat) (n : nat) : list string :=
  match n with
  | O => []
  | S n' =>
      Recorder.row idx (clock host (S tick)) :: tick_rows host (idx + 1) (tick + 3) n'
  end.

(** The size that [start] is given for a frame. *)
Definition size_of (frame : image) : Z * Z :=
  (Z.of_nat (shape1 frame), Z.of_nat (shape0 frame)).

(** Every handler of the run returns. *)
Fixpoint all_return (host : Host) (cv2 : Provider.Cv2) (evs : list ui_event)
    (mw : MainWindow) : Prop :=
  match evs with
  | [] => True
  | ev :: rest =>
      fst (handle host cv2 ev mw) = Ok tt /\
      all_return host cv2 rest (snd (handle host cv2 ev mw))
  end.

(** A handler leaves [f] of the window as it is, whether it returns or
    raises. *)
Definition preserves {T A} (f : MainWindow -> T) (m : M A) : Prop :=
  forall mw, f (snd (m mw)) = f mw.

(** What the three invariants read of the window. *)
Definition timer_part (mw : MainWindow) : QTimer * bool * Z :=
  (timer mw, enabled (btn_record mw), Provider.target_fps (settings mw)).

Definition res_part (mw : MainWindow) : nat * Z * Z :=
  (res_combo mw, Provider.width (settings mw), Provider.height (settings mw)).

Definition labels_part (mw : MainWindow) : string * string * bool * Recorder.FrameRecorder :=
  (text (btn_record mw), text (btn_preview mw), isActive (timer mw), recorder mw).

(** The world after one more reading of the clock. *)
Definition bump (w : World) : World :=
  {| fs := fs w; trace := trace w; ticks := S (ticks w) |}.

(** The tick that [get_frame] sees in the window [mw]. *)
Definition tick_of (host : Host) (mw : MainWindow) (cap : bool * option image)
  : Provider.Tick :=
  {| Provider.now := clock host (ticks (world mw)); Provider.cap_read := cap |}.

(** *** Windows, events and frames of the examples *)

(** Drawing primitives that leave every pixel as it is. *)
Definition cv2_plain : Provider.Cv2 :=
  {| Provider.circle := fun c r col th y x p => p;
     Provider.putText := fun txt org col th y x p => p;
     Provider.bgr2gray := fun p => fst (fst p);
     Provider.colormap_turbo := fun z => (z, z, z);
     Provider.centre := fun w h t => (w / 2, h / 2) |}.

Definition world0 : World := {| fs := ∅; trace := []; ticks := 0 |}.

(** A window whose preview runs, with a small frame. *)
Definition window_small : MainWindow :=
  set_settings Provider.settings_small
    (snd (_toggle_preview (init Recorder.host_mp4v world0))).

Definition no_device : bool * option image := (false, None).

(** The operator takes the smallest frame, starts the preview, records
    into a directory and stops. *)
Definition evs_session : list ui_event :=
  [UpdateViewFlags false false; SelectResolution 0; TogglePreview;
   ToggleRecording (Some ["home"; "pi"; "rec"]) no_device;
   ToggleRecording None no_device].

Definition evs_settings : list ui_event :=
  [TogglePreview; UpdateFps 60; SelectResolution 3; UpdateViewFlags true false;
   TickPreview no_device; TogglePreview].

Definition frame_1x2 : image :=
  {| shape0 := 1; shape1 := 2; data := [[(1, 2, 3); (4, 5, 6)]] |}.

End Main.

(** * Facts about text *)

Lemma string_app_cons c (a b : string) : String c a +:+ b = String c (a +:+ b).
Proof. reflexivity. Qed.

Lemma string_app_nil (b : string) : EmptyString +:+ b = b.
Proof. reflexivity. Qed.

Lemma newline_free_app a b :
  newline_free (a +:+ b) = newline_free a && newline_free b.
Proof.
  induction a as [|c a IH]; [done|].
  rewrite string_app_cons. simpl. rewrite IH. by rewrite andb_assoc.
Qed.

Lemma string_app_assoc (a b c : string) : (a +:+ b) +:+ c = a +:+ (b +:+ c).
Proof.
  induction a as [|x a IH]; [done|].
  rewrite !string_app_cons. by rewrite IH.
Qed.

Lemma string_app_empty_r (a : string) : a +:+ EmptyString = a.
Proof. induction a as [|x a IH]; [done|]. rewrite string_app_cons. by rewrite IH. Qed.

Lemma lines_from_line cur l rest :
  newline_free l = true ->
  lines_from cur (l +:+ nl +:+ rest) = (cur +:+ l) :: lines_from EmptyString rest.
Proof.
  revert cur. induction l as [|c l IH]; intros cur Hl.
  - rewrite string_app_nil, string_app_empty_r. reflexivity.
  - rewrite string_app_cons. simpl in *.
    apply andb_true_iff in Hl as [Hc Hl].
    destruct (Ascii.eqb c newline); [done|].
    rewrite IH by done. by rewrite string_app_assoc.
Qed.

Lemma newline_free_uint d : newline_free (NilEmpty.string_of_uint d) = true.
Proof. induction d; simpl; auto. Qed.

Lemma newline_free_fmt_int z : newline_free (fmt_int z) = true.
Proof.
  unfold fmt_int. destruct (Z.to_int z) as [d|d]; simpl.
  - destruct d; simpl; auto using newline_free_uint.
  - destruct d; simpl; auto using newline_free_uint.
Qed.

Lemma digit_not_newline d : Ascii.eqb (digit d) newline = false.
Proof.
  unfold digit.
  assert (H : (Z.to_nat (d mod 10) < 10)%nat) by (pose proof (Z.mod_pos_bound d 10); lia).
  destruct (Z.to_nat (d mod 10)) as [|[|[|[|[|[|[|[|[|[|n]]]]]]]]]]; try reflexivity; lia.
Qed.

Lemma newline_free_fmt_time t : newline_free (fmt_time t) = true.
Proof.
  unfold fmt_time, frac6. rewrite !newline_free_app, newline_free_fmt_int.
  cbn [newline_free]. rewrite !digit_not_newline. by destruct (t <? 0).
Qed.

Lemma string_length_app (a b : string) :
  String.length (a +:+ b) = (String.length a + String.length b)%nat.
Proof.
  induction a as [|c a IH]; [done|].
  rewrite string_app_cons. cbn [String.length]. by rewrite IH.
Qed.

Lemma string_app_inv_tail (s1 s2 t : string) : s1 +:+ t = s2 +:+ t -> s1 = s2.
Proof.
  revert s2. induction s1 as [|c s1 IH]; intros [|c2 s2] H.
  - done.
  - apply (f_equal String.length) in H.
    rewrite string_app_nil, string_app_cons in H. cbn [String.length] in H.
    rewrite string_length_app in H. lia.
  - apply (f_equal String.length) in H.
    rewrite string_app_nil, string_app_cons in H. cbn [String.length] in H.
    rewrite string_length_app in H. lia.
  - rewrite !string_app_cons in H. injection H as -> H. f_equal. by apply IH.
Qed.

Lemma to_int_not_nil z :
  Z.to_int z <> Decimal.Pos Decimal.Nil /\ Z.to_int z <> Decimal.Neg Decimal.Nil.
Proof.
  destruct z as [|p|p]; cbn; split; try discriminate;
    intros [= H]; by apply (DecimalPos.Unsigned.to_uint_nonnil p).
Qed.

Lemma fmt_int_inj z1 z2 : fmt_int z1 = fmt_int z2 -> z1 = z2.
Proof.
  unfold fmt_int. intros H. apply DecimalZ.to_int_inj.
  destruct (to_int_not_nil z1) as [H1 H1'], (to_int_not_nil z2) as [H2 H2'].
  pose proof (NilZero.isi (Z.to_int z1) H1 H1') as E1.
  pose proof (NilZero.isi (Z.to_int z2) H2 H2') as E2.
  rewrite H in E1. congruence.
Qed.

(** * Facts about the file system *)

Section FileSystemFacts.

Implicit Types (f : gmap (list string) node) (p pre rest : list string).

Lemma mkdir_from_keeps pre rest f f' :
  mkdir_from pre rest f = Some f' ->
  forall q n, f !! q = Some n -> f' !! q = Some n.
Proof.
  revert pre f. induction rest as [|c rest IH]; intros pre f Hmk q n Hq; simpl in Hmk.
  - by inversion Hmk; subst.
  - destruct (f !! (pre ++ [c])) as [[|content]|] eqn:Hl; [eauto|done|].
    eapply IH; [exact Hmk|].
    rewrite lookup_insert_ne; [done|]. intros Heq; subst q. congruence.
Qed.

Lemma mkdir_from_prefixes pre rest f f' :
  mkdir_from pre rest f = Some f' ->
  forall k, (0 < k <= length rest)%nat -> f' !! (pre ++ take k rest) = Some Dir.
Proof.
  revert pre f. induction rest as [|c rest IH]; intros pre f Hmk k Hk; simpl in *; [lia|].
  destruct k as [|k]; [lia|]. simpl.
  assert (Hhere : forall g, mkdir_from (pre ++ [c]) rest g = Some f' ->
                   g !! (pre ++ [c]) = Some Dir -> f' !! (pre ++ c :: take k rest) = Some Dir).
  { intros g Hg Hd. destruct k as [|k].
    - rewrite take_0. eapply mkdir_from_keeps; eauto.
    - replace (pre ++ c :: take (S k) rest) with ((pre ++ [c]) ++ take (S k) rest)
        by (by rewrite <- app_assoc).
      eapply IH; [exact Hg|]. lia. }
  destruct (f !! (pre ++ [c])) as [[|content]|] eqn:Hl; [eauto|done|].
  eapply Hhere; [exact Hmk|]. by rewrite lookup_insert_eq.
Qed.

Lemma mkdir_from_present pre rest f :
  (forall k, (0 < k <= length rest)%nat -> f !! (pre ++ take k rest) = Some Dir) ->
  mkdir_from pre rest f = Some f.
Proof.
  revert pre. induction rest as [|c rest IH]; intros pre H; simpl; [done|].
  pose proof (H 1%nat) as H1. simpl in H1. rewrite take_0 in H1.
  rewrite H1 by lia. apply IH. intros k Hk.
  rewrite <- app_assoc. apply (H (S k)). simpl. lia.
Qed.

Lemma mkdir_parents_idempotent p f f' :
  mkdir_parents p f = Some f' -> mkdir_parents p f' = Some f'.
Proof.
  intros H. apply mkdir_from_present. by apply mkdir_from_prefixes with (f := f).
Qed.

Lemma mkdir_parents_is_dir p f f' :
  mkdir_parents p f = Some f' ->
  forall k, (k <= length p)%nat -> is_dir f' (take k p) = true.
Proof.
  intros H k Hk. unfold is_dir.
  destruct (take k p) as [|c q] eqn:Ht; [done|].
  assert (0 < k)%nat by (destruct k; [by rewrite take_0 in Ht|lia]).
  pose proof (mkdir_from_prefixes [] p f f' H k) as Hd. simpl in Hd.
  rewrite Ht in Hd. by rewrite Hd.
Qed.

Lemma file_content_append p s f c :
  file_content f p = Some c ->
  file_content (fs_append p s f) p = Some (c +:+ s).
Proof.
  unfold file_content, fs_append. intros H.
  destruct (f !! p) as [[|c']|] eqn:Hl; try done. inversion H; subst.
  by rewrite lookup_insert_eq.
Qed.

Lemma file_content_open_w p f f' :
  fs_open ModeW p f = Some f' -> file_content f' p = Some EmptyString.
Proof.
  unfold fs_open, file_content. destruct (is_dir f (removelast p)); [|done].
  destruct (f !! p) as [[|c]|]; intros H; inversion H; subst;
    by rewrite lookup_insert_eq.
Qed.

End FileSystemFacts.

(** * FrameRecorder: proofs *)

Module RecorderProofs.
Import Recorder.

Section RecorderFacts.

Context (host : Host).

Lemma add_events_nil st : add_events [] st = st.
Proof. destruct st as [s [f t n]]. unfold add_events. simpl. by rewrite app_nil_r. Qed.

Lemma add_events_app evs1 evs2 st :
  add_events evs2 (add_events evs1 st) = add_events (evs1 ++ evs2) st.
Proof. unfold add_events. simpl. by rewrite app_assoc. Qed.

Lemma try_candidates_spec cfg size cands st :
  Forall (fun c => is_Some (fourcc_code c)) cands ->
  try_candidates host (out_path cfg) (fps cfg) size cands st =
    (Ok (writer_of host cfg size <$> find (opens host cfg size) cands),
     add_events (map (fun c => EvVideoWriter (writer_of host cfg size c))
                     (tried (opens host cfg size) cands)) st).
Proof.
  intros Hwf. revert st. induction Hwf as [|c rest [z Hz] _ IH]; intros st.
  - simpl. by rewrite add_events_nil.
  - assert (Hw : writer_of host cfg size c =
       {| vw_path := out_path cfg; vw_fourcc := z; vw_fps := fps cfg; vw_size := size;
          isOpened := encoder_opens host (out_path cfg) z (fps cfg) size |}).
    { unfold writer_of. by rewrite Hz. }
    assert (Hf : fourcc_of c = ret z).
    { unfold fourcc_of, fourcc_code in *.
      repeat (destruct c as [|? c]; try discriminate). by inversion Hz. }
    cbn [try_candidates find tried]. unfold opens at 1 3. rewrite Hf, Hw.
    cbv [bind ret new_VideoWriter emit get_world put_world isOpened].
    destruct (encoder_opens host (out_path cfg) z (fps cfg) size) eqn:Ho.
    + cbn [map fmap option_fmap option_map]. by rewrite Hw.
    + rewrite IH. cbn [map]. rewrite Hw.
      unfold add_events. cbn [self world fs trace ticks].
      by rewrite <- app_assoc.
Qed.

Lemma find_first (P : string -> bool) pre c post :
  Forall (fun x => P x = false) pre -> P c = true ->
  find P (pre ++ c :: post) = Some c /\ tried P (pre ++ c :: post) = pre ++ [c].
Proof.
  intros Hpre Hc. induction Hpre as [|x pre Hx _ [IH1 IH2]]; simpl.
  - by rewrite Hc.
  - rewrite Hx. by rewrite IH1, IH2.
Qed.

Lemma find_none (P : string -> bool) l :
  Forall (fun x => P x = false) l -> find P l = None /\ tried P l = l.
Proof.
  intros H. induction H as [|x l Hx _ [IH1 IH2]]; simpl; [done|].
  rewrite Hx. by rewrite IH1, IH2.
Qed.

Lemma candidates_well_formed :
  Forall (fun c => is_Some (fourcc_code c)) fourcc_candidates.
Proof. repeat constructor; eexists; reflexivity. Qed.

Lemma start_spec cfg size st :
  start host cfg size st =
  match mkdir_parents (out_dir cfg) (fs (world st)) with
  | None => (Raise (OSError (out_dir cfg)), st)
  | Some f =>
      let st2 := after_attempts host cfg size f st in
      match find (opens host cfg size) fourcc_candidates with
      | None => (Raise no_codec, st2)
      | Some c =>
          let s3 := set_writer (Some (writer_of host cfg size c)) (self st2) in
          match fs_open ModeW (log_path cfg) f with
          | None => (Raise (OSError (log_path cfg)), {| self := s3; world := world st2 |})
          | Some f' =>
              (Ok tt,
               {| self := set_start_time (Some (clock host (ticks (world st))))
                            (set_ts_file (Some (log_path cfg)) s3);
                  world := {| fs := fs_append (log_path cfg) header f';
                              trace := (trace (world st2) ++ [EvOpen ModeW (log_path cfg)])
                                       ++ [EvFileWrite (log_path cfg) header];
                              ticks := S (ticks (world st)) |} |})
          end
      end
  end.
Proof.
  unfold start.
  cbv [bind mkdir get_world put_fs put_world emit set_self ret raise].
  destruct (mkdir_parents (out_dir cfg) (fs (world st))) as [f|] eqn:Hmk.
  2: { by destruct st. }
  cbn [self world fs trace ticks].
  fold (out_path cfg). fold (log_path cfg).
  rewrite (try_candidates_spec cfg size fourcc_candidates _ candidates_well_formed).
  fold (after_mkdir cfg size f st). fold (after_attempts host cfg size f st).
  destruct (find (opens host cfg size) fourcc_candidates) as [c|]; cbn [fmap option_fmap option_map].
  2: { reflexivity. }
  cbv [open bind get_world put_fs put_world emit ret raise file_write time_time set_self].
  cbn [self world fs trace ticks].
  change (fs (world (after_attempts host cfg size f st))) with f.
  destruct (fs_open ModeW (log_path cfg) f) as [f'|]; reflexivity.
Qed.

End RecorderFacts.

Section RecorderFacts2.

Context (host : Host).

Lemma write_spec fr i st :
  write host fr i st =
  match _writer (self st), _ts_file (self st) with
  | Some w, Some f =>
      let line := row i (clock host (ticks (world st))) +:+ nl in
      (Ok tt,
       {| self := self st;
          world := {| fs := fs_append f line (fs (world st));
                      trace := (trace (world st) ++ [EvVideoWrite w fr])
                               ++ [EvFileWrite f line];
                      ticks := S (ticks (world st)) |} |})
  | _, _ => (Ok tt, st)
  end.
Proof.
  unfold write. cbv [bind get_self ret].
  destruct (_writer (self st)) as [w|]; [|reflexivity].
  destruct (_ts_file (self st)) as [f|]; [|reflexivity].
  cbv [emit time_time file_write bind get_world put_world put_fs ret row].
  cbn [self world fs trace ticks].
  by rewrite !string_app_assoc.
Qed.

Lemma stop_spec st :
  stop st =
  (Ok tt,
   {| self := init;
      world := {| fs := fs (world st);
                  trace := trace (world st) ++ stop_events (self st);
                  ticks := ticks (world st) |} |}).
Proof.
  unfold stop, stop_events. cbv [bind get_self ret set_self].
  destruct st as [[w f t0 sz] [fs0 tr n]]. cbn [self world _writer _ts_file].
  destruct w as [w|], f as [f|];
    cbv [emit file_close bind get_world put_world ret set_writer set_ts_file
         set_start_time set_frame_size init];
    cbn [self world fs trace ticks _writer _ts_file _start_time _frame_size app];
    rewrite <- ?app_assoc, ?app_nil_r; reflexivity.
Qed.

End RecorderFacts2.

Section RecorderClaims.

Context (host : Host).

Lemma constructed_attempts cfg size (l : list string) tr :
  constructed (tr ++ map (fun c => EvVideoWriter (writer_of host cfg size c)) l)
  = constructed tr ++ map (writer_of host cfg size) l.
Proof.
  unfold constructed. rewrite omap_app. f_equal.
  induction l as [|c l IH]; csimpl; [done|]. by rewrite IH.
Qed.

Lemma constructed_snoc_other tr e :
  (forall w, e <> EvVideoWriter w) -> constructed (tr ++ [e]) = constructed tr.
Proof.
  intros H. unfold constructed. rewrite omap_app. simpl.
  destruct e; try by rewrite app_nil_r. by destruct (H w).
Qed.

Lemma after_attempts_self cfg size f st :
  self (after_attempts host cfg size f st) = set_frame_size (Some size) (self st).
Proof. reflexivity. Qed.

Lemma after_attempts_constructed cfg size f st :
  constructed (trace (world (after_attempts host cfg size f st)))
  = constructed (trace (world st))
    ++ map (writer_of host cfg size) (tried (opens host cfg size) fourcc_candidates).
Proof.
  unfold after_attempts, add_events, after_mkdir. cbn [world trace].
  rewrite constructed_attempts. by rewrite constructed_snoc_other.
Qed.

(** C1. [start] tries the codec candidates in their order. Where the
    output directory can be made, the writer it stores is the one of the
    first candidate that opens, and the writers it constructed are those
    of the candidates up to that one, in order. Where no candidate opens
    it raises the no-codec error, having tried every candidate, both
    handles are as they were, and a recorder that was idle is idle
    still: [is_recording] is false and a [write] that follows changes
    neither the recorder nor the world. *)
Theorem start_codec_fallback cfg size st :
  is_Some (mkdir_parents (out_dir cfg) (fs (world st))) ->
  let st' := snd (start host cfg size st) in
  (forall pre c post,
      fourcc_candidates = pre ++ c :: post ->
      Forall (fun c' => opens host cfg size c' = false) pre ->
      opens host cfg size c = true ->
      _writer (self st') = Some (writer_of host cfg size c) /\
      constructed (trace (world st'))
      = constructed (trace (world st)) ++ map (writer_of host cfg size) (pre ++ [c]))
  /\
  (Forall (fun c => opens host cfg size c = false) fourcc_candidates ->
      fst (start host cfg size st) = Raise no_codec /\
      constructed (trace (world st'))
      = constructed (trace (world st)) ++ map (writer_of host cfg size) fourcc_candidates /\
      _writer (self st') = _writer (self st) /\
      _ts_file (self st') = _ts_file (self st) /\
      (is_recording (self st) = false ->
         is_recording (self st') = false /\
         forall fr i, write host fr i st' = (Ok tt, st'))).
Proof.
  intros [f Hmk] st'. subst st'. rewrite start_spec, Hmk. cbv zeta. split.
  - intros pre c post Hsplit Hpre Hc.
    destruct (find_first (opens host cfg size) pre c post Hpre Hc) as [Hfind Htried].
    rewrite <- Hsplit in Hfind, Htried. rewrite Hfind.
    pose proof (after_attempts_constructed cfg size f st) as Hcons.
    rewrite Htried in Hcons.
    destruct (fs_open ModeW (log_path cfg) f) as [f'|]; cbn [fst snd self world trace];
      (split; [reflexivity|]).
    + rewrite !constructed_snoc_other by done. exact Hcons.
    + exact Hcons.
  - intros Hnone.
    destruct (find_none (opens host cfg size) _ Hnone) as [Hfind Htried].
    rewrite Hfind. cbn [fst snd].
    pose proof (after_attempts_constructed cfg size f st) as Hcons.
    rewrite Htried in Hcons.
    split; [done|]. split; [done|]. split; [done|]. split; [done|].
    intros Hidle. split; [exact Hidle|].
    intros fr i. rewrite write_spec, after_attempts_self. simpl.
    unfold is_recording in Hidle. by destruct (_writer (self st)).
Qed.

(** C10. When [start] raises the no-codec error, the output directory
    and all its ancestors are directories on disk (making them again
    changes nothing, and what was on disk before is still there), and
    the stored frame size is the argument; the writer, the log handle
    and the start time are as they were, and so is [is_recording]. *)
Theorem start_no_codec_not_atomic cfg size st :
  fst (start host cfg size st) = Raise no_codec ->
  let st' := snd (start host cfg size st) in
  (forall k, (k <= length (out_dir cfg))%nat ->
     is_dir (fs (world st')) (take k (out_dir cfg)) = true) /\
  mkdir_parents (out_dir cfg) (fs (world st')) = Some (fs (world st')) /\
  (forall p n, fs (world st) !! p = Some n -> fs (world st') !! p = Some n) /\
  _frame_size (self st') = Some size /\
  _writer (self st') = _writer (self st) /\
  _ts_file (self st') = _ts_file (self st) /\
  _start_time (self st') = _start_time (self st) /\
  is_recording (self st') = is_recording (self st).
Proof.
  intros Hfail st'. subst st'. revert Hfail. rewrite start_spec.
  destruct (mkdir_parents (out_dir cfg) (fs (world st))) as [f|] eqn:Hmk; [|done].
  cbv zeta.
  destruct (find (opens host cfg size) fourcc_candidates) as [c|].
  { destruct (fs_open ModeW (log_path cfg) f); done. }
  intros _. cbn [fst snd].
  change (fs (world (after_attempts host cfg size f st))) with f.
  rewrite after_attempts_self.
  repeat split; try done.
  - by apply mkdir_parents_is_dir with (f := fs (world st)).
  - by apply mkdir_parents_idempotent with (f := fs (world st)).
  - by apply mkdir_from_keeps with (pre := []) (rest := out_dir cfg).
Qed.

(** C5. [write] on a recorder that is not recording returns normally
    and leaves the recorder and the world (file system, trace, clock) as
    they were, whatever the frame and the index. *)
Theorem write_idle_noop fr i st :
  is_recording (self st) = false -> write host fr i st = (Ok tt, st).
Proof.
  intros H. rewrite write_spec. unfold is_recording in H.
  by destruct (_writer (self st)).
Qed.

(** C6. [stop] returns normally from every state, clears the four
    fields, releases the writer and then closes the log, where they are
    held, and a second [stop] right after it changes nothing: it
    releases and closes nothing. *)
Theorem stop_idempotent st :
  let st1 := snd (stop st) in
  fst (stop st) = Ok tt /\
  self st1 = init /\
  trace (world st1)
  = trace (world st)
    ++ match _writer (self st) with Some w => [EvRelease w] | None => [] end
    ++ match _ts_file (self st) with Some f => [EvClose f] | None => [] end /\
  stop st1 = (Ok tt, st1).
Proof.
  intros st1. subst st1. rewrite (stop_spec st). cbn [fst snd self world fs trace].
  unfold stop_events. by rewrite app_assoc.
Qed.

End RecorderClaims.

Section LogFacts.

Context (host : Host).

Lemma splitlines_unlines ls :
  Forall (fun l => newline_free l = true) ls -> splitlines (unlines ls) = ls.
Proof.
  unfold splitlines. induction 1 as [|l ls Hl _ IH]; [done|].
  cbn [unlines fold_right]. rewrite lines_from_line by done.
  rewrite string_app_nil. f_equal. exact IH.
Qed.

Lemma unlines_snoc ls l : unlines (ls ++ [l]) = unlines ls +:+ l +:+ nl.
Proof.
  induction ls as [|x ls IH]; cbn [unlines fold_right app].
  - by rewrite string_app_nil.
  - fold (unlines (ls ++ [l])). fold (unlines ls). rewrite IH.
    by rewrite !string_app_assoc.
Qed.

Lemma newline_free_row i t : newline_free (row i t) = true.
Proof.
  unfold row. by rewrite !newline_free_app, newline_free_fmt_int, newline_free_fmt_time.
Qed.

Lemma write_all_armed frames : forall st w f ls,
  _writer (self st) = Some w ->
  _ts_file (self st) = Some f ->
  file_content (fs (world st)) f = Some (unlines ls) ->
  let r := write_all host frames st in
  fst r = Ok tt /\
  self (snd r) = self st /\
  ticks (world (snd r)) = (ticks (world st) + length frames)%nat /\
  file_content (fs (world (snd r))) f
  = Some (unlines (ls ++ zip_with row (map snd frames)
                          (map (clock host) (seq (ticks (world st)) (length frames))))).
Proof.
  induction frames as [|[fr i] frames IH]; intros st w f ls Hw Hf Hc.
  - cbn. rewrite app_nil_r. repeat split; try done.
  - pose (st1 := snd (write host fr i st)).
    assert (Hstep : write_all host ((fr, i) :: frames) st = write_all host frames st1).
    { subst st1. cbn [write_all]. unfold bind. rewrite write_spec, Hw, Hf. reflexivity. }
    rewrite Hstep. clear Hstep.
    assert (Hst1 : st1 = {| self := self st;
       world := {| fs := fs_append f (row i (clock host (ticks (world st))) +:+ nl) (fs (world st));
                   trace := (trace (world st) ++ [EvVideoWrite w fr])
                            ++ [EvFileWrite f (row i (clock host (ticks (world st))) +:+ nl)];
                   ticks := S (ticks (world st)) |} |}).
    { subst st1. rewrite write_spec, Hw, Hf. reflexivity. }
    clearbody st1. cbv zeta.
    assert (Hs1 : self st1 = self st) by (by rewrite Hst1).
    assert (Ht1 : ticks (world st1) = S (ticks (world st))) by (by rewrite Hst1).
    specialize (IH st1 w f (ls ++ [row i (clock host (ticks (world st)))])).
    destruct IH as (IH1 & IH2 & IH3 & IH4).
    { by rewrite Hs1. }
    { by rewrite Hs1. }
    { rewrite Hst1. cbn [self world fs]. rewrite unlines_snoc.
      rewrite (file_content_append _ _ _ _ Hc). by rewrite ?string_app_assoc. }
    split; [exact IH1|]. split; [by rewrite IH2|]. split.
    { rewrite IH3, Ht1. simpl. lia. }
    rewrite IH4, Ht1. cbn [length seq map zip_with].
    by rewrite <- app_assoc.
Qed.

Lemma clock_sorted n m : clock_monotone host -> Sorted Z.le (map (clock host) (seq n m)).
Proof.
  intros Hmono. revert n. induction m as [|m IH]; intros n; simpl; [constructor|].
  constructor; [apply IH|].
  destruct m; simpl; constructor. apply Hmono. lia.
Qed.

End LogFacts.

Section LogClaims.

Context (host : Host).

Lemma start_ok_armed cfg size st :
  fst (start host cfg size st) = Ok tt ->
  let st1 := snd (start host cfg size st) in
  (exists w, _writer (self st1) = Some w) /\
  _ts_file (self st1) = Some (log_path cfg) /\
  ticks (world st1) = S (ticks (world st)) /\
  file_content (fs (world st1)) (log_path cfg) = Some header /\
  In (EvOpen ModeW (log_path cfg)) (trace (world st1)).
Proof.
  rewrite start_spec.
  destruct (mkdir_parents (out_dir cfg) (fs (world st))) as [f|]; [|done].
  cbv zeta. destruct (find (opens host cfg size) fourcc_candidates) as [c|]; [|done].
  destruct (fs_open ModeW (log_path cfg) f) as [f'|] eqn:Hopen; [|done].
  intros _. cbn [fst snd self world fs trace ticks].
  split; [by eexists|]. split; [done|]. split; [done|]. split.
  - by rewrite (file_content_append _ _ _ _ (file_content_open_w _ _ _ Hopen)).
  - apply in_or_app. left. apply in_or_app. right. by left.
Qed.

Lemma newline_free_rows (idx : list Z) (ts : list Z) :
  Forall (fun l => newline_free l = true) (zip_with row idx ts).
Proof.
  revert ts. induction idx as [|i l IH]; intros [|t ts]; cbn [zip_with];
    try constructor; [apply newline_free_row|apply IH].
Qed.

(** C2, as amended. A [start] that returns, on a recorder that holds
    no handle, has opened the log for writing, not for appending, and
    the header line is the first text it has handed to it. Each of the
    [write] calls that follow returns and hands over one row, so that
    after them and one [stop] the log on disk is the header followed by
    one row per frame, in the order of the calls, with the frame indices
    and the clock readings of the calls, whatever the file held before;
    these readings are in non-decreasing order where the clock is. *)
Theorem timestamp_log_lines cfg size st frames :
  idle (self st) ->
  fst (start host cfg size st) = Ok tt ->
  let st1 := snd (start host cfg size st) in
  let st2 := snd (stop (snd (write_all host frames st1))) in
  let times := map (clock host) (seq (ticks (world st1)) (length frames)) in
  let rows := zip_with row (map snd frames) times in
  (exists tr,
     trace (world st1)
     = tr ++ [EvOpen ModeW (log_path cfg); EvFileWrite (log_path cfg) header]) /\
  fst (write_all host frames st1) = Ok tt /\
  fst (stop (snd (write_all host frames st1))) = Ok tt /\
  idle (self st2) /\
  read_lines (fs (world st2)) (log_path cfg) = Some ("frame_idx,unix_time" :: rows) /\
  length ("frame_idx,unix_time" :: rows) = S (length frames) /\
  (clock_monotone host -> Sorted Z.le times).
Proof.
  intros _ Hok st1 st2 times rows.
  destruct (start_ok_armed cfg size st Hok) as ([w Hw] & Hf & Ht & Hc & Hin).
  fold st1 in Hw, Hf, Ht, Hc, Hin.
  destruct (write_all_armed host frames st1 w (log_path cfg) ["frame_idx,unix_time"] Hw Hf Hc)
    as (W1 & W2 & W3 & W4).
  assert (Hrows : Forall (fun l => newline_free l = true) ("frame_idx,unix_time" :: rows)).
  { constructor; [reflexivity|]. apply newline_free_rows. }
  split.
  { subst st1. revert Hok. rewrite start_spec.
    destruct (mkdir_parents (out_dir cfg) (fs (world st))) as [f|]; [|done].
    cbv zeta. destruct (find (opens host cfg size) fourcc_candidates) as [c|]; [|done].
    destruct (fs_open ModeW (log_path cfg) f) as [f'|]; [|done].
    intros _. cbn [snd world trace]. eexists. by rewrite <- app_assoc. }
  split; [exact W1|]. split; [by rewrite stop_spec|]. split.
  { subst st2. rewrite stop_spec. by split. }
  split.
  { subst st2. rewrite stop_spec. cbn [snd world fs]. unfold read_lines.
    rewrite W4. cbn [fmap option_fmap option_map app].
    f_equal. by apply splitlines_unlines. }
  split.
  { subst rows times. cbn [length]. f_equal.
    rewrite length_zip_with, !length_map, length_seq. lia. }
  intros Hmono. by apply clock_sorted.
Qed.

End LogClaims.

(** The run of the specification: fps 30, size 640 by 480, indices 0, 1, 2,
    on a directory that holds an older log. *)
Lemma timestamp_log_lines_witness :
  read_lines (fs (world (snd (stop (snd (write_all host_mp4v [(blank, 0); (blank, 1); (blank, 2)]
       (snd (start host_mp4v cfg_rec (640, 480) (fresh fs_stale_log))))))))) (log_path cfg_rec)
  = Some ["frame_idx,unix_time"; "0,1700000000.033333"; "1,1700000000.066666";
          "2,1700000000.099999"].
Proof.
  refine (proj1 (proj2 (proj2 (proj2 (proj2
     (timestamp_log_lines host_mp4v cfg_rec (640, 480) (fresh fs_stale_log)
        [(blank, 0); (blank, 1); (blank, 2)] _ _)))))).
  - split; reflexivity.
  - vm_compute. reflexivity.
Defined.

(** C2 as stated fails twice. On a directory that holds the log of an
    earlier session, the log of a new session does not begin with the
    rows of that log: the file is not opened for appending. And on a
    host whose clock is set back between two calls of [write], the
    times of the rows decrease. *)
Lemma log_truncated_and_times_follow_clock :
  ~ keeps_previous_log host_mp4v cfg_rec (640, 480) (fresh fs_stale_log) /\
  read_lines
    (fs (world (snd (stop (snd (write_all host_clock_back [(blank, 0); (blank, 1)]
       (snd (start host_clock_back cfg_rec (640, 480) (fresh fs_rec_dir)))))))))
    (log_path cfg_rec)
  = Some ["frame_idx,unix_time"; "0,1700000000.966667"; "1,1700000000.933334"] /\
  ~ Sorted Z.le (map (clock host_clock_back) (seq 1 2)).
Proof.
  split; [|split].
  - intros H.
    destruct (H ("frame_idx,unix_time" +:+ nl +:+ "7,1.000000" +:+ nl)) as [rest Hrest].
    + vm_compute. reflexivity.
    + vm_compute. reflexivity.
    + vm_compute in Hrest. discriminate Hrest.
  - vm_compute. reflexivity.
  - intros H. apply Sorted_inv in H as [_ H]. apply HdRel_inv in H.
    vm_compute in H. by apply H.
Qed.

Section PairingFacts.

Context (host : Host).

Lemma write_keeps_self fr i st : self (snd (write host fr i st)) = self st.
Proof.
  rewrite write_spec. by destruct (_writer (self st)), (_ts_file (self st)).
Qed.

Lemma call_keeps_log_needs_writer c st :
  log_needs_writer (self st) -> log_needs_writer (self (snd (do_call host c st))).
Proof.
  unfold log_needs_writer. intros Hinv. destruct c as [cfg size|fr i|]; cbn [do_call].
  - rewrite start_spec.
    destruct (mkdir_parents (out_dir cfg) (fs (world st))) as [f|]; [|exact Hinv].
    cbv zeta. destruct (find (opens host cfg size) fourcc_candidates) as [c|].
    + destruct (fs_open ModeW (log_path cfg) f); cbn [snd self]; done.
    + cbn [snd]. rewrite after_attempts_self. exact Hinv.
  - by rewrite write_keeps_self.
  - rewrite stop_spec. cbn [snd self]. done.
Qed.

Lemma run_keeps_log_needs_writer cs st :
  log_needs_writer (self st) -> log_needs_writer (self (run host cs st)).
Proof.
  revert st. induction cs as [|c cs IH]; intros st H; [exact H|].
  cbn [run fold_left]. apply IH. by apply call_keeps_log_needs_writer.
Qed.

Lemma returning_call_keeps_paired c st :
  paired (self st) -> fst (do_call host c st) = Ok tt ->
  paired (self (snd (do_call host c st))).
Proof.
  unfold paired. intros Hinv. destruct c as [cfg size|fr i|]; cbn [do_call].
  - rewrite start_spec.
    destruct (mkdir_parents (out_dir cfg) (fs (world st))) as [f|]; [|done].
    cbv zeta. destruct (find (opens host cfg size) fourcc_candidates) as [c|]; [|done].
    destruct (fs_open ModeW (log_path cfg) f); [|done].
    intros _. cbn [snd self]. done.
  - intros _. by rewrite write_keeps_self.
  - rewrite stop_spec. intros _. cbn [snd self]. done.
Qed.

End PairingFacts.

(** C9 fails on the code: where a codec opens and the name of the log
    is taken by a directory, [start] raises at the opening of the log,
    after it has stored the writer. The recorder then holds the writer
    without the log. *)
Theorem log_open_failure_unpairs_handles :
  let st := run host_mp4v [CallStart cfg_rec (640, 480)] (fresh fs_log_is_dir) in
  fst (start host_mp4v cfg_rec (640, 480) (fresh fs_log_is_dir))
    = Raise (OSError (log_path cfg_rec)) /\
  _writer (self st) = Some (writer_of host_mp4v cfg_rec (640, 480) "mp4v") /\
  _ts_file (self st) = None /\
  is_recording (self st) = true /\
  ~ paired (self st).
Proof.
  cbv zeta. split; [vm_compute; reflexivity|]. split; [vm_compute; reflexivity|].
  split; [vm_compute; reflexivity|]. split; [vm_compute; reflexivity|].
  unfold paired. intros [_ H].
  assert (Hw : _writer (self (run host_mp4v [CallStart cfg_rec (640, 480)] (fresh fs_log_is_dir)))
               = None) by (apply H; vm_compute; reflexivity).
  vm_compute in Hw. discriminate Hw.
Qed.

Lemma start_codec_fallback_witness :
  _writer (self (snd (start host_mp4v cfg_rec (640, 480) (fresh ∅))))
  = Some (writer_of host_mp4v cfg_rec (640, 480) "mp4v") /\
  constructed (trace (world (snd (start host_mp4v cfg_rec (640, 480) (fresh ∅)))))
  = constructed (trace (world (fresh ∅)))
    ++ map (writer_of host_mp4v cfg_rec (640, 480)) (["avc1"; "H264"] ++ ["mp4v"]).
Proof.
  refine (proj1 (start_codec_fallback host_mp4v cfg_rec (640, 480) (fresh ∅) _)
                ["avc1"; "H264"] "mp4v" [] _ _ _).
  - vm_compute. eexists. reflexivity.
  - reflexivity.
  - repeat constructor.
  - vm_compute. reflexivity.
Defined.

Lemma start_no_codec_not_atomic_witness :
  is_dir (fs (world (snd (start host_no_codec cfg_rec (640, 480) (fresh ∅)))))
         ["home"; "pi"; "rec"] = true /\
  _frame_size (self (snd (start host_no_codec cfg_rec (640, 480) (fresh ∅))))
  = Some (640, 480) /\
  is_recording (self (snd (start host_no_codec cfg_rec (640, 480) (fresh ∅)))) = false.
Proof.
  assert (H : fst (start host_no_codec cfg_rec (640, 480) (fresh ∅)) = Raise no_codec)
    by (vm_compute; reflexivity).
  pose proof (start_no_codec_not_atomic host_no_codec cfg_rec (640, 480) (fresh ∅) H)
    as (Hdir & _ & _ & Hsize & _ & _ & _ & Hrec).
  split; [exact (Hdir 3%nat (le_n 3))|]. split; [exact Hsize|exact Hrec].
Defined.

Lemma write_idle_noop_witness :
  write host_mp4v blank 0 (fresh ∅) = (Ok tt, fresh ∅).
Proof. apply write_idle_noop. reflexivity. Defined.

End RecorderProofs.

(** * FrameProvider: proofs *)

Module ProviderProofs.
Import Provider.

Section ArrayFacts.

Context {A : Type}.
Implicit Types (a b : ndarray A) (r : list A).

Lemma well_shaped_rows a y r :
  well_shaped a -> data a !! y = Some r -> length r = shape1 a.
Proof. intros [_ H] Hy. rewrite Forall_lookup in H. by apply (H y). Qed.

Lemma at_in_range a y x :
  well_shaped a -> (y < shape0 a)%nat -> (x < shape1 a)%nat -> is_Some (at_ a y x).
Proof.
  intros Hw Hy Hx. unfold at_.
  destruct (data a !! y) as [r|] eqn:Hr.
  - apply lookup_lt_is_Some. by rewrite (well_shaped_rows a y r).
  - apply lookup_ge_None in Hr. destruct Hw as [Hl _]. lia.
Qed.

Lemma roll_row_length shift r : length (roll_row shift r) = length r.
Proof.
  unfold roll_row. destruct (_ =? 0)%nat; [done|].
  rewrite length_app, length_drop, length_take. lia.
Qed.

Lemma roll_row_lookup shift r x :
  (x < length r)%nat ->
  roll_row shift r !! x = r !! Z.to_nat ((Z.of_nat x - shift) mod Z.of_nat (length r)).
Proof.
  intros Hx. unfold roll_row.
  destruct (Nat.eqb_spec (length r) 0) as [Hz|Hz]; [lia|].
  set (n := Z.of_nat (length r)).
  assert (Hn : 0 < n) by lia.
  pose proof (Z.mod_pos_bound shift n Hn) as Ho.
  rewrite <- (Zminus_mod_idemp_r (Z.of_nat x) shift n).
  set (o := shift mod n) in *.
  destruct (Nat.eqb_spec (Z.to_nat o) 0) as [Ho0|Ho0].
  - f_equal. rewrite Z.mod_small by lia. lia.
  - destruct (decide (x < Z.to_nat o)%nat) as [Hlt|Hge].
    + rewrite lookup_app_l by (rewrite length_drop; lia).
      rewrite lookup_drop. f_equal.
      assert (Hm : (Z.of_nat x - o) mod n = Z.of_nat x - o + n).
      { symmetry. apply (Z.mod_unique _ _ (-1)); lia. }
      rewrite Hm. lia.
    + rewrite lookup_app_r by (rewrite length_drop; lia).
      rewrite length_drop, lookup_take_lt by lia. f_equal.
      rewrite Z.mod_small by lia. lia.
Qed.

Lemma np_roll_well_shaped shift a : well_shaped a -> well_shaped (np_roll shift a).
Proof.
  intros [Hl Hr]. split; cbn [np_roll data shape0 shape1].
  - by rewrite length_fmap.
  - apply Forall_fmap. eapply Forall_impl; [exact Hr|].
    intros r Hlen. cbn. by rewrite roll_row_length.
Qed.

Lemma np_roll_at shift a y x :
  well_shaped a -> (y < shape0 a)%nat -> (x < shape1 a)%nat ->
  at_ (np_roll shift a) y x
  = at_ a y (Z.to_nat ((Z.of_nat x - shift) mod Z.of_nat (shape1 a))).
Proof.
  intros Hw Hy Hx. unfold at_. cbn [np_roll data].
  rewrite list_lookup_fmap.
  destruct (data a !! y) as [r|] eqn:Hr; [|done]. cbn.
  pose proof (well_shaped_rows a y r Hw Hr) as Hlen.
  rewrite roll_row_lookup by lia. by rewrite Hlen.
Qed.

Lemma map_px_well_shaped {B} (f : A -> B) a : well_shaped a -> well_shaped (map_px f a).
Proof.
  intros [Hl Hr]. split; cbn [map_px data shape0 shape1].
  - by rewrite length_fmap.
  - apply Forall_fmap. eapply Forall_impl; [exact Hr|].
    intros r Hlen. cbn. by rewrite length_fmap.
Qed.

End ArrayFacts.

Section PanelFacts.

Context (cv2 : Cv2).

Lemma paint_well_shaped p (a : image) : well_shaped a -> well_shaped (paint p a).
Proof.
  intros [Hl Hr]. split; cbn [paint data shape0 shape1].
  - by rewrite length_imap.
  - apply Forall_lookup. intros y r. rewrite list_lookup_imap.
    destruct (data a !! y) as [r0|] eqn:Hy; [|done]. cbn. intros [= <-].
    rewrite length_imap. rewrite Forall_lookup in Hr. by apply (Hr y).
Qed.

Lemma np_zeros_ok h w :
  0 <= h -> 0 <= w ->
  exists z, np_zeros h w = Ok z /\ well_shaped z /\
            shape0 z = Z.to_nat h /\ shape1 z = Z.to_nat w.
Proof.
  intros Hh Hw. unfold np_zeros.
  destruct (Z.ltb_spec h 0); [lia|]. destruct (Z.ltb_spec w 0); [lia|]. cbn [orb].
  eexists. split; [reflexivity|]. split; [|done]. split; cbn [data shape0 shape1].
  - by rewrite length_replicate.
  - apply Forall_replicate. by rewrite length_replicate.
Qed.

Lemma np_zeros_inv h w z :
  np_zeros h w = Ok z -> 0 <= h /\ 0 <= w.
Proof.
  unfold np_zeros.
  destruct (Z.ltb_spec h 0); [done|]. destruct (Z.ltb_spec w 0); [done|]. lia.
Qed.

Lemma is_empty_false {A} (a : ndarray A) :
  is_empty a = false <-> (0 < shape0 a)%nat /\ (0 < shape1 a)%nat.
Proof.
  unfold is_empty.
  destruct (Nat.eqb_spec (shape0 a) 0), (Nat.eqb_spec (shape1 a) 0); cbn; split;
    intros H; try done; lia.
Qed.

Lemma draw_inv p (a b : image) :
  draw p a = Ok b -> b = paint p a /\ is_empty a = false.
Proof. unfold draw. destruct (is_empty a); [done|]. by intros [= <-]. Qed.

Lemma draw_ok p (a : image) :
  (0 < shape0 a)%nat -> (0 < shape1 a)%nat -> draw p a = Ok (paint p a).
Proof.
  intros H0 H1. unfold draw.
  by rewrite (proj2 (is_empty_false a) (conj H0 H1)).
Qed.

(** The base panel, where it is made: the caption over the circle over
    zeros. *)
Lemma base_panel_form self t base :
  base_panel cv2 self t = Ok base ->
  exists z,
    np_zeros (height (s self)) (width (s self)) = Ok z /\
    is_empty z = false /\
    base = paint (putText cv2 caption (20, 40) white 2)
             (paint (circle cv2 (centre cv2 (width (s self)) (height (s self)) t)
                            35 yellow (-1)) z).
Proof.
  unfold base_panel. intros H.
  destruct (np_zeros (height (s self)) (width (s self))) as [z|e]; [|done].
  cbn [bind] in H.
  destruct (draw _ z) as [b1|] eqn:Hd1; [|done]. cbn [bind] in H.
  destruct (draw _ b1) as [b2|] eqn:Hd2; [|done]. cbn [bind] in H.
  injection H as <-.
  apply draw_inv in Hd1 as [-> He1]. apply draw_inv in Hd2 as [-> _].
  by exists z.
Qed.

Lemma base_panel_inv self t base :
  base_panel cv2 self t = Ok base ->
  well_shaped base /\
  shape0 base = Z.to_nat (height (s self)) /\ shape1 base = Z.to_nat (width (s self)) /\
  0 < height (s self) /\ 0 < width (s self).
Proof.
  intros H. destruct (base_panel_form self t base H) as (z & Hz & He & ->).
  destruct (np_zeros_inv _ _ _ Hz) as [Hh Hw].
  destruct (np_zeros_ok _ _ Hh Hw) as (z' & Hz' & Hws & H0 & H1).
  rewrite Hz in Hz'. injection Hz' as <-.
  apply is_empty_false in He as [He0 He1].
  split; [by do 2 apply paint_well_shaped|].
  cbn [paint shape0 shape1]. split; [done|]. split; [done|]. lia.
Qed.

Lemma base_panel_ok self t :
  0 < height (s self) -> 0 < width (s self) ->
  exists base, base_panel cv2 self t = Ok base.
Proof.
  intros Hh Hw. unfold base_panel.
  destruct (np_zeros_ok (height (s self)) (width (s self))) as (z & -> & _ & H0 & H1);
    [lia..|].
  cbn [bind]. rewrite draw_ok by lia. cbn [bind].
  rewrite draw_ok by (cbn [paint shape0 shape1]; lia). cbn [bind]. by eexists.
Qed.

Lemma hcat_well_shaped a b :
  well_shaped a -> well_shaped b -> shape0 a = shape0 b -> well_shaped (hcat a b).
Proof.
  intros [Hla Hra] [Hlb Hrb] Heq. split; cbn [hcat data shape0 shape1].
  - rewrite length_zip_with. lia.
  - apply Forall_lookup. intros y r. rewrite lookup_zip_with_Some.
    intros (ra & rb & -> & Ha & Hb). rewrite length_app.
    rewrite Forall_lookup in Hra. rewrite Forall_lookup in Hrb.
    by rewrite (Hra y ra Ha), (Hrb y rb Hb).
Qed.

Lemma difference_panel_ok base :
  well_shaped base -> (0 < shape0 base)%nat -> (0 < shape1 base)%nat ->
  exists disp, difference_panel cv2 base = Ok disp /\ well_shaped disp /\
               shape0 disp = shape0 base /\ shape1 disp = shape1 base.
Proof.
  intros Hw H0 H1. unfold difference_panel, absdiff, right_panel, same_shape.
  cbn [np_roll shape0 shape1]. rewrite !Nat.eqb_refl. cbn [andb bind].
  unfold cvtColor_BGR2GRAY, is_empty. cbn [shape0 shape1].
  destruct (Nat.eqb_spec (shape0 base) 0); [lia|].
  destruct (Nat.eqb_spec (shape1 base) 0); [lia|]. cbn [orb bind].
  unfold applyColorMap_TURBO, is_empty. cbn [map_px shape0 shape1].
  destruct (Nat.eqb_spec (shape0 base) 0); [lia|].
  destruct (Nat.eqb_spec (shape1 base) 0); [lia|]. cbn [orb].
  eexists. split; [reflexivity|]. split; [|done].
  do 2 apply map_px_well_shaped.
  pose proof (np_roll_well_shaped 18 base Hw) as [Hlr Hrr].
  change (shape0 (np_roll 18 base)) with (shape0 base) in Hlr.
  change (shape1 (np_roll 18 base)) with (shape1 base) in Hrr.
  destruct Hw as [Hl Hr].
  split; cbn [data shape0 shape1] in *.
  - rewrite length_zip_with. lia.
  - apply Forall_lookup. intros y r. rewrite lookup_zip_with_Some.
    intros (ra & rb & -> & Ha & Hb). rewrite length_zip_with.
    rewrite Forall_lookup in Hr. rewrite Forall_lookup in Hrr.
    rewrite (Hr y ra Ha), (Hrr y rb Hb). lia.
Qed.

End PanelFacts.

Section ComposeFacts.

Context (cv2 : Cv2).

Lemma hstack_ok (h : nat) (parts : list image) :
  parts <> [] ->
  Forall (fun a => well_shaped a /\ shape0 a = h) parts ->
  exists frame, hstack parts = Ok frame /\ well_shaped frame /\
                shape0 frame = h /\ shape1 frame = sum_list (shape1 <$> parts).
Proof.
  intros Hne Hall. induction Hall as [|a rest [Hwa Hha] Hrest IH]; [done|].
  destruct rest as [|b rest'].
  - exists a. split; [reflexivity|]. split; [exact Hwa|]. split; [exact Hha|]. cbn. lia.
  - destruct IH as (fr & Hfr & Hwf & Hh & Hsum); [done|].
    exists (hcat a fr). change (hstack (a :: b :: rest')) with
      (match hstack (b :: rest') with
       | Ok b0 => if (shape0 a =? shape0 b0)%nat then Ok (hcat a b0) else Raise ValueError
       | Raise e => Raise e
       end).
    rewrite Hfr, Hha, Hh, Nat.eqb_refl.
    split; [done|]. split; [apply hcat_well_shaped; congruence|].
    split; [done|]. cbn [hcat shape1]. rewrite Hsum. reflexivity.
Qed.

Lemma difference_panel_bind {B} base disp (k : image -> result B) :
  difference_panel cv2 base = Ok disp ->
  (d <- absdiff base (right_panel base) ;;
   g <- cvtColor_BGR2GRAY cv2 d ;;
   c <- applyColorMap_TURBO cv2 g ;;
   k c) = k disp.
Proof.
  unfold difference_panel.
  destruct (absdiff base (right_panel base)) as [d|]; cbn [bind]; [|done].
  destruct (cvtColor_BGR2GRAY cv2 d) as [g|]; cbn [bind]; [|done].
  by intros ->.
Qed.

Lemma compose_spec self t :
  0 < width (s self) -> 0 < height (s self) ->
  exists base disp composed,
    base_panel cv2 self t = Ok base /\
    difference_panel cv2 base = Ok disp /\
    hstack (shown (s self) base disp) = Ok composed /\
    compose cv2 self t = Ok composed /\
    well_shaped composed /\
    shape0 composed = shape0 base /\
    shape1 composed = (panels (s self) * shape1 base)%nat /\
    shape0 base = Z.to_nat (height (s self)) /\
    shape1 base = Z.to_nat (width (s self)).
Proof.
  intros Hw Hh.
  destruct (base_panel_ok cv2 self t) as [base Hbase]; [lia..|].
  destruct (base_panel_inv cv2 self t base Hbase) as (Hwb & H0 & H1 & _ & _).
  destruct (difference_panel_ok cv2 base Hwb) as (disp & Hdisp & Hwd & Hd0 & Hd1); [lia..|].
  assert (Hwr : well_shaped (right_panel base)) by by apply np_roll_well_shaped.
  destruct (hstack_ok (shape0 base) (shown (s self) base disp)) as (fr & Hfr & Hwf & Hf0 & Hf1).
  { done. }
  { unfold shown. destruct (show_right (s self)), (show_disparity (s self));
      repeat first [apply Forall_nil_2 | apply Forall_cons_2; [by split|]]. }
  exists base, disp, fr.
  split; [done|]. split; [done|]. split; [done|]. split.
  { unfold compose. rewrite Hbase. cbn [bind]. rewrite <- Hfr. unfold shown.
    destruct (show_right (s self)), (show_disparity (s self)); cbn [app];
      try reflexivity;
      cbn [bind]; by rewrite (difference_panel_bind base disp _ Hdisp). }
  split; [done|]. split; [done|]. split; [|done].
  rewrite Hf1. unfold shown, panels.
  destruct (show_right (s self)), (show_disparity (s self)); cbn; rewrite ?Hd1;
    change (shape1 (right_panel base)) with (shape1 base); lia.
Qed.

Lemma make_overlay_inv (composed frame : image) :
  _make_overlay cv2 composed = Ok frame ->
  frame = paint (putText cv2 (overlay_text composed)
                         (20, Z.of_nat (shape0 composed) - 20) white 2) composed /\
  (0 < shape0 composed)%nat /\ (0 < shape1 composed)%nat.
Proof.
  unfold _make_overlay. intros H. apply draw_inv in H as [-> He].
  split; [done|]. by apply is_empty_false.
Qed.

Lemma make_overlay_ok (composed : image) :
  (0 < shape0 composed)%nat -> (0 < shape1 composed)%nat ->
  exists frame, _make_overlay cv2 composed = Ok frame /\
    shape0 frame = shape0 composed /\ shape1 frame = shape1 composed /\
    (well_shaped composed -> well_shaped frame).
Proof.
  intros H0 H1. unfold _make_overlay. rewrite draw_ok by done.
  eexists. split; [reflexivity|]. split; [done|]. split; [done|].
  apply paint_well_shaped.
Qed.

End ComposeFacts.

Section ProviderClaims.

Context (cv2 : Cv2).

Lemma compose_inv self t composed :
  compose cv2 self t = Ok composed ->
  exists base, base_panel cv2 self t = Ok base /\
    shape0 composed = shape0 base /\
    shape1 composed = (panels (s self) * shape1 base)%nat.
Proof.
  unfold compose. destruct (base_panel cv2 self t) as [base|]; [|done].
  cbn [bind]. intros H. exists base. split; [done|]. revert H. unfold panels.
  destruct (show_right (s self)), (show_disparity (s self)); cbn [app bind].
  all: try (unfold absdiff, right_panel, same_shape; cbn [np_roll shape0 shape1];
            rewrite !Nat.eqb_refl; cbn [andb bind];
            unfold cvtColor_BGR2GRAY; destruct (is_empty _); [done|]; cbn [bind];
            unfold applyColorMap_TURBO; destruct (is_empty _); [done|]; cbn [bind]).
  all: cbn [hstack hcat map_px np_roll right_panel shape0 shape1]; rewrite ?Nat.eqb_refl;
       intros [= <-]; unfold right_panel; cbn [hcat map_px np_roll shape0 shape1];
       split; [done|lia].
Qed.

Lemma synthetic_inv self e frame :
  synthetic cv2 self e = Ok frame ->
  exists base, base_panel cv2 self (now e - _t0 self) = Ok base /\
    shape0 frame = shape0 base /\
    shape1 frame = (panels (s self) * shape1 base)%nat.
Proof.
  unfold synthetic.
  destruct (compose cv2 self (now e - _t0 self)) as [composed|] eqn:Hc; [|done].
  cbn [bind]. intros H. apply make_overlay_inv in H as (-> & _ & _).
  destruct (compose_inv self _ composed Hc) as (base & Hb & H0 & H1).
  exists base. by repeat split.
Qed.

(** The synthetic frame, for positive dimensions. *)
Lemma synthetic_spec self e :
  0 < width (s self) -> 0 < height (s self) ->
  exists base disp composed frame,
    base_panel cv2 self (now e - _t0 self) = Ok base /\
    difference_panel cv2 base = Ok disp /\
    hstack (shown (s self) base disp) = Ok composed /\
    compose cv2 self (now e - _t0 self) = Ok composed /\
    _make_overlay cv2 composed = Ok frame /\
    synthetic cv2 self e = Ok frame /\
    well_shaped frame /\
    shape0 base = Z.to_nat (height (s self)) /\
    shape1 base = Z.to_nat (width (s self)) /\
    shape0 frame = shape0 base /\
    shape1 frame = (panels (s self) * shape1 base)%nat.
Proof.
  intros Hw Hh.
  destruct (compose_spec cv2 self (now e - _t0 self) Hw Hh)
    as (base & disp & composed & Hb & Hd & Hs & Hc & Hwc & H0 & H1 & Hb0 & Hb1).
  destruct (make_overlay_ok cv2 composed) as (frame & Hf & Hf0 & Hf1 & Hwf).
  { lia. }
  { rewrite H1. unfold panels. nia. }
  exists base, disp, composed, frame.
  split; [done|]. split; [done|]. split; [done|]. split; [done|]. split; [done|].
  split; [unfold synthetic; by rewrite Hc|].
  split; [by apply Hwf|]. split; [done|]. split; [done|]. split; congruence.
Qed.

Lemma get_frame_fallback self e :
  delivers self e = false -> get_frame cv2 self e = synthetic cv2 self e.
Proof.
  unfold delivers, get_frame.
  destruct (_cap self) as [c|]; [|done].
  by destruct (cap_read e) as [[|] [fr|]].
Qed.

(** C3. For positive dimensions the synthetic frame is the overlay on
    the panels put side by side: its height is the height of the base
    panel, and its width is one, two or three times the width of the
    base panel, as the two flags say. With the difference panel alone,
    the frame is made of the base panel and the difference panel. *)
Theorem composed_frame_shape self e :
  0 < width (s self) -> 0 < height (s self) ->
  exists base disp composed frame,
    base_panel cv2 self (now e - _t0 self) = Ok base /\
    difference_panel cv2 base = Ok disp /\
    hstack (shown (s self) base disp) = Ok composed /\
    (show_right (s self) = false -> show_disparity (s self) = true ->
       hstack [base; disp] = Ok composed) /\
    synthetic cv2 self e = Ok frame /\
    _make_overlay cv2 composed = Ok frame /\
    well_shaped frame /\
    shape0 base = Z.to_nat (height (s self)) /\
    shape1 base = Z.to_nat (width (s self)) /\
    shape0 frame = shape0 base /\
    shape1 frame =
      match show_right (s self), show_disparity (s self) with
      | false, false => shape1 base
      | true, false => (2 * shape1 base)%nat
      | true, true => (3 * shape1 base)%nat
      | false, true => (2 * shape1 base)%nat
      end.
Proof.
  intros Hw Hh.
  destruct (synthetic_spec self e Hw Hh)
    as (base & disp & composed & frame & Hb & Hd & Hs & Hc & Hf & Hsyn & Hwf
        & Hb0 & Hb1 & H0 & H1).
  exists base, disp, composed, frame.
  split; [done|]. split; [done|]. split; [done|]. split.
  { intros Hr Hdp. unfold shown in Hs. by rewrite Hr, Hdp in Hs. }
  split; [done|]. split; [done|]. split; [done|]. split; [done|]. split; [done|].
  split; [exact H0|]. rewrite H1. unfold panels.
  destruct (show_right (s self)), (show_disparity (s self)); lia.
Qed.

(** C4. At every row [y] and column [x] of the base panel, the
    secondary panel holds the pixel of the base panel at column
    [(x - 18) mod w] of the same row. *)
Theorem secondary_is_shifted_base self t base (y x : nat) :
  base_panel cv2 self t = Ok base ->
  Z.of_nat y < height (s self) -> Z.of_nat x < width (s self) ->
  exists p,
    at_ (right_panel base) y x = Some p /\
    at_ base y (Z.to_nat ((Z.of_nat x - 18) mod width (s self))) = Some p.
Proof.
  intros Hb Hy Hx.
  destruct (base_panel_inv cv2 self t base Hb) as (Hwb & H0 & H1 & Hh & Hw).
  assert (Hy' : (y < shape0 base)%nat) by lia.
  assert (Hx' : (x < shape1 base)%nat) by lia.
  destruct (at_in_range (right_panel base) y x) as [p Hp]; try done.
  { by apply np_roll_well_shaped. }
  exists p. split; [done|]. rewrite <- Hp. unfold right_panel.
  rewrite np_roll_at by done. rewrite H1, Z2Nat.id by lia. reflexivity.
Qed.

(** C7, as amended. For positive dimensions [get_frame] returns a
    frame at every tick, whatever the capture device does, a frame of
    the device being one with a pixel at least. When the device hands
    over no frame the result is the synthetic frame, of the configured
    height and of the width of its panels. When it hands over a frame,
    the result has the size of that frame, not the configured one. So
    it is a provider without a capture device (as [init] makes it by
    default) that, set to 100 by 50 and no extra panel, returns a frame
    of 50 rows and 100 columns at every tick of every run. *)
Theorem get_frame_never_fails self :
  0 < width (s self) -> 0 < height (s self) ->
  (forall e,
     (forall fr, delivers self e = true -> snd (cap_read e) = Some fr ->
                 is_empty fr = false) ->
     exists frame, get_frame cv2 self e = Ok frame) /\
  (forall e, delivers self e = false ->
     exists frame, get_frame cv2 self e = Ok frame /\
       synthetic cv2 self e = Ok frame /\ well_shaped frame /\
       shape0 frame = Z.to_nat (height (s self)) /\
       shape1 frame = (panels (s self) * Z.to_nat (width (s self)))%nat) /\
  (forall e fr, delivers self e = true -> snd (cap_read e) = Some fr ->
     is_empty fr = false ->
     exists frame, get_frame cv2 self e = Ok frame /\
       shape0 frame = shape0 fr /\ shape1 frame = shape1 fr) /\
  (_cap self = None ->
   width (s self) = 100 -> height (s self) = 50 ->
   show_right (s self) = false -> show_disparity (s self) = false ->
   forall ticks,
     Forall (fun r => exists frame, r = Ok frame /\ well_shaped frame /\
                        shape0 frame = 50%nat /\ shape1 frame = 100%nat)
            (frames_of cv2 self ticks)).
Proof.
  intros Hw Hh.
  assert (Hsyn : forall e, delivers self e = false ->
     exists frame, get_frame cv2 self e = Ok frame /\
       synthetic cv2 self e = Ok frame /\ well_shaped frame /\
       shape0 frame = Z.to_nat (height (s self)) /\
       shape1 frame = (panels (s self) * Z.to_nat (width (s self)))%nat).
  { intros e He. rewrite (get_frame_fallback self e He).
    destruct (synthetic_spec self e Hw Hh)
      as (base & disp & composed & frame & Hb & Hd & Hs & Hc & Hf & Hsy & Hwf
          & Hb0 & Hb1 & H0 & H1).
    exists frame. split; [done|]. split; [done|]. split; [done|]. split; congruence. }
  assert (Hlive : forall e fr, delivers self e = true -> snd (cap_read e) = Some fr ->
     is_empty fr = false ->
     exists frame, get_frame cv2 self e = Ok frame /\
       shape0 frame = shape0 fr /\ shape1 frame = shape1 fr).
  { intros e fr He Hfr Hne. unfold delivers in He. unfold get_frame.
    destruct (_cap self) as [c|]; [|done].
    destruct (cap_read e) as [[|] [fr'|]]; try done.
    cbn [snd] in Hfr. injection Hfr as ->.
    apply is_empty_false in Hne as [H0 H1].
    destruct (make_overlay_ok cv2 fr H0 H1) as (frame & Hf & Hf0 & Hf1 & _).
    by exists frame. }
  split; [|split; [exact Hsyn|split; [exact Hlive|]]].
  - intros e Hdev. destruct (delivers self e) eqn:He.
    + assert (Hfr : exists fr, snd (cap_read e) = Some fr).
      { unfold delivers in He. destruct (_cap self); [|done].
        destruct (cap_read e) as [[|] [fr|]]; try done. by exists fr. }
      destruct Hfr as [fr Hfr].
      destruct (Hlive e fr He Hfr (Hdev fr eq_refl Hfr)) as (frame & Hf & _).
      by exists frame.
    + destruct (Hsyn e He) as (frame & Hf & _). by exists frame.
  - intros Hcap Hw100 Hh50 Hr Hd ticks. unfold frames_of.
    apply Forall_fmap, Forall_forall. intros e _. cbn.
    destruct (Hsyn e) as (frame & Hf & _ & Hwf & H0 & H1).
    { unfold delivers. by rewrite Hcap. }
    exists frame. split; [done|]. split; [done|].
    rewrite H0, H1. unfold panels. rewrite Hr, Hd, Hw100, Hh50. split; reflexivity.
Qed.

End ProviderClaims.

Section OverlayClaims.

Context (cv2 : Cv2).

Lemma overlay_text_differs (a b : image) :
  shape0 a = shape0 b -> shape1 a <> shape1 b ->
  overlay_text a <> overlay_text b.
Proof.
  unfold overlay_text. intros H0 H1 H. rewrite H0 in H.
  apply string_app_inv_tail, fmt_int_inj in H. lia.
Qed.

Lemma at_paint p (a : image) y x : at_ (paint p a) y x = p y x <$> at_ a y x.
Proof.
  unfold at_, paint. cbn [data]. rewrite list_lookup_imap.
  destruct (data a !! y) as [r|]; [|done]. cbn. by rewrite list_lookup_imap.
Qed.

(** C8. Every pixel of a frame that [get_frame] returns is what
    [putText] makes of the pixel at that place of the frame before the
    overlay, for the text [{width}x{height}] of that frame, drawn at
    [(20, height - 20)] in white; the frame before the overlay is the
    frame of the device on the live path, and the panels put side by
    side on the synthetic path, where the text is that of the
    configured height and of the width of all the panels: with more
    than one panel it is not the text of the base panel. *)
Theorem overlay_shows_composed_size self e frame :
  get_frame cv2 self e = Ok frame ->
  exists composed,
    (forall y x,
       at_ frame y x
       = putText cv2 (fmt_int (Z.of_nat (shape1 composed)) +:+ "x" +:+
                      fmt_int (Z.of_nat (shape0 composed)))
                 (20, Z.of_nat (shape0 composed) - 20) white 2 y x
           <$> at_ composed y x) /\
    shape0 frame = shape0 composed /\
    shape1 frame = shape1 composed /\
    (0 < shape0 composed)%nat /\ (0 < shape1 composed)%nat /\
    ((delivers self e = true /\ snd (cap_read e) = Some composed) \/
     (delivers self e = false /\
      compose cv2 self (now e - _t0 self) = Ok composed /\
      exists base,
        base_panel cv2 self (now e - _t0 self) = Ok base /\
        shape0 composed = shape0 base /\
        shape1 composed = (panels (s self) * shape1 base)%nat /\
        Z.of_nat (shape0 composed) = height (s self) /\
        Z.of_nat (shape1 composed) = Z.of_nat (panels (s self)) * width (s self) /\
        ((1 < panels (s self))%nat ->
         overlay_text composed <> overlay_text base))).
Proof.
  intros H.
  assert (Hov : forall composed, _make_overlay cv2 composed = Ok frame ->
    (forall y x,
       at_ frame y x
       = putText cv2 (fmt_int (Z.of_nat (shape1 composed)) +:+ "x" +:+
                      fmt_int (Z.of_nat (shape0 composed)))
                 (20, Z.of_nat (shape0 composed) - 20) white 2 y x
           <$> at_ composed y x) /\
    shape0 frame = shape0 composed /\
    shape1 frame = shape1 composed /\
    (0 < shape0 composed)%nat /\ (0 < shape1 composed)%nat).
  { intros composed Hm. apply make_overlay_inv in Hm as (-> & H0 & H1).
    split; [|done]. intros y x. by rewrite at_paint. }
  destruct (delivers self e) eqn:Hd.
  - unfold delivers in Hd. unfold get_frame in H.
    destruct (_cap self) as [c|]; [|done].
    destruct (cap_read e) as [[|] [fr|]]; try done.
    exists fr. destruct (Hov fr H) as (P1 & P2 & P3 & P4 & P5).
    split; [done|]. split; [done|]. split; [done|]. split; [done|]. split; [done|].
    by left.
  - rewrite (get_frame_fallback cv2 self e Hd) in H. unfold synthetic in H.
    destruct (compose cv2 self (now e - _t0 self)) as [composed|] eqn:Hc; [|done].
    cbn [bind] in H. exists composed.
    destruct (Hov composed H) as (P1 & P2 & P3 & P4 & P5).
    split; [done|]. split; [done|]. split; [done|]. split; [done|]. split; [done|].
    right. split; [done|]. split; [done|].
    destruct (compose_inv cv2 self _ composed Hc) as (base & Hb & H0 & H1).
    destruct (base_panel_inv cv2 self _ base Hb) as (_ & Hb0 & Hb1 & Hh & Hw).
    exists base. split; [done|]. split; [done|]. split; [done|].
    split; [lia|]. split; [nia|].
    intros Hp. apply overlay_text_differs; [done|]. rewrite H1. nia.
Qed.

End OverlayClaims.

Lemma composed_frame_shape_witness :
  exists frame,
    synthetic cv2_demo (init settings_default false 0) tick_fail = Ok frame /\
    shape0 frame = 480%nat /\ shape1 frame = 2544%nat.
Proof.
  destruct (composed_frame_shape cv2_demo (init settings_default false 0) tick_fail)
    as (base & disp & composed & frame & _ & _ & _ & _ & Hs & _ & _ & Hb0 & Hb1 & H0 & H1).
  - reflexivity.
  - reflexivity.
  - exists frame. split; [exact Hs|]. split.
    + rewrite H0, Hb0. reflexivity.
    + rewrite H1, Hb1. reflexivity.
Defined.

Lemma secondary_is_shifted_base_witness :
  exists p,
    at_ (right_panel (from_ok (base_panel cv2_demo (init settings_small false 0) 5))) 1 2
    = Some p /\
    at_ (from_ok (base_panel cv2_demo (init settings_small false 0) 5)) 1
        (Z.to_nat ((Z.of_nat 2 - 18) mod 24)) = Some p.
Proof.
  apply (secondary_is_shifted_base cv2_demo (init settings_small false 0) 5
           (from_ok (base_panel cv2_demo (init settings_small false 0) 5)) 1 2).
  - vm_compute. reflexivity.
  - reflexivity.
  - reflexivity.
Defined.

Lemma get_frame_never_fails_witness :
  Forall (fun r => exists frame, r = Ok frame /\ well_shaped frame /\
                     shape0 frame = 50%nat /\ shape1 frame = 100%nat)
         (frames_of cv2_demo (init settings_100x50 false 0)
                    [tick_fail; {| now := 9; cap_read := (true, None) |}; tick_fail]).
Proof.
  refine (proj2 (proj2 (proj2
            (get_frame_never_fails cv2_demo (init settings_100x50 false 0) _ _)))
            _ _ _ _ _ _); reflexivity.
Defined.

(** C7 as stated fails: a provider set to 100 by 50 and no extra panel
    that holds a capture device returns the frame of the device, of one
    row and two columns here, and not a frame of 50 rows and 100
    columns. *)
Lemma device_frame_keeps_its_size :
  width (s (init settings_100x50 true 0)) = 100 /\
  height (s (init settings_100x50 true 0)) = 50 /\
  show_right (s (init settings_100x50 true 0)) = false /\
  show_disparity (s (init settings_100x50 true 0)) = false /\
  (exists frame,
     get_frame cv2_demo (init settings_100x50 true 0) tick_device = Ok frame /\
     shape0 frame = 1%nat /\ shape1 frame = 2%nat) /\
  ~ returns_100x50 cv2_demo (init settings_100x50 true 0) tick_device.
Proof.
  split; [reflexivity|]. split; [reflexivity|]. split; [reflexivity|].
  split; [reflexivity|]. split.
  - eexists. split; [vm_compute; reflexivity|]. split; reflexivity.
  - intros (frame & Hf & H0 & _). vm_compute in Hf. injection Hf as <-.
    discriminate H0.
Qed.

(** The overlay of a frame of 50 rows: the pixel of row 30 and column 20,
    black in the panel, is white in the frame. *)
Lemma overlay_shows_composed_size_witness :
  exists composed,
    compose cv2_demo (init settings_100x50 false 0) 5 = Ok composed /\
    at_ composed 30 20 = Some (0, 0, 0) /\
    at_ (from_ok (get_frame cv2_demo (init settings_100x50 false 0) tick_fail)) 30 20
    = Some white.
Proof.
  destruct (overlay_shows_composed_size cv2_demo (init settings_100x50 false 0) tick_fail
              (from_ok (get_frame cv2_demo (init settings_100x50 false 0) tick_fail)))
    as (composed & Hpx & _ & _ & _ & _ & [[Hd _]|(_ & Hc & _)]).
  - vm_compute. reflexivity.
  - discriminate Hd.
  - exists composed. split; [exact Hc|].
    assert (Hcomp : composed = from_ok (compose cv2_demo (init settings_100x50 false 0) 5))
      by (change (now tick_fail - _t0 (init settings_100x50 false 0)) with 5 in Hc;
          by rewrite Hc).
    split.
    + rewrite Hcomp. vm_compute. reflexivity.
    + rewrite (Hpx 30%nat 20%nat), Hcomp. vm_compute. reflexivity.
Defined.

End ProviderProofs.

(** * Further facts about text *)

Lemma lacks_app c a b : lacks c (a +:+ b) = lacks c a && lacks c b.
Proof.
  induction a as [|x a IH]; [done|].
  rewrite string_app_cons. cbn [lacks]. rewrite IH. by rewrite andb_assoc.
Qed.

Lemma split_at_unique c (a a' b b' : string) :
  lacks c a = true -> lacks c a' = true ->
  a +:+ String c b = a' +:+ String c b' -> a = a' /\ b = b'.
Proof.
  revert a'. induction a as [|x a IH]; intros [|x' a'] Ha Ha' H.
  - rewrite !string_app_nil in H. by injection H.
  - rewrite string_app_nil, string_app_cons in H. injection H as <- _.
    cbn [lacks] in Ha'. rewrite Ascii.eqb_refl in Ha'. done.
  - rewrite string_app_nil, string_app_cons in H. injection H as -> _.
    cbn [lacks] in Ha. rewrite Ascii.eqb_refl in Ha. done.
  - rewrite !string_app_cons in H. injection H as -> H.
    cbn [lacks] in Ha, Ha'.
    apply andb_true_iff in Ha as [_ Ha]. apply andb_true_iff in Ha' as [_ Ha'].
    destruct (IH a' Ha Ha' H) as [-> ->]. done.
Qed.

Lemma lacks_uint c d :
  (c <> "0" /\ c <> "1" /\ c <> "2" /\ c <> "3" /\ c <> "4" /\
   c <> "5" /\ c <> "6" /\ c <> "7" /\ c <> "8" /\ c <> "9")%char ->
  lacks c (NilEmpty.string_of_uint d) = true.
Proof.
  intros (H0 & H1 & H2 & H3 & H4 & H5 & H6 & H7 & H8 & H9).
  induction d; cbn [NilEmpty.string_of_uint lacks]; [done|..];
    rewrite IHd, andb_true_r; apply negb_true_iff, Ascii.eqb_neq; congruence.
Qed.

Lemma lacks_fmt_int c z :
  (c = "," \/ c = ".")%char -> lacks c (fmt_int z) = true.
Proof.
  intros Hc.
  assert (Hd : (c <> "0" /\ c <> "1" /\ c <> "2" /\ c <> "3" /\ c <> "4" /\
   c <> "5" /\ c <> "6" /\ c <> "7" /\ c <> "8" /\ c <> "9")%char)
    by (destruct Hc as [-> | ->]; repeat split; discriminate).
  assert (Hm : Ascii.eqb "-" c = false) by (destruct Hc as [-> | ->]; reflexivity).
  assert (Hz : Ascii.eqb "0" c = false) by (destruct Hc as [-> | ->]; reflexivity).
  unfold fmt_int. destruct (Z.to_int z) as [d|d]; cbn [NilZero.string_of_int].
  - unfold NilZero.string_of_uint. destruct d; try apply (lacks_uint c _ Hd).
    cbn [lacks]. by rewrite Hz.
  - cbn [lacks]. rewrite Hm. cbn [negb andb].
    unfold NilZero.string_of_uint. destruct d; try apply (lacks_uint c _ Hd).
    cbn [lacks]. by rewrite Hz.
Qed.

Lemma fmt_int_nonneg_head z :
  0 <= z -> exists c s, fmt_int z = String c s /\ c <> "-"%char.
Proof.
  intros Hz. unfold fmt_int. destruct z as [|p|p]; [| |lia].
  - by exists "0"%char, EmptyString.
  - cbn [Z.to_int NilZero.string_of_int]. unfold NilZero.string_of_uint.
    pose proof (DecimalPos.Unsigned.to_uint_nonnil p) as Hn.
    destruct (Pos.to_uint p) as [|d|d|d|d|d|d|d|d|d|d]; [done|..];
      cbn [NilEmpty.string_of_uint]; eexists _, _; (split; [reflexivity|discriminate]).
Qed.

Lemma digit_inj a b : digit a = digit b -> a mod 10 = b mod 10.
Proof.
  unfold digit. intros H.
  pose proof (Z.mod_pos_bound a 10 eq_refl). pose proof (Z.mod_pos_bound b 10 eq_refl).
  apply (f_equal nat_of_ascii) in H.
  rewrite !nat_ascii_embedding in H by lia. lia.
Qed.

Lemma frac6_inj r r' :
  0 <= r < 1000000 -> 0 <= r' < 1000000 -> frac6 r = frac6 r' -> r = r'.
Proof.
  intros Hr Hr' H. unfold frac6 in H.
  injection H as H5 H4 H3 H2 H1 H0.
  apply digit_inj in H0, H1, H2, H3, H4, H5.
  revert H0 H1 H2 H3 H4 H5.
  Z.to_euclidean_division_equations. lia.
Qed.

Lemma fmt_time_inj t t' : fmt_time t = fmt_time t' -> t = t'.
Proof.
  unfold fmt_time. intros H.
  set (q := Z.abs t / 1000000) in *. set (r := Z.abs t mod 1000000) in *.
  set (q' := Z.abs t' / 1000000) in *. set (r' := Z.abs t' mod 1000000) in *.
  assert (Hq : 0 <= q) by (subst q; apply Z.div_pos; lia).
  assert (Hq' : 0 <= q') by (subst q'; apply Z.div_pos; lia).
  assert (Hr : 0 <= r < 1000000) by (subst r; apply Z.mod_pos_bound; lia).
  assert (Hr' : 0 <= r' < 1000000) by (subst r'; apply Z.mod_pos_bound; lia).
  assert (Hbody : fmt_int q +:+ "." +:+ frac6 r = fmt_int q' +:+ "." +:+ frac6 r' ->
                  Z.abs t = Z.abs t').
  { intros Hb. apply (split_at_unique "."%char) in Hb as [Hi Hf];
      try (apply lacks_fmt_int; by right).
    apply fmt_int_inj in Hi. apply frac6_inj in Hf; [|done..].
    rewrite (Z.div_mod (Z.abs t) 1000000), (Z.div_mod (Z.abs t') 1000000) by lia.
    fold q q' r r'. congruence. }
  destruct (Z.ltb_spec t 0) as [Ht|Ht], (Z.ltb_spec t' 0) as [Ht'|Ht'].
  - rewrite !string_app_cons, !string_app_nil in H. injection H as H.
    apply Hbody in H. lia.
  - exfalso. destruct (fmt_int_nonneg_head q' Hq') as (c & s0 & Hc & Hne).
    rewrite Hc, !string_app_cons, !string_app_nil in H. injection H as H _. congruence.
  - exfalso. destruct (fmt_int_nonneg_head q Hq) as (c & s0 & Hc & Hne).
    rewrite Hc, !string_app_cons, !string_app_nil in H. injection H as H _. congruence.
  - rewrite !string_app_nil in H. apply Hbody in H. lia.
Qed.

(** * Further facts about the recorder *)

Module RecorderExtProofs.
Import Recorder RecorderProofs RecorderExt.

Section Calls.
Context (host : Host).

Lemma mkdir_from_blocked (pre rest : list string) (f : filesystem) :
  (exists k c, (0 < k <= length rest)%nat /\ f !! (pre ++ take k rest) = Some (File c)) ->
  mkdir_from pre rest f = None.
Proof.
  revert pre f. induction rest as [|x rest IH]; intros pre f (k & c & Hk & Hl); simpl in *; [lia|].
  destruct k as [|k]; [lia|]. simpl in Hl.
  destruct k as [|k].
  - rewrite take_0 in Hl. by rewrite Hl.
  - assert (Hl' : f !! ((pre ++ [x]) ++ take (S k) rest) = Some (File c))
      by (by rewrite <- app_assoc).
    destruct (f !! (pre ++ [x])) as [[|c0]|] eqn:Hq; [|done|].
    + apply IH. exists (S k), c. split; [lia|done].
    + apply IH. exists (S k), c. split; [lia|].
      rewrite lookup_insert_ne; [done|].
      intros Heq. apply (f_equal length) in Heq.
      rewrite !length_app, length_take in Heq. cbn [length] in Heq. lia.
Qed.

(** X1 ([FrameRecorder.start]). Where a file stands on the way to the
    output directory (the directory itself or one of its ancestors is
    a file), [mkdir] raises [OSError] before anything else is done:
    the recorder, the file system, the trace and the clock are as
    before, so that no encoder has been tried and [_frame_size] is
    not set. *)
Theorem start_blocked_directory cfg size st :
  file_on_the_way (fs (world st)) (out_dir cfg) ->
  start host cfg size st = (Raise (OSError (out_dir cfg)), st).
Proof.
  intros Hway. rewrite start_spec.
  assert (Hmk : mkdir_parents (out_dir cfg) (fs (world st)) = None)
    by (by apply mkdir_from_blocked).
  by rewrite Hmk.
Qed.

Lemma write_all_trace frames : forall st w f,
  _writer (self st) = Some w ->
  _ts_file (self st) = Some f ->
  trace (world (snd (write_all host frames st)))
  = trace (world st) ++ frame_events host w f (ticks (world st)) frames.
Proof.
  induction frames as [|[fr i] frames IH]; intros st w f Hw Hf.
  - cbn. by rewrite app_nil_r.
  - pose (st1 := snd (write host fr i st)).
    assert (Hstep : write_all host ((fr, i) :: frames) st = write_all host frames st1).
    { subst st1. cbn [write_all]. unfold bind. rewrite write_spec, Hw, Hf. reflexivity. }
    rewrite Hstep. clear Hstep.
    assert (Hst1 : st1 = {| self := self st;
       world := {| fs := fs_append f (row i (clock host (ticks (world st))) +:+ nl) (fs (world st));
                   trace := (trace (world st) ++ [EvVideoWrite w fr])
                            ++ [EvFileWrite f (row i (clock host (ticks (world st))) +:+ nl)];
                   ticks := S (ticks (world st)) |} |}).
    { subst st1. rewrite write_spec, Hw, Hf. reflexivity. }
    clearbody st1.
    rewrite (IH st1 w f) by (by rewrite Hst1).
    rewrite Hst1. cbn [world trace ticks frame_events].
    by rewrite <- !app_assoc.
Qed.

Lemma write_all_keeps_self frames st :
  self (snd (write_all host frames st)) = self st.
Proof.
  revert st. induction frames as [|[fr i] frames IH]; intros st; [done|].
  cbn [write_all]. unfold bind.
  destruct (write host fr i st) as [[[]|e] st1] eqn:Hw.
  - rewrite IH. change st1 with (snd (Ok tt, st1)). rewrite <- Hw.
    apply write_keeps_self.
  - exfalso. revert Hw. rewrite write_spec.
    by destruct (_writer (self st)), (_ts_file (self st)).
Qed.

Lemma find_opens (P : string -> bool) l c : find P l = Some c -> P c = true.
Proof.
  induction l as [|x l IH]; simpl; [done|].
  destruct (P x) eqn:Hx; [by intros [= <-]|exact IH].
Qed.

Lemma start_ok_writer cfg size st :
  fst (start host cfg size st) = Ok tt ->
  exists c, opens host cfg size c = true /\
    _writer (self (snd (start host cfg size st))) = Some (writer_of host cfg size c) /\
    _ts_file (self (snd (start host cfg size st))) = Some (log_path cfg).
Proof.
  rewrite start_spec.
  destruct (mkdir_parents (out_dir cfg) (fs (world st))) as [f|]; [|done].
  cbv zeta. destruct (find (opens host cfg size) fourcc_candidates) as [c|] eqn:Hfind; [|done].
  destruct (fs_open ModeW (log_path cfg) f) as [f'|]; [|done].
  intros _. exists c. split; [by apply (find_opens _ _ _ Hfind)|]. by split.
Qed.

(** X2 ([start], [write], [stop]). A session, from a start that
    returns: the writer kept is open, for the video of the directory,
    at the rate of the configuration and the size given; the writes
    leave in the trace, frame after frame in the order of the calls,
    the frame to that writer and then its row to the log; [stop]
    then releases that writer and closes that log, once each and in
    this order, and leaves the recorder as a new one. *)
Theorem session_trace cfg size st frames :
  fst (start host cfg size st) = Ok tt ->
  let st1 := snd (start host cfg size st) in
  let st3 := snd (stop (snd (write_all host frames st1))) in
  exists w,
    _writer (self st1) = Some w /\
    isOpened w = true /\
    vw_path w = out_path cfg /\ vw_fps w = fps cfg /\ vw_size w = size /\
    trace (world st3)
    = trace (world st1)
      ++ frame_events host w (log_path cfg) (ticks (world st1)) frames
      ++ [EvRelease w; EvClose (log_path cfg)] /\
    self st3 = init.
Proof.
  intros Hok st1 st3.
  pose proof (start_ok_writer cfg size st Hok) as Harmed. fold st1 in Harmed.
  destruct Harmed as (c & Hc & Hw & Hf).
  exists (writer_of host cfg size c).
  split; [done|]. split; [exact Hc|]. split; [done|]. split; [done|]. split; [done|].
  subst st3. rewrite stop_spec. cbn [snd self world trace]. split; [|done].
  rewrite (write_all_trace frames st1 _ _ Hw Hf).
  unfold stop_events. rewrite write_all_keeps_self, Hw, Hf.
  by rewrite <- app_assoc.
Qed.

Lemma mkdir_from_elsewhere (pre rest : list string) (f f' : filesystem) (p : path) :
  mkdir_from pre rest f = Some f' ->
  (forall k, p <> pre ++ take k rest) ->
  f' !! p = f !! p.
Proof.
  revert pre f. induction rest as [|x rest IH]; intros pre f Hmk Hp; simpl in Hmk.
  - by inversion Hmk.
  - assert (Hp' : forall k, p <> (pre ++ [x]) ++ take k rest).
    { intros k. rewrite <- app_assoc. exact (Hp (S k)). }
    assert (Hne : pre ++ [x] <> p).
    { intros <-. apply (Hp 1%nat). simpl. by rewrite take_0. }
    destruct (f !! (pre ++ [x])) as [[|c0]|] eqn:Hq; [|done|].
    + by apply (IH _ _ Hmk).
    + rewrite (IH _ _ Hmk Hp'). by rewrite lookup_insert_ne.
Qed.

Lemma fs_append_elsewhere (q : path) (s0 : string) (f : filesystem) (p : path) :
  p <> q -> fs_append q s0 f !! p = f !! p.
Proof.
  intros Hne. unfold fs_append.
  destruct (f !! q) as [[|c]|]; try done. by rewrite lookup_insert_ne.
Qed.

Lemma fs_open_elsewhere (mode : open_mode) (q : path) (f f' : filesystem) (p : path) :
  fs_open mode q f = Some f' -> p <> q -> f' !! p = f !! p.
Proof.
  unfold fs_open. intros H Hne. destruct (is_dir f (removelast q)); [|done].
  destruct (f !! q) as [[|c]|], mode; inversion H; subst; try done;
    by rewrite lookup_insert_ne.
Qed.

(** X4 ([start], [write], [stop]). What a call leaves alone on disk:
    every path other than the files of the handles that the recorder
    holds when it is called (the log, and the video of the writer), and
    for [start] other than the output directory and its ancestors, the
    log and the video of the new session. *)
Theorem call_footprint c st (p : path) :
  ~ touches c st p ->
  fs (world (snd (do_call host c st))) !! p = fs (world st) !! p.
Proof.
  unfold touches, held. intros Hp.
  destruct c as [cfg size|fr i|]; cbn [do_call] in *.
  - assert (Hpre : forall k, p <> [] ++ take k (out_dir cfg))
      by (intros k ->; apply Hp; right; eauto).
    assert (Hlog : p <> log_path cfg) by (intros ->; apply Hp; right; eauto).
    rewrite start_spec.
    destruct (mkdir_parents (out_dir cfg) (fs (world st))) as [f|] eqn:Hmk; [|done].
    cbv zeta. pose proof (mkdir_from_elsewhere _ _ _ _ p Hmk Hpre) as Hf.
    destruct (find (opens host cfg size) fourcc_candidates) as [c|]; [|exact Hf].
    destruct (fs_open ModeW (log_path cfg) f) as [f'|] eqn:Hop; cbn [snd world fs]; [|exact Hf].
    rewrite fs_append_elsewhere by done.
    by rewrite (fs_open_elsewhere _ _ _ _ p Hop Hlog).
  - rewrite write_spec.
    destruct (_writer (self st)) as [w|]; [|done].
    destruct (_ts_file (self st)) as [f|]; [|done].
    cbn [snd world fs]. apply fs_append_elsewhere. intros ->. apply Hp. left. by left.
  - by rewrite stop_spec.
Qed.

Lemma encoded_app tr1 tr2 : encoded (tr1 ++ tr2) = encoded tr1 ++ encoded tr2.
Proof. apply omap_app. Qed.

Lemma attempts_encode_nothing cfg size (l : list string) :
  encoded (map (fun c => EvVideoWriter (writer_of host cfg size c)) l) = [].
Proof. by induction l. Qed.

Lemma start_keeps_encoded cfg size st :
  encoded (trace (world (snd (start host cfg size st)))) = encoded (trace (world st)).
Proof.
  rewrite start_spec.
  destruct (mkdir_parents (out_dir cfg) (fs (world st))) as [f|]; [|done].
  cbv zeta.
  assert (Hatt : encoded (trace (world (after_attempts host cfg size f st)))
                 = encoded (trace (world st))).
  { unfold after_attempts, add_events, after_mkdir. cbn [world trace].
    rewrite !encoded_app, attempts_encode_nothing. cbn. by rewrite !app_nil_r. }
  destruct (find (opens host cfg size) fourcc_candidates) as [c|]; [|done].
  destruct (fs_open ModeW (log_path cfg) f) as [f'|]; cbn [snd world trace]; [|done].
  rewrite !encoded_app, Hatt. cbn. by rewrite !app_nil_r.
Qed.

End Calls.

(** X5 ([FrameRecorder.write]). The row of the log determines the
    frame index and the clock reading: two rows are the same only for
    the same index and the same time (in microseconds), so that the
    log can be read back. *)
Theorem row_injective (i t i' t' : Z) :
  row i t = row i' t' -> i = i' /\ t = t'.
Proof.
  unfold row. intros H.
  apply (split_at_unique ","%char) in H as [Hi Ht];
    try (apply lacks_fmt_int; by left).
  split; [by apply fmt_int_inj|by apply fmt_time_inj].
Qed.

Lemma start_blocked_directory_witness :
  start host_mp4v cfg_rec (640, 480) (fresh fs_home_is_file)
  = (Raise (OSError ["home"; "pi"; "rec"]), fresh fs_home_is_file).
Proof.
  apply (start_blocked_directory host_mp4v cfg_rec (640, 480) (fresh fs_home_is_file)).
  exists 1%nat, "". split; [cbn; lia|]. vm_compute. reflexivity.
Defined.

Lemma session_trace_witness :
  exists w,
    trace (world (snd (stop (snd (write_all host_mp4v [(blank, 0); (blank, 1)]
             (snd (start host_mp4v cfg_rec (640, 480) (fresh ∅))))))))
    = trace (world (snd (start host_mp4v cfg_rec (640, 480) (fresh ∅))))
      ++ [EvVideoWrite w blank;
          EvFileWrite (log_path cfg_rec) ("0,1700000000.033333" +:+ nl);
          EvVideoWrite w blank;
          EvFileWrite (log_path cfg_rec) ("1,1700000000.066666" +:+ nl);
          EvRelease w; EvClose (log_path cfg_rec)] /\
    vw_size w = (640, 480).
Proof.
  destruct (session_trace host_mp4v cfg_rec (640, 480) (fresh ∅) [(blank, 0); (blank, 1)])
    as (w & _ & _ & _ & _ & Hsize & Htrace & _).
  - vm_compute. reflexivity.
  - exists w. split; [exact Htrace|exact Hsize].
Defined.

(** A second [start], on a recorder that records into another
    directory: a file of a third directory is left alone. *)
Lemma call_footprint_witness :
  fs (world (snd (do_call host_mp4v
                    (CallStart {| out_dir := ["home"; "pi"; "new"]; fps := 30 |} (640, 480))
                    (snd (start host_mp4v cfg_rec (640, 480) (fresh fs_stale_log))))))
    !! ["home"; "pi"; "notes.txt"]
  = fs (world (snd (start host_mp4v cfg_rec (640, 480) (fresh fs_stale_log))))
      !! ["home"; "pi"; "notes.txt"].
Proof.
  apply (call_footprint host_mp4v
           (CallStart {| out_dir := ["home"; "pi"; "new"]; fps := 30 |} (640, 480))
           (snd (start host_mp4v cfg_rec (640, 480) (fresh fs_stale_log)))).
  unfold touches, held. intros [[Hl|(w & Hw & Hp)]|[[k Hk]|[Hl|Ho]]].
  - vm_compute in Hl. discriminate Hl.
  - vm_compute in Hw. injection Hw as <-. discriminate Hp.
  - destruct k as [|[|[|[|k]]]]; discriminate Hk.
  - discriminate Hl.
  - discriminate Ho.
Defined.

Lemma row_injective_witness : 7 = 7 /\ 1700000000033333 = 1700000000033333.
Proof. apply (row_injective 7 1700000000033333 7 1700000000033333). reflexivity. Defined.

End RecorderExtProofs.

(** * Further facts about the provider *)

Module ProviderExtProofs.
Import Provider ProviderProofs ProviderExt.

Section Panels.
Context (cv2 : Cv2).

Lemma at_hcat_l (a b : image) y x :
  well_shaped a -> well_shaped b -> shape0 a = shape0 b ->
  (x < shape1 a)%nat ->
  at_ (hcat a b) y x = at_ a y x.
Proof.
  intros Hwa Hwb H0 Hx. unfold at_. cbn [hcat data]. rewrite lookup_zip_with.
  destruct (data a !! y) as [ra|] eqn:Ha; cbn; [|done].
  destruct (data b !! y) as [rb|] eqn:Hb; cbn.
  - apply lookup_app_l. by rewrite (well_shaped_rows a y ra).
  - apply lookup_ge_None in Hb. apply lookup_lt_Some in Ha.
    destruct Hwa as [Hla _], Hwb as [Hlb _]. lia.
Qed.

Lemma at_hcat_r (a b : image) y x :
  well_shaped a -> well_shaped b -> shape0 a = shape0 b ->
  at_ (hcat a b) y (shape1 a + x) = at_ b y x.
Proof.
  intros Hwa Hwb H0. unfold at_. cbn [hcat data]. rewrite lookup_zip_with.
  destruct (data b !! y) as [rb|] eqn:Hb; cbn.
  - destruct (data a !! y) as [ra|] eqn:Ha; cbn.
    + rewrite lookup_app_r by (rewrite (well_shaped_rows a y ra); [lia|done|done]).
      f_equal. rewrite (well_shaped_rows a y ra) by done. lia.
    + apply lookup_ge_None in Ha. apply lookup_lt_Some in Hb.
      destruct Hwa as [Hla _], Hwb as [Hlb _]. lia.
  - by destruct (data a !! y).
Qed.

Lemma at_map_px {A B} (f : A -> B) (a : ndarray A) y x :
  at_ (map_px f a) y x = f <$> at_ a y x.
Proof.
  unfold at_. cbn [map_px data]. rewrite list_lookup_fmap.
  destruct (data a !! y) as [r|]; cbn; [|done]. by rewrite list_lookup_fmap.
Qed.

Lemma compose_form self t composed base :
  compose cv2 self t = Ok composed ->
  base_panel cv2 self t = Ok base ->
  composed = layout cv2 (s self) base.
Proof.
  unfold compose, layout. intros H Hb. rewrite Hb in H. cbn [bind] in H. revert H.
  destruct (show_right (s self)), (show_disparity (s self)); cbn [app bind].
  all: try (unfold absdiff, right_panel, same_shape; cbn [np_roll shape0 shape1];
            rewrite !Nat.eqb_refl; cbn [andb bind];
            unfold cvtColor_BGR2GRAY; destruct (is_empty _); [done|]; cbn [bind];
            unfold applyColorMap_TURBO; destruct (is_empty _); [done|]; cbn [bind]).
  all: cbn [hstack hcat map_px np_roll right_panel shape0 shape1]; rewrite ?Nat.eqb_refl;
       by intros [= <-].
Qed.

Lemma absdiff_of_well_shaped (a b : image) :
  well_shaped a -> well_shaped b -> shape0 a = shape0 b -> shape1 a = shape1 b ->
  well_shaped (absdiff_of a b).
Proof.
  intros [Hla Hra] [Hlb Hrb] H0 H1. split; cbn [absdiff_of data shape0 shape1].
  - rewrite length_zip_with. lia.
  - apply Forall_lookup. intros y r. rewrite lookup_zip_with_Some.
    intros (ra & rb & -> & Ha & Hb). rewrite length_zip_with.
    rewrite Forall_lookup in Hra. rewrite Forall_lookup in Hrb.
    rewrite (Hra y ra Ha), (Hrb y rb Hb). lia.
Qed.

Lemma difference_of_well_shaped base :
  well_shaped base -> well_shaped (difference_of cv2 base).
Proof.
  intros Hw. unfold difference_of. do 2 apply map_px_well_shaped.
  apply absdiff_of_well_shaped; try done. by apply np_roll_well_shaped.
Qed.

Lemma at_absdiff_of (a b : image) y x :
  at_ (absdiff_of a b) y x
  = match at_ a y x, at_ b y x with
    | Some p, Some q => Some (absdiff_px p q)
    | _, _ => None
    end.
Proof.
  unfold at_. cbn [absdiff_of data]. rewrite lookup_zip_with.
  destruct (data a !! y) as [ra|]; cbn; [|done].
  destruct (data b !! y) as [rb|]; cbn.
  - rewrite lookup_zip_with. destruct (ra !! x); cbn; [|done]. by destruct (rb !! x).
  - by destruct (ra !! x).
Qed.

Lemma at_right_panel base (y x : nat) :
  well_shaped base -> (y < shape0 base)%nat -> (x < shape1 base)%nat ->
  at_ (right_panel base) y x = at_ base y (shifted (Z.of_nat (shape1 base)) x).
Proof. intros. unfold right_panel, shifted. by apply np_roll_at. Qed.

Lemma shifted_lt (w : Z) x : 0 < w -> (shifted w x < Z.to_nat w)%nat.
Proof. intros Hw. unfold shifted. pose proof (Z.mod_pos_bound (Z.of_nat x - 18) w Hw). lia. Qed.

(** X6 ([FrameProvider.get_frame]). Where the panels stand in the
    synthetic frame before the overlay: its first [width] columns are
    the base panel, pixel by pixel, whatever the two flags say; with
    [show_right] the next [width] columns are the secondary panel,
    whose column [x] is column [(x - 18) mod width] of the base. *)
Theorem layout_base_and_secondary self t base composed (y x : nat) :
  base_panel cv2 self t = Ok base ->
  compose cv2 self t = Ok composed ->
  Z.of_nat y < height (s self) -> Z.of_nat x < width (s self) ->
  is_Some (at_ base y x) /\
  at_ composed y x = at_ base y x /\
  (show_right (s self) = true ->
   at_ composed y (Z.to_nat (width (s self)) + x) = at_ base y (shifted (width (s self)) x)).
Proof.
  intros Hb Hc Hy Hx.
  destruct (base_panel_inv cv2 self t base Hb) as (Hwb & H0 & H1 & Hh & Hw).
  assert (Hy' : (y < shape0 base)%nat) by lia.
  assert (Hx' : (x < shape1 base)%nat) by lia.
  assert (Hwr : well_shaped (right_panel base)) by (by apply np_roll_well_shaped).
  assert (Hwd : well_shaped (difference_of cv2 base)) by (by apply difference_of_well_shaped).
  assert (Hrp : at_ (right_panel base) y x = at_ base y (shifted (width (s self)) x)).
  { rewrite at_right_panel by done. by rewrite H1, Z2Nat.id by lia. }
  rewrite (compose_form self t composed base Hc Hb). unfold layout.
  split; [by apply at_in_range|].
  destruct (show_right (s self)), (show_disparity (s self)).
  - split; [apply at_hcat_l; try done; by apply hcat_well_shaped|].
    intros _. rewrite <- H1. rewrite at_hcat_r; try done; [|by apply hcat_well_shaped].
    rewrite at_hcat_l; done.
  - split; [by apply at_hcat_l|]. intros _. rewrite <- H1. by rewrite at_hcat_r.
  - split; [by apply at_hcat_l|]. done.
  - split; done.
Qed.

(** X7 ([FrameProvider.get_frame]). With [show_disparity] the last
    panel of the frame is the difference panel: its pixel is the
    colour map of the grey of the absolute difference of the base
    pixel and the pixel 18 columns to its left (cyclically); where the
    two are equal it is the colour of the difference zero. *)
Theorem layout_difference self t base composed (y x : nat) :
  base_panel cv2 self t = Ok base ->
  compose cv2 self t = Ok composed ->
  show_disparity (s self) = true ->
  Z.of_nat y < height (s self) -> Z.of_nat x < width (s self) ->
  exists p q,
    at_ base y x = Some p /\
    at_ base y (shifted (width (s self)) x) = Some q /\
    at_ composed y ((panels (s self) - 1) * Z.to_nat (width (s self)) + x)
    = Some (difference_px cv2 p q) /\
    (p = q -> difference_px cv2 p q = colormap_turbo cv2 (bgr2gray cv2 (0, 0, 0))).
Proof.
  intros Hb Hc Hd Hy Hx.
  destruct (base_panel_inv cv2 self t base Hb) as (Hwb & H0 & H1 & Hh & Hw).
  assert (Hy' : (y < shape0 base)%nat) by lia.
  assert (Hx' : (x < shape1 base)%nat) by lia.
  assert (Hwr : well_shaped (right_panel base)) by (by apply np_roll_well_shaped).
  assert (Hwd : well_shaped (difference_of cv2 base)) by (by apply difference_of_well_shaped).
  destruct (at_in_range base y x Hwb Hy' Hx') as [p Hp].
  assert (Hs : (shifted (width (s self)) x < shape1 base)%nat)
    by (rewrite H1; apply shifted_lt; lia).
  destruct (at_in_range base y _ Hwb Hy' Hs) as [q Hq].
  assert (Hrp : at_ (right_panel base) y x = Some q).
  { rewrite at_right_panel by done. by rewrite H1, Z2Nat.id by lia. }
  assert (Hdp : at_ (difference_of cv2 base) y x = Some (difference_px cv2 p q)).
  { unfold difference_of. rewrite !at_map_px, at_absdiff_of, Hp, Hrp. reflexivity. }
  exists p, q. split; [done|]. split; [done|]. split.
  - rewrite (compose_form self t composed base Hc Hb). unfold layout, panels.
    rewrite Hd, <- H1. destruct (show_right (s self)).
    + replace ((1 + 1 + 1 - 1) * shape1 base + x)%nat
        with (shape1 base + (shape1 (right_panel base) + x))%nat
        by (change (shape1 (right_panel base)) with (shape1 base); lia).
      rewrite at_hcat_r; try done; [|by apply hcat_well_shaped].
      by rewrite at_hcat_r.
    + replace ((1 + 0 + 1 - 1) * shape1 base + x)%nat with (shape1 base + x)%nat by lia.
      by rewrite at_hcat_r.
  - intros ->. unfold difference_px. f_equal. f_equal.
    destruct q as [[b g] r]. cbn [absdiff_px]. by rewrite !Z.sub_diag.
Qed.

(** X8 ([FrameProvider.get_frame]). The base panel, pixel by pixel:
    the caption at (20, 40) in white, drawn over the filled yellow
    circle of radius 35 at the moving centre, drawn over black. *)
Theorem base_panel_pixel self t base (y x : nat) :
  base_panel cv2 self t = Ok base ->
  Z.of_nat y < height (s self) -> Z.of_nat x < width (s self) ->
  at_ base y x
  = Some (putText cv2 caption (20, 40) white 2 y x
            (circle cv2 (centre cv2 (width (s self)) (height (s self)) t) 35 yellow (-1)
                    y x (0, 0, 0))).
Proof.
  intros H Hy Hx.
  destruct (base_panel_form cv2 self t base H) as (z & Hz & _ & ->).
  rewrite !at_paint. revert Hz. unfold np_zeros.
  destruct (Z.ltb_spec (height (s self)) 0); [done|].
  destruct (Z.ltb_spec (width (s self)) 0); [done|]. cbn [orb]. intros [= <-].
  unfold at_. cbn [data].
  rewrite lookup_replicate_2 by lia. by rewrite lookup_replicate_2 by lia.
Qed.

(** X9 ([FrameProvider.get_frame]). With a negative width or height
    in the settings, every call that takes the synthetic path raises
    the [ValueError] of [np.zeros]: nothing in [get_frame] catches
    it. *)
Theorem negative_size_raises self e :
  width (s self) < 0 \/ height (s self) < 0 ->
  delivers self e = false ->
  get_frame cv2 self e = Raise ValueError.
Proof.
  intros Hneg Hd. rewrite (get_frame_fallback cv2 self e Hd).
  unfold synthetic, compose, base_panel, np_zeros.
  destruct (Z.ltb_spec (height (s self)) 0), (Z.ltb_spec (width (s self)) 0);
    try reflexivity. lia.
Qed.

Lemma roll_row_roll_row {A} (a b : Z) (r : list A) :
  roll_row a (roll_row b r) = roll_row (a + b) r.
Proof.
  apply list_eq. intros x.
  destruct (decide (x < length r)%nat) as [Hx|Hx].
  - rewrite roll_row_lookup by (by rewrite roll_row_length).
    rewrite roll_row_length.
    assert (Hn : 0 < Z.of_nat (length r)) by lia.
    pose proof (Z.mod_pos_bound (Z.of_nat x - a) (Z.of_nat (length r)) Hn).
    rewrite roll_row_lookup by lia. rewrite roll_row_lookup by done.
    f_equal. f_equal. rewrite Z2Nat.id by lia.
    rewrite Zminus_mod_idemp_l. f_equal. lia.
  - rewrite !lookup_ge_None_2; [done|rewrite ?roll_row_length; lia..].
Qed.

Lemma roll_row_0 {A} (r : list A) : roll_row 0 r = r.
Proof.
  unfold roll_row. destruct (length r =? 0)%nat; by rewrite Zmod_0_l.
Qed.

(** X10 ([FrameProvider.get_frame]). The secondary panel keeps every
    pixel of the base panel: rolled back by 18 columns it is the base
    panel again, for every array, also an empty one. *)
Theorem secondary_shifted_back (base : image) :
  np_roll (-18) (right_panel base) = base.
Proof.
  unfold right_panel, np_roll. cbn [shape0 shape1 data].
  destruct base as [h w d]. cbn [shape0 shape1 data]. f_equal.
  rewrite <- list_fmap_compose. rewrite <- (list_fmap_id d) at 2.
  apply list_fmap_ext. intros _ r _. cbn.
  by rewrite roll_row_roll_row, roll_row_0.
Qed.

End Panels.
Lemma layout_base_and_secondary_witness :
  at_ (from_ok (compose cv2_demo (init settings_both false 0) 5)) 1 (24 + 2)
  = at_ (from_ok (base_panel cv2_demo (init settings_both false 0) 5)) 1 (shifted 24 2).
Proof.
  refine (proj2 (proj2 (layout_base_and_secondary cv2_demo (init settings_both false 0) 5
            (from_ok (base_panel cv2_demo (init settings_both false 0) 5))
            (from_ok (compose cv2_demo (init settings_both false 0) 5)) 1 2 _ _ _ _)) _).
  - vm_compute. reflexivity.
  - vm_compute. reflexivity.
  - reflexivity.
  - reflexivity.
  - reflexivity.
Defined.

Lemma layout_difference_witness :
  exists p q,
    at_ (from_ok (base_panel cv2_demo (init settings_both false 0) 5)) 1 5 = Some p /\
    at_ (from_ok (base_panel cv2_demo (init settings_both false 0) 5)) 1 (shifted 24 5)
    = Some q /\
    at_ (from_ok (compose cv2_demo (init settings_both false 0) 5)) 1 (2 * 24 + 5)
    = Some (difference_px cv2_demo p q).
Proof.
  destruct (layout_difference cv2_demo (init settings_both false 0) 5
              (from_ok (base_panel cv2_demo (init settings_both false 0) 5))
              (from_ok (compose cv2_demo (init settings_both false 0) 5)) 1 5)
    as (p & q & Hp & Hq & Hd & _).
  - vm_compute. reflexivity.
  - vm_compute. reflexivity.
  - reflexivity.
  - reflexivity.
  - reflexivity.
  - exists p, q. split; [exact Hp|]. split; [exact Hq|exact Hd].
Defined.

Lemma base_panel_pixel_witness :
  at_ (from_ok (base_panel cv2_demo (init settings_small false 0) 5)) 1 5 = Some yellow.
Proof.
  apply (base_panel_pixel cv2_demo (init settings_small false 0) 5
           (from_ok (base_panel cv2_demo (init settings_small false 0) 5)) 1 5).
  - vm_compute. reflexivity.
  - reflexivity.
  - reflexivity.
Defined.

Lemma negative_size_raises_witness :
  get_frame cv2_demo (init settings_negative false 0) tick_fail = Raise ValueError.
Proof.
  apply (negative_size_raises cv2_demo (init settings_negative false 0) tick_fail).
  - left. reflexivity.
  - reflexivity.
Defined.

End ProviderExtProofs.

(** * Facts about the window *)

Module MainProofs.
Import Main.

Lemma channels_length (r : list pixel) :
  Forall (fun l : list Z => length l = 3%nat) (channels <$> r).
Proof. apply Forall_fmap, Forall_forall. by intros [[c0 c1] c2] _. Qed.

Lemma row_bytes_length (r : list pixel) :
  length (mjoin (channels <$> r)) = (3 * length r)%nat.
Proof.
  rewrite length_join, (sum_list_fmap_same 3) by apply channels_length.
  rewrite length_fmap. lia.
Qed.

Lemma bytes_of_lookup (a : image) (y x k : nat) c0 c1 c2 :
  well_shaped a -> at_ a y x = Some (c0, c1, c2) -> (k < 3)%nat ->
  bytes_of a !! (y * (3 * shape1 a) + 3 * x + k)%nat = [c0; c1; c2] !! k.
Proof.
  intros [Hl Hr] Hat Hk. unfold at_ in Hat.
  destruct (data a !! y) as [r|] eqn:Hy; [|done].
  assert (Hx : (x < length r)%nat) by (by apply lookup_lt_Some in Hat).
  assert (Hlen : length r = shape1 a) by (rewrite Forall_lookup in Hr; by apply (Hr y)).
  assert (Hk' : is_Some ([c0; c1; c2] !! k)) by (apply lookup_lt_is_Some; simpl; lia).
  destruct Hk' as [v Hv]. rewrite Hv. unfold bytes_of.
  rewrite <- Nat.add_assoc.
  apply (join_lookup_Some_same_length' (3 * shape1 a)).
  - apply Forall_fmap. eapply Forall_impl; [exact Hr|].
    intros r0 Hr0. cbn. by rewrite row_bytes_length, Hr0.
  - lia.
  - exists (mjoin (channels <$> r)). split; [by rewrite list_lookup_fmap, Hy|].
    rewrite (Nat.mul_comm 3 x).
    apply (join_lookup_Some_same_length' 3); [apply channels_length|done|].
    exists [c0; c1; c2]. split; [|done]. by rewrite list_lookup_fmap, Hat.
Qed.

Lemma scan_line_lookup (a : image) (y x k : nat) c0 c1 c2 :
  well_shaped a -> at_ a y x = Some (c0, c1, c2) -> (k < 3)%nat ->
  q_scan (QImage_of (bytes_of a) (shape1 a) (shape0 a) (3 * shape1 a)) !! y
    ≫= (.!! (3 * x + k)%nat)
  = [c0; c1; c2] !! k.
Proof.
  intros Hw Hat Hk.
  assert (Hin : (y < shape0 a)%nat /\ (x < shape1 a)%nat).
  { unfold at_ in Hat. destruct (data a !! y) as [row|] eqn:Hy; [|done].
    destruct Hw as [Hl Hr]. split.
    - apply lookup_lt_Some in Hy. lia.
    - apply lookup_lt_Some in Hat. rewrite Forall_lookup in Hr.
      by rewrite <- (Hr y row Hy). }
  destruct Hin as [Hy Hx]. cbn [QImage_of q_scan].
  rewrite list_lookup_fmap, lookup_seq_lt by done. cbn.
  rewrite lookup_take_lt by lia. rewrite lookup_drop.
  rewrite Nat.add_assoc. by apply bytes_of_lookup.
Qed.

(** X11 ([bgr_to_qimage]). What the label shows of a frame: for a
    frame whose data fit its shape, the image has the width and the
    height of the frame; its scan lines are those of the copy, aligned
    to four bytes (the least multiple of four that holds the three
    bytes of each pixel of a row), and its size in bytes is the height
    times that; its pixel at (x, y) has for red, green and blue the
    third, second and first channel of the frame's pixel in row y and
    column x. *)
Theorem qimage_pixel (frame : image) (y x : nat) (b g r : Z) :
  well_shaped frame ->
  at_ frame y x = Some (b, g, r) ->
  exists q,
    bgr_to_qimage frame = Ok q /\
    q_width q = shape1 frame /\ q_height q = shape0 frame /\
    (3 * shape1 frame <= q_bytes_per_line q < 3 * shape1 frame + 4)%nat /\
    (q_bytes_per_line q mod 4 = 0)%nat /\
    sizeInBytes q = (shape0 frame * q_bytes_per_line q)%nat /\
    q_pixel q x y = Some (r, g, b).
Proof.
  intros Hw Hat.
  assert (Hin : (y < shape0 frame)%nat /\ (x < shape1 frame)%nat).
  { unfold at_ in Hat. destruct (data frame !! y) as [row|] eqn:Hy; [|done].
    destruct Hw as [Hl Hr]. split.
    - apply lookup_lt_Some in Hy. lia.
    - apply lookup_lt_Some in Hat. rewrite Forall_lookup in Hr.
      by rewrite <- (Hr y row Hy). }
  destruct Hin as [Hy Hx].
  unfold bgr_to_qimage, cvtColor_BGR2RGB, Provider.is_empty.
  destruct (Nat.eqb_spec (shape0 frame) 0); [lia|].
  destruct (Nat.eqb_spec (shape1 frame) 0); [lia|]. cbn [orb Provider.bind].
  eexists. split; [reflexivity|].
  set (rgb := Provider.map_px swap_channels frame).
  assert (Hwr : well_shaped rgb) by (by apply ProviderProofs.map_px_well_shaped).
  assert (Hatr : at_ rgb y x = Some (r, g, b)).
  { subst rgb. unfold at_, Provider.map_px. cbn [data]. rewrite list_lookup_fmap.
    unfold at_ in Hat. destruct (data frame !! y) as [row|]; [|done]. cbn.
    by rewrite list_lookup_fmap, Hat. }
  change (shape1 rgb) with (shape1 frame). change (shape0 rgb) with (shape0 frame).
  unfold sizeInBytes. cbn [copy QImage_of q_width q_height q_bytes_per_line].
  pose proof (Nat.div_mod_eq (shape1 frame * 24 + 31) 32) as Hdm.
  pose proof (Nat.mod_upper_bound (shape1 frame * 24 + 31) 32 ltac:(lia)) as Hm.
  split; [done|]. split; [done|]. split; [lia|].
  split; [apply Nat.Div0.mod_mul|]. split; [done|].
  pose proof (scan_line_lookup rgb y x 0 r g b Hwr Hatr ltac:(lia)) as H0.
  pose proof (scan_line_lookup rgb y x 1 r g b Hwr Hatr ltac:(lia)) as H1.
  pose proof (scan_line_lookup rgb y x 2 r g b Hwr Hatr ltac:(lia)) as H2.
  change (shape1 rgb) with (shape1 frame) in H0, H1, H2.
  change (shape0 rgb) with (shape0 frame) in H0, H1, H2.
  unfold q_pixel. cbn [copy q_scan].
  destruct (q_scan (QImage_of (bytes_of rgb) (shape1 frame) (shape0 frame)
                      (3 * shape1 frame)) !! y) as [line|]; [|done].
  cbn [mbind option_bind] in H0, H1, H2. rewrite Nat.add_0_r in H0.
  by rewrite H0, H1, H2.
Qed.


(** *** The interval of the timer *)

(** X12 ([_toggle_preview], [_update_fps]). The interval given to the
    timer for a target rate of at least 1: it is the greatest number
    of milliseconds whose [fps]-fold does not exceed one second; it is
    at least 1 ms up to 1000 frames per second, and between 8 ms and
    200 ms for the rates that the spin box allows (5 to 120). *)
Theorem interval_ms_bounds (fps : Z) :
  1 <= fps ->
  fps * interval_ms fps <= 1000 < fps * (interval_ms fps + 1) /\
  (fps <= 1000 -> 1 <= interval_ms fps <= 1000) /\
  (5 <= fps <= 120 -> 8 <= interval_ms fps <= 200).
Proof.
  intros Hfps. unfold interval_ms. rewrite Z.max_r by lia.
  pose proof (Z.div_mod 1000 fps ltac:(lia)) as Hdm.
  pose proof (Z.mod_pos_bound 1000 fps ltac:(lia)) as Hm.
  split; [nia|]. split; intros Hr; nia.
Qed.

(** *** What a handler leaves alone *)

Section Preserves.

Context {T : Type} (f : MainWindow -> T).

Lemma preserves_ret {A} (a : A) : preserves f (ret a).
Proof. by intros mw. Qed.

Lemma preserves_raise {A} (e : exn) : preserves f (@raise A e).
Proof. by intros mw. Qed.

Lemma preserves_get : preserves f get.
Proof. by intros mw. Qed.

Lemma preserves_bind {A B} (m : M A) (k : A -> M B) :
  preserves f m -> (forall a, preserves f (k a)) -> preserves f (bind m k).
Proof.
  intros Hm Hk mw. unfold bind. specialize (Hm mw).
  destruct (m mw) as [[a|e] mw']; cbn [snd] in *; [|done].
  by rewrite Hk.
Qed.

Lemma preserves_modify (g : MainWindow -> MainWindow) :
  (forall mw, f (g mw) = f mw) -> preserves f (modify g).
Proof. intros Hg mw. apply Hg. Qed.

Lemma preserves_on_recorder {A} (m : Recorder.M A) :
  (forall r w mw, f (set_world w (set_recorder r mw)) = f mw) ->
  preserves f (on_recorder m).
Proof.
  intros Hf mw. unfold on_recorder.
  destruct (m _) as [r st]. cbn [snd]. apply Hf.
Qed.

End Preserves.

Ltac preserve_step :=
  first
    [ apply preserves_ret
    | apply preserves_raise
    | apply preserves_get
    | apply preserves_bind; [|intros ?]
    | apply preserves_modify; intros ?; reflexivity
    | apply preserves_on_recorder; intros ? ? ?; reflexivity
    | match goal with
      | |- preserves _ (if ?c then _ else _) => destruct c
      | |- preserves _ (match ?x with _ => _ end) => destruct x
      end ].

Ltac preserve := repeat preserve_step.

Section Handlers.

Context (host : Host) (cv2 : Provider.Cv2).

Lemma preserves_time_time {T} (f : MainWindow -> T) :
  (forall w mw, f (set_world w mw) = f mw) -> preserves f (time_time host).
Proof. intros Hf. unfold time_time. preserve. apply preserves_modify. intros ?. apply Hf. Qed.

Lemma preserves_provider_get_frame {T} (f : MainWindow -> T) cap :
  (forall w mw, f (set_world w mw) = f mw) ->
  preserves f (provider_get_frame host cv2 cap).
Proof.
  intros Hf. unfold provider_get_frame. preserve.
  all: try (apply preserves_modify; intros ?; apply Hf).
Qed.


Lemma timer_inv_part mw mw' :
  timer_part mw' = timer_part mw -> timer_inv mw -> timer_inv mw'.
Proof.
  unfold timer_part, timer_inv. intros [= Ht He Hf]. by rewrite Ht, He, Hf.
Qed.

Lemma handle_keeps_timer_part ev :
  match ev with
  | TogglePreview | UpdateFps _ | CloseWindow => True
  | _ => preserves timer_part (handle host cv2 ev)
  end.
Proof.
  destruct ev; try done; cbn [handle]; preserve.
  intros mw. by destruct (bgr_to_qimage _).
Qed.

Lemma handle_keeps_timer_inv ev mw :
  ev <> CloseWindow -> timer_inv mw -> timer_inv (snd (handle host cv2 ev mw)).
Proof.
  intros Hne Hinv.
  pose proof (handle_keeps_timer_part ev) as Hp.
  destruct ev; try (by apply (timer_inv_part _ _ (Hp mw))); [| |done].
  - cbn [handle]. unfold _toggle_preview. cbv [bind get modify ret].
    destruct Hinv as [Hi He]. unfold timer_inv.
    destruct (isActive (timer mw)); cbn; split; done.
  - cbn [handle]. unfold _update_fps. cbv [bind get modify ret].
    destruct Hinv as [Hi He]. unfold timer_inv. cbn.
    destruct (isActive (timer mw)) eqn:Ha; cbn; rewrite ?Ha; split; try done.
Qed.

(** X13 ([__init__], [_toggle_preview], [_update_fps] and the other
    handlers). In every state that the window reaches from its
    construction, before it is closed: while the preview runs, the
    interval of the timer is the one of the current target rate, also
    after the rate was changed while it ran; and the record button is
    enabled exactly while the preview runs. *)
Theorem timer_follows_target_fps (w : World) (evs : list ui_event) :
  Forall (fun ev => ev <> CloseWindow) evs ->
  timer_inv (run_ui host cv2 evs (init host w)).
Proof.
  intros Hevs.
  assert (Hinit : timer_inv (init host w)) by (split; [done|reflexivity]).
  revert Hinit. generalize (init host w).
  induction Hevs as [|ev evs Hev _ IH]; intros mw Hinv; [exact Hinv|].
  cbn [run_ui fold_left]. apply IH. by apply handle_keeps_timer_inv.
Qed.

(** *** Closing the window *)

(** X14 ([closeEvent], [FrameProvider.close]). Closing the window, from
    every state: the handler returns and accepts the event, both
    timers are stopped, the provider holds no device, and the recorder
    is not recording; if it was, it was stopped (its writer released
    and then its log closed, see [stop_events], and nothing else done
    to the encoder or to a file), and if it was not, it is untouched
    and the trace of the world is as before. *)
Theorem closeEvent_releases (mw : MainWindow) :
  let mw' := snd (closeEvent mw) in
  fst (closeEvent mw) = Ok tt /\
  accepted mw' = true /\
  isActive (timer mw') = false /\
  isActive (stats_timer mw') = false /\
  Provider._cap (provider mw') = None /\
  recorder mw' = (if Recorder.is_recording (recorder mw) then Recorder.init
                  else recorder mw) /\
  Recorder.is_recording (recorder mw') = false /\
  trace (world mw')
  = trace (world mw)
    ++ (if Recorder.is_recording (recorder mw) then Recorder.stop_events (recorder mw)
        else []).
Proof.
  unfold closeEvent, closeEvent_body. cbv [bind modify get ret].
  cbn [snd recorder set_timer set_stats_timer].
  destruct (Recorder.is_recording (recorder mw)) eqn:Hrec.
  - unfold on_recorder. rewrite RecorderProofs.stop_spec. cbn.
    repeat split; reflexivity.
  - cbn. rewrite app_nil_r. repeat split; try reflexivity. exact Hrec.
Qed.

(** *** The combo box *)


Lemma combo_inv_part mw mw' : res_part mw' = res_part mw -> combo_inv mw -> combo_inv mw'.
Proof. unfold res_part, combo_inv. intros [= Hc Hw Hh]. by rewrite Hc, Hw, Hh. Qed.

Lemma handle_keeps_res_part ev :
  match ev with
  | SelectResolution _ => True
  | _ => preserves res_part (handle host cv2 ev)
  end.
Proof.
  destruct ev; try done; cbn [handle]; preserve.
  - intros mw. by destruct (bgr_to_qimage _).
  - intros mw. unfold closeEvent.
    assert (Hp : preserves res_part closeEvent_body) by (unfold closeEvent_body; preserve).
    specialize (Hp mw). by destruct (closeEvent_body mw).
Qed.

Lemma handle_keeps_combo_inv ev mw :
  allowed ev -> combo_inv mw -> combo_inv (snd (handle host cv2 ev mw)).
Proof.
  intros Hal Hinv.
  pose proof (handle_keeps_res_part ev) as Hp.
  destruct ev; try (by apply (combo_inv_part _ _ (Hp mw))).
  cbn [handle allowed] in *. cbv [bind get ret].
  destruct (bool_decide (i = res_combo mw)); [exact Hinv|].
  unfold _update_resolution. cbv [bind get modify raise ret]. cbn [res_combo set_res_combo].
  destruct (resolutions !! i) as [[w h]|] eqn:Hi.
  - unfold combo_inv. cbn. exact Hi.
  - apply lookup_ge_None in Hi. lia.
Qed.

(** X15 ([__init__], [_set_combo_to_current_resolution],
    [_update_resolution]). In every state that the window reaches
    from its construction, by events that the widgets allow, the
    entry shown by the combo box is the resolution in the settings:
    the constructor selects the entry of the default 848 x 480, and a
    change of entry sets the width and the height of that entry. *)
Theorem combo_shows_resolution (w : World) (evs : list ui_event) :
  Forall allowed evs ->
  combo_inv (run_ui host cv2 evs (init host w)).
Proof.
  intros Hevs.
  assert (Hinit : combo_inv (init host w)) by reflexivity.
  revert Hinit. generalize (init host w).
  induction Hevs as [|ev evs Hev _ IH]; intros mw Hinv; [exact Hinv|].
  cbn [run_ui fold_left]. apply IH. by apply handle_keeps_combo_inv.
Qed.

(** *** A recording session *)



Lemma provider_get_frame_synthetic cap mw :
  Provider._cap (provider mw) = None ->
  provider_get_frame host cv2 cap mw
  = (match Provider.synthetic cv2 (provider mw) (tick_of host mw cap) with
     | Ok fr => Ok fr
     | Raise ex => Raise ex
     end, set_world (bump (world mw)) mw).
Proof.
  intros Hcap. unfold provider_get_frame. cbv [bind get modify ret raise].
  fold (tick_of host mw cap).
  assert (Hd : Provider.delivers (provider mw) (tick_of host mw cap) = false)
    by (unfold Provider.delivers; by rewrite Hcap).
  rewrite Hd, (ProviderProofs.get_frame_fallback cv2 _ _ Hd).
  by destruct (Provider.synthetic cv2 (provider mw) (tick_of host mw cap)).
Qed.

Lemma synthetic_ok (p : Provider.FrameProvider) e :
  0 < Provider.width (Provider.s p) -> 0 < Provider.height (Provider.s p) ->
  exists frame,
    Provider.synthetic cv2 p e = Ok frame /\ well_shaped frame /\
    shape0 frame = Z.to_nat (Provider.height (Provider.s p)) /\
    shape1 frame
    = (Provider.panels (Provider.s p) * Z.to_nat (Provider.width (Provider.s p)))%nat.
Proof.
  intros Hw Hh.
  destruct (ProviderProofs.synthetic_spec cv2 p e Hw Hh)
    as (base & disp & composed & frame & _ & _ & _ & _ & _ & Hsyn & Hwf
        & Hb0 & Hb1 & H0 & H1).
  exists frame. split; [done|]. split; [done|]. split; congruence.
Qed.

Lemma bgr_to_qimage_ok (frame : image) :
  (0 < shape0 frame)%nat -> (0 < shape1 frame)%nat ->
  exists q, bgr_to_qimage frame = Ok q.
Proof.
  intros H0 H1. unfold bgr_to_qimage, cvtColor_BGR2RGB, Provider.is_empty.
  destruct (Nat.eqb_spec (shape0 frame) 0); [lia|].
  destruct (Nat.eqb_spec (shape1 frame) 0); [lia|]. by eexists.
Qed.

Lemma panels_pos st : (0 < Provider.panels st)%nat.
Proof. unfold Provider.panels. lia. Qed.

(** One tick while the recorder holds both handles. *)
Lemma tick_armed cap mw w f :
  Provider._cap (provider mw) = None ->
  0 < Provider.width (settings mw) -> 0 < Provider.height (settings mw) ->
  Recorder._writer (recorder mw) = Some w ->
  Recorder._ts_file (recorder mw) = Some f ->
  exists frame,
    Provider.synthetic cv2 (provider mw) (tick_of host mw cap) = Ok frame /\
    let line := Recorder.row (_frame_idx mw) (clock host (S (ticks (world mw)))) +:+ nl in
    let mw' := snd (_tick_preview host cv2 cap mw) in
    fst (_tick_preview host cv2 cap mw) = Ok tt /\
    provider mw' = provider mw /\
    recorder mw' = recorder mw /\
    timer mw' = timer mw /\
    btn_record mw' = btn_record mw /\
    _frame_idx mw' = _frame_idx mw + 1 /\
    fs (world mw') = fs_append f line (fs (world mw)) /\
    trace (world mw')
    = trace (world mw) ++ [EvVideoWrite w frame; EvFileWrite f line] /\
    ticks (world mw') = (ticks (world mw) + 3)%nat.
Proof.
  intros Hcap Hw Hh Hwr Hts. unfold settings in Hw, Hh.
  destruct (synthetic_ok (provider mw) (tick_of host mw cap) Hw Hh) as (frame & Hsyn & Hwf & H0 & H1).
  assert (Hq : exists q, bgr_to_qimage frame = Ok q).
  { apply bgr_to_qimage_ok; [lia|]. rewrite H1.
    pose proof (panels_pos (Provider.s (provider mw))). nia. }
  destruct Hq as [q Hq].
  exists frame. split; [exact Hsyn|]. cbv zeta.
  assert (Hrec : Recorder.is_recording (recorder mw) = true)
    by (unfold Recorder.is_recording; by rewrite Hwr).
  destruct (_tick_preview host cv2 cap mw) as [r mw'] eqn:Ht. cbn [fst snd].
  revert Ht. unfold _tick_preview. unfold bind at 1.
  rewrite (provider_get_frame_synthetic cap mw Hcap), Hsyn.
  unfold bind at 1. rewrite Hq.
  cbv [bind get modify ret time_time].
  cbn [recorder set_world set_preview_label].
  rewrite Hrec. unfold on_recorder.
  rewrite RecorderProofs.write_spec. cbn [Recorder.self Recorder.world recorder world
    set_world set_preview_label set_recorder]. rewrite Hwr, Hts. cbv zeta.
  cbn.
  destruct (1000000 <=? _); intros [= <- <-]; cbn; repeat split; try reflexivity.
  all: try (destruct (recorder mw); reflexivity).
  all: try (by rewrite <- app_assoc).
  all: try (f_equal; lia).
Qed.

(** The ticks of a session. *)
Lemma ticks_armed caps : forall mw w f ls,
  Provider._cap (provider mw) = None ->
  0 < Provider.width (settings mw) -> 0 < Provider.height (settings mw) ->
  Recorder._writer (recorder mw) = Some w ->
  Recorder._ts_file (recorder mw) = Some f ->
  file_content (fs (world mw)) f = Some (unlines ls) ->
  let r := ticks_of host cv2 caps mw in
  fst r = Ok tt /\
  provider (snd r) = provider mw /\
  recorder (snd r) = recorder mw /\
  timer (snd r) = timer mw /\
  btn_record (snd r) = btn_record mw /\
  _frame_idx (snd r) = _frame_idx mw + Z.of_nat (length caps) /\
  file_content (fs (world (snd r))) f
  = Some (unlines (ls ++ tick_rows host (_frame_idx mw) (ticks (world mw)) (length caps))) /\
  exists frames,
    length frames = length caps /\
    RecorderExt.encoded (trace (world (snd r)))
    = RecorderExt.encoded (trace (world mw)) ++ ((fun fr => (w, fr)) <$> frames) /\
    Forall (fun fr => size_of fr
                      = (Z.of_nat (Provider.panels (settings mw)) * Provider.width (settings mw),
                         Provider.height (settings mw))) frames.
Proof.
  induction caps as [|cap caps IH]; intros mw w f ls Hcap Hw Hh Hwr Hts Hc.
  - cbn. rewrite app_nil_r, Z.add_0_r. repeat split; try done.
    exists []. cbn. by rewrite app_nil_r.
  - destruct (tick_armed cap mw w f Hcap Hw Hh Hwr Hts)
      as (frame & Hsyn & Hok & Hp & Hr & Ht & Hb & Hi & Hfs & Htr & Htk).
    pose (mw1 := snd (_tick_preview host cv2 cap mw)). fold mw1 in Hp, Hr, Ht, Hb, Hi, Hfs, Htr, Htk.
    assert (Hstep : ticks_of host cv2 (cap :: caps) mw = ticks_of host cv2 caps mw1).
    { subst mw1. cbn [ticks_of]. unfold bind.
      destruct (_tick_preview host cv2 cap mw) as [[[]|e] m]; cbn [fst snd] in *; done. }
    cbv zeta. rewrite Hstep. clear Hstep.
    destruct (IH mw1 w f (ls ++ [Recorder.row (_frame_idx mw) (clock host (S (ticks (world mw))))]))
      as (I1 & I2 & I3 & I4 & I5 & I6 & I7 & frames & I8 & I9 & I10).
    { by rewrite Hp. } { unfold settings. by rewrite Hp. } { unfold settings. by rewrite Hp. }
    { by rewrite Hr. } { by rewrite Hr. }
    { rewrite Hfs, RecorderProofs.unlines_snoc.
      rewrite (file_content_append _ _ _ _ Hc). by rewrite ?string_app_assoc. }
    split; [exact I1|]. split; [by rewrite I2|]. split; [by rewrite I3|].
    split; [by rewrite I4|]. split; [by rewrite I5|]. split.
    { rewrite I6, Hi. cbn [length]. lia. }
    split.
    { rewrite I7, Hi, Htk. cbn [length tick_rows]. by rewrite <- app_assoc. }
    exists (frame :: frames). split; [cbn; by rewrite I8|]. split.
    { rewrite I9, Htr, RecorderExtProofs.encoded_app. cbn. by rewrite <- app_assoc. }
    constructor.
    + unfold settings in *.
      destruct (synthetic_ok (provider mw) (tick_of host mw cap) Hw Hh) as (fr & Hs2 & _ & H0 & H1).
      rewrite Hsyn in Hs2. injection Hs2 as <-.
      unfold size_of. rewrite H0, H1. f_equal; lia.
    + unfold settings in *. by rewrite Hp in I10.
Qed.

(** Starting a recording from the window. *)
Lemma toggle_recording_start d cap mw :
  isActive (timer mw) = true ->
  Recorder.is_recording (recorder mw) = false ->
  Provider._cap (provider mw) = None ->
  0 < Provider.width (settings mw) -> 0 < Provider.height (settings mw) ->
  exists frame,
    Provider.synthetic cv2 (provider mw) (tick_of host mw cap) = Ok frame /\
    size_of frame
    = (Z.of_nat (Provider.panels (settings mw)) * Provider.width (settings mw),
       Provider.height (settings mw)) /\
    let cfg := {| Recorder.out_dir := d;
                  Recorder.fps := Provider.record_fps (settings mw) |} in
    let st := Recorder.start host cfg (size_of frame)
                {| Recorder.self := recorder mw; Recorder.world := bump (world mw) |} in
    let mw1 := snd (_toggle_recording host cv2 (Some d) cap mw) in
    fst (_toggle_recording host cv2 (Some d) cap mw) = fst st /\
    recorder mw1 = Recorder.self (snd st) /\
    world mw1 = Recorder.world (snd st) /\
    provider mw1 = provider mw /\
    _frame_idx mw1 = _frame_idx mw /\
    timer mw1 = timer mw /\
    btn_preview mw1 = btn_preview mw /\
    enabled (btn_record mw1) = enabled (btn_record mw) /\
    text (btn_record mw1)
    = (match fst st with Ok _ => "Stop Recording" | Raise _ => text (btn_record mw) end).
Proof.
  intros Hact Hrec Hcap Hw Hh. unfold settings in Hw, Hh.
  destruct (synthetic_ok (provider mw) (tick_of host mw cap) Hw Hh) as (frame & Hsyn & Hwf & H0 & H1).
  exists frame. split; [exact Hsyn|]. split.
  { unfold size_of, settings. rewrite H0, H1. f_equal; lia. }
  cbv zeta.
  destruct (_toggle_recording host cv2 (Some d) cap mw) as [r mw1] eqn:Ht. cbn [fst snd].
  revert Ht. unfold _toggle_recording. unfold bind at 1, get at 1.
  rewrite Hact, Hrec. cbn [negb]. unfold bind at 1.
  rewrite (provider_get_frame_synthetic cap mw Hcap), Hsyn.
  cbv [bind get modify ret]. unfold on_recorder.
  cbn [recorder world set_world settings provider]. fold (size_of frame).
  destruct (Recorder.start host _ (size_of frame) _) as [[[]|e] st];
    intros [= <- <-]; cbn; repeat split; reflexivity.
Qed.

(** Stopping it. *)
Lemma toggle_recording_stop dialog cap mw :
  isActive (timer mw) = true ->
  Recorder.is_recording (recorder mw) = true ->
  let mw' := snd (_toggle_recording host cv2 dialog cap mw) in
  fst (_toggle_recording host cv2 dialog cap mw) = Ok tt /\
  recorder mw' = Recorder.init /\
  fs (world mw') = fs (world mw) /\
  trace (world mw') = trace (world mw) ++ Recorder.stop_events (recorder mw) /\
  ticks (world mw') = ticks (world mw) /\
  provider mw' = provider mw /\
  _frame_idx mw' = _frame_idx mw /\
  timer mw' = timer mw /\
  btn_preview mw' = btn_preview mw /\
  btn_record mw' = {| text := "Start Recording"; enabled := enabled (btn_record mw) |}.
Proof.
  intros Hact Hrec. cbv zeta.
  destruct (_toggle_recording host cv2 dialog cap mw) as [r mw1] eqn:Ht. cbn [fst snd].
  revert Ht. unfold _toggle_recording. unfold bind at 1, get at 1.
  rewrite Hact, Hrec. cbn [negb]. cbv [bind modify]. unfold on_recorder.
  rewrite RecorderProofs.stop_spec. intros [= <- <-]. cbn. repeat split; reflexivity.
Qed.

Lemma tick_rows_newline_free idx tick n :
  Forall (fun l => newline_free l = true) (tick_rows host idx tick n).
Proof.
  revert idx tick. induction n as [|n IH]; intros idx tick; cbn [tick_rows]; constructor.
  - apply RecorderProofs.newline_free_row.
  - apply IH.
Qed.

Lemma tick_rows_explicit idx tick n :
  tick_rows host idx tick n
  = (fun j : nat => Recorder.row (idx + Z.of_nat j) (clock host (tick + 3 * j + 1)))
      <$> seq 0 n.
Proof.
  revert idx tick. induction n as [|n IH]; intros idx tick; [done|].
  cbn [tick_rows seq fmap list_fmap]. f_equal.
  - f_equal; [lia|f_equal; lia].
  - rewrite IH, <- fmap_S_seq, <- list_fmap_compose. apply list_fmap_ext.
    intros _ j _. cbn. f_equal; [lia|f_equal; lia].
Qed.

(** What a session leaves, for both statements about it. *)
Lemma session_facts d cap0 caps mw :
  isActive (timer mw) = true ->
  Recorder.is_recording (recorder mw) = false ->
  Provider._cap (provider mw) = None ->
  0 < Provider.width (settings mw) -> 0 < Provider.height (settings mw) ->
  fst (_toggle_recording host cv2 (Some d) cap0 mw) = Ok tt ->
  let mw1 := snd (_toggle_recording host cv2 (Some d) cap0 mw) in
  let mw2 := snd (ticks_of host cv2 caps mw1) in
  exists w frames,
    Recorder._writer (recorder mw1) = Some w /\
    Recorder._ts_file (recorder mw1) = Some (d ++ ["timestamps.csv"]) /\
    vw_size w = (Z.of_nat (Provider.panels (settings mw)) * Provider.width (settings mw),
                 Provider.height (settings mw)) /\
    text (btn_record mw1) = "Stop Recording" /\
    fst (ticks_of host cv2 caps mw1) = Ok tt /\
    recorder mw2 = recorder mw1 /\
    timer mw2 = timer mw /\
    _frame_idx mw2 = _frame_idx mw + Z.of_nat (length caps) /\
    file_content (fs (world mw2)) (d ++ ["timestamps.csv"])
    = Some (unlines ("frame_idx,unix_time"
                       :: tick_rows host (_frame_idx mw) (ticks (world mw) + 2) (length caps))) /\
    length frames = length caps /\
    RecorderExt.encoded (trace (world mw2))
    = RecorderExt.encoded (trace (world mw)) ++ ((fun fr => (w, fr)) <$> frames) /\
    Forall (fun fr => size_of fr = vw_size w) frames.
Proof.
  intros Hact Hrec Hcap Hw Hh Hok mw1 mw2.
  destruct (toggle_recording_start d cap0 mw Hact Hrec Hcap Hw Hh)
    as (frame & Hsyn & Hsize & Hfst & Hr & Hwo & Hp & Hi & Ht & _ & _ & Htxt).
  fold mw1 in Hr, Hwo, Hp, Hi, Ht, Htxt. rewrite Hok in Hfst. symmetry in Hfst.
  set (cfg := {| Recorder.out_dir := d; Recorder.fps := Provider.record_fps (settings mw) |}) in *.
  set (st := {| Recorder.self := recorder mw; Recorder.world := bump (world mw) |}) in *.
  destruct (RecorderExtProofs.start_ok_writer host cfg (size_of frame) st Hfst)
    as (c & Hc & Hwr & Hts).
  destruct (RecorderProofs.start_ok_armed host cfg (size_of frame) st Hfst)
    as (_ & _ & Htk & Hcont & _).
  rewrite <- Hr in Hwr, Hts. rewrite <- Hwo in Htk, Hcont.
  destruct (ticks_armed caps mw1 (Recorder.writer_of host cfg (size_of frame) c)
              (Recorder.log_path cfg) ["frame_idx,unix_time"])
    as (T1 & T2 & T3 & T4 & T5 & T6 & T7 & frames & T8 & T9 & T10); try done.
  { by rewrite Hp. } { unfold settings. by rewrite Hp. } { unfold settings. by rewrite Hp. }
  fold mw2 in T1, T2, T3, T4, T5, T6, T7, T9.
  exists (Recorder.writer_of host cfg (size_of frame) c), frames.
  change (d ++ ["timestamps.csv"]) with (Recorder.log_path cfg).
  split; [done|]. split; [done|]. split; [by rewrite <- Hsize|].
  split; [by rewrite Htxt, Hfst|]. split; [done|]. split; [done|].
  split; [by rewrite T4|]. split; [by rewrite T6, Hi|]. split.
  { rewrite T7, Hi, Htk. cbn [app]. subst st. unfold bump.
    cbn [Recorder.world ticks].
    by replace (ticks (world mw) + 2)%nat with (S (S (ticks (world mw)))) by lia. }
  split; [done|]. split.
  { rewrite T9. f_equal. rewrite Hwo.
    by rewrite (RecorderExtProofs.start_keeps_encoded host cfg (size_of frame) st). }
  cbn [Recorder.writer_of vw_size]. rewrite Hsize.
  unfold settings in *. by rewrite Hp in T10.
Qed.

(** X16 ([_toggle_recording], [_tick_preview]). A session run from
    the window, with no capture device and a positive frame size:
    after a click on the record button that returns, every tick of the
    timer returns; a second click returns and stops the recorder; the
    log then holds the header and one row per tick, with the frame
    indices counted on from the index at the first click, and with
    the clock reading of [write] in each tick (the second of the three
    readings of a tick); the frame index has advanced by the number of
    ticks and the button says "Start Recording" again. *)
Theorem ui_session_log d cap0 caps dialog cap1 mw :
  isActive (timer mw) = true ->
  Recorder.is_recording (recorder mw) = false ->
  Provider._cap (provider mw) = None ->
  0 < Provider.width (settings mw) -> 0 < Provider.height (settings mw) ->
  fst (_toggle_recording host cv2 (Some d) cap0 mw) = Ok tt ->
  let mw1 := snd (_toggle_recording host cv2 (Some d) cap0 mw) in
  let mw2 := snd (ticks_of host cv2 caps mw1) in
  let mw3 := snd (_toggle_recording host cv2 dialog cap1 mw2) in
  fst (ticks_of host cv2 caps mw1) = Ok tt /\
  fst (_toggle_recording host cv2 dialog cap1 mw2) = Ok tt /\
  Recorder.read_lines (fs (world mw3)) (d ++ ["timestamps.csv"])
  = Some ("frame_idx,unix_time"
            :: ((fun j : nat =>
                   Recorder.row (_frame_idx mw + Z.of_nat j)
                                (clock host (ticks (world mw) + 2 + 3 * j + 1)))
                  <$> seq 0 (length caps))) /\
  _frame_idx mw3 = _frame_idx mw + Z.of_nat (length caps) /\
  recorder mw3 = Recorder.init /\
  text (btn_record mw3) = "Start Recording".
Proof.
  intros Hact Hrec Hcap Hw Hh Hok mw1 mw2 mw3.
  destruct (session_facts d cap0 caps mw Hact Hrec Hcap Hw Hh Hok)
    as (w & frames & Hwr & Hts & _ & _ & Hticks & Hr2 & Ht2 & Hi2 & Hc2 & _).
  cbv zeta in Hwr, Hts, Hticks, Hr2, Ht2, Hi2, Hc2. subst mw3 mw2 mw1.
  destruct (toggle_recording_stop dialog cap1
              (snd (ticks_of host cv2 caps (snd (_toggle_recording host cv2 (Some d) cap0 mw)))))
    as (S1 & S2 & S3 & _ & _ & _ & S4 & _ & _ & S5).
  { by rewrite Ht2. }
  { unfold Recorder.is_recording. by rewrite Hr2, Hwr. }
  split; [done|]. split; [done|]. split.
  { unfold Recorder.read_lines. rewrite S3, Hc2. cbn [fmap option_fmap option_map].
    f_equal. rewrite RecorderProofs.splitlines_unlines.
    - by rewrite tick_rows_explicit.
    - constructor; [reflexivity|apply tick_rows_newline_free]. }
  split; [by rewrite S4|]. split; [done|]. by rewrite S5.
Qed.

(** X17 ([_toggle_recording], [_tick_preview]). The size given to the
    encoder is the size of the frames it is fed: with no capture
    device and a positive frame size, the writer opened at the click
    has for size the panels' total width and the height of the
    settings, and each tick of the session hands it exactly one frame,
    of that size. *)
Theorem ui_session_frame_size d cap0 caps mw :
  isActive (timer mw) = true ->
  Recorder.is_recording (recorder mw) = false ->
  Provider._cap (provider mw) = None ->
  0 < Provider.width (settings mw) -> 0 < Provider.height (settings mw) ->
  fst (_toggle_recording host cv2 (Some d) cap0 mw) = Ok tt ->
  let mw1 := snd (_toggle_recording host cv2 (Some d) cap0 mw) in
  let mw2 := snd (ticks_of host cv2 caps mw1) in
  exists w frames,
    Recorder._writer (recorder mw1) = Some w /\
    vw_size w = (Z.of_nat (Provider.panels (settings mw)) * Provider.width (settings mw),
                 Provider.height (settings mw)) /\
    length frames = length caps /\
    RecorderExt.encoded (trace (world mw2))
    = RecorderExt.encoded (trace (world mw)) ++ ((fun fr => (w, fr)) <$> frames) /\
    Forall (fun fr => size_of fr = vw_size w) frames.
Proof.
  intros Hact Hrec Hcap Hw Hh Hok mw1 mw2.
  destruct (session_facts d cap0 caps mw Hact Hrec Hcap Hw Hh Hok)
    as (w & frames & Hwr & _ & Hsz & _ & _ & _ & _ & _ & _ & Hlen & Henc & Hall).
  exists w, frames. by repeat split.
Qed.

(** *** The labels of the buttons *)


Lemma labels_inv_part mw mw' :
  labels_part mw' = labels_part mw -> labels_inv mw -> labels_inv mw'.
Proof.
  unfold labels_part, labels_inv. intros [= Hr Hp Ht Hrec]. by rewrite Hr, Hp, Ht, Hrec.
Qed.

Lemma preserves_write_labels fr i :
  preserves labels_part (on_recorder (Recorder.write host fr i)).
Proof.
  intros mw. unfold on_recorder.
  pose proof (RecorderProofs.write_keeps_self host fr i
                {| Recorder.self := recorder mw; Recorder.world := world mw |}) as Hk.
  destruct (Recorder.write host fr i _) as [r st]. cbn [snd Recorder.self] in *.
  unfold labels_part. cbn. by rewrite Hk.
Qed.

Lemma handle_keeps_labels_part ev :
  match ev with
  | TogglePreview | ToggleRecording _ _ | UpdateFps _ | CloseWindow => True
  | _ => preserves labels_part (handle host cv2 ev)
  end.
Proof.
  destruct ev; try done; cbn [handle]; preserve.
  - intros mw. by destruct (bgr_to_qimage _).
  - apply preserves_write_labels.
Qed.

Lemma labels_inv_init (w : World) : labels_inv (init host w).
Proof. unfold labels_inv. cbn. split; [|split]; done. Qed.

Lemma handle_keeps_labels_inv ev mw :
  ev <> CloseWindow -> fst (handle host cv2 ev mw) = Ok tt ->
  labels_inv mw -> labels_inv (snd (handle host cv2 ev mw)).
Proof.
  intros Hne Hok Hinv.
  pose proof (handle_keeps_labels_part ev) as Hp.
  destruct ev; try (by apply (labels_inv_part _ _ (Hp mw))); [| | |done].
  - (* the preview button *)
    cbn [handle]. unfold _toggle_preview. cbv [bind get modify ret].
    destruct Hinv as (Hr & Hpv & Hpair). unfold labels_inv.
    destruct (isActive (timer mw)); cbn; (split; [exact Hr|split; [done|exact Hpair]]).
  - (* the record button *)
    cbn [handle] in *. destruct Hinv as (Hr & Hpv & Hpair).
    destruct (isActive (timer mw)) eqn:Hact.
    + destruct (Recorder.is_recording (recorder mw)) eqn:Hrec.
      * destruct (toggle_recording_stop dialog cap mw Hact Hrec)
          as (_ & S1 & _ & _ & _ & _ & _ & S2 & S3 & S4).
        unfold labels_inv. rewrite S1, S2, S3, S4, Hact. cbn. by split; [|split].
      * destruct (_toggle_recording host cv2 dialog cap mw) as [r mw1] eqn:Ht.
        cbn [fst snd] in *. revert Ht. unfold _toggle_recording.
        unfold bind at 1, get at 1. rewrite Hact, Hrec. cbn [negb].
        destruct dialog as [d|];
          [|intros [= _ <-]; unfold labels_inv; rewrite Hact, Hrec; by split; [|split]].
        unfold bind at 1.
        pose proof (preserves_provider_get_frame labels_part cap ltac:(done) mw) as Hg.
        destruct (provider_get_frame host cv2 cap mw) as [[frame|e] mwf];
          [|intros [= <- _]; done].
        cbn [snd] in Hg. injection Hg as Hg1 Hg2 Hg3 Hg4.
        cbv [bind get modify ret]. unfold on_recorder.
        pose proof (RecorderProofs.start_ok_armed host
                      {| Recorder.out_dir := d;
                         Recorder.fps := Provider.record_fps (settings mwf) |}
                      (Z.of_nat (shape1 frame), Z.of_nat (shape0 frame))
                      {| Recorder.self := recorder mwf; Recorder.world := world mwf |}) as Hs.
        destruct (Recorder.start host _ _ _) as [[[]|e] st]; [|intros [= <- _]; done].
        intros [= _ <-]. destruct (Hs eq_refl) as ((wr & Hwr) & Hts & _).
        cbn [snd] in Hwr, Hts. unfold labels_inv, Recorder.paired, Recorder.is_recording.
        cbn. rewrite Hwr, Hts, Hg2, Hg3, Hact.
        split; [done|split; [exact Hpv|split; discriminate]].
    + unfold _toggle_recording. cbv [bind get modify ret]. rewrite Hact. cbn.
      unfold labels_inv. cbn. by rewrite Hact.
  - (* the spin box *)
    cbn [handle]. unfold _update_fps. cbv [bind get modify ret]. cbn.
    destruct Hinv as (Hr & Hpv & Hpair). unfold labels_inv.
    destruct (isActive (timer mw)) eqn:Ha; cbn; rewrite ?Ha; by split; [|split].
Qed.

(** X18 ([__init__], [_toggle_preview], [_toggle_recording] and the
    other handlers). In every state that the window reaches from its
    construction through handlers that return, before it is closed:
    the record button says "Stop Recording" exactly when the recorder
    is recording, the preview button says "Stop Preview" exactly when
    the timer runs, and the recorder holds its two handles together or
    none of them. *)
Theorem labels_follow_state (w : World) (evs : list ui_event) :
  Forall (fun ev => ev <> CloseWindow) evs ->
  all_return host cv2 evs (init host w) ->
  labels_inv (run_ui host cv2 evs (init host w)).
Proof.
  intros Hevs. generalize (labels_inv_init w). generalize (init host w).
  induction Hevs as [|ev evs Hev _ IH]; intros mw Hinv Hall; [exact Hinv|].
  destruct Hall as [Hok Hall]. cbn [run_ui fold_left]. apply IH; [|exact Hall].
  by apply handle_keeps_labels_inv.
Qed.

End Handlers.

Lemma qimage_pixel_witness :
  exists q, bgr_to_qimage frame_1x2 = Ok q /\
            q_bytes_per_line q = 8%nat /\ sizeInBytes q = 8%nat /\
            q_pixel q 1 0 = Some (6, 5, 4).
Proof.
  destruct (qimage_pixel frame_1x2 0 1 4 5 6) as (q & Hq & _ & _ & _ & _ & _ & Hp).
  - split; [reflexivity|repeat constructor].
  - reflexivity.
  - exists q. split; [exact Hq|].
    assert (Hq' : q = copy (QImage_of (bytes_of (Provider.map_px swap_channels frame_1x2))
                              2 1 6))
      by (vm_compute in Hq; by injection Hq as <-).
    split; [by rewrite Hq'|]. split; [by rewrite Hq'|exact Hp].
Defined.

Lemma interval_ms_bounds_witness :
  30 * interval_ms 30 <= 1000 < 30 * (interval_ms 30 + 1).
Proof. apply (interval_ms_bounds 30). lia. Defined.

Lemma timer_follows_target_fps_witness :
  timer_inv (run_ui Recorder.host_mp4v cv2_plain evs_settings (init Recorder.host_mp4v world0)).
Proof.
  apply (timer_follows_target_fps Recorder.host_mp4v cv2_plain world0 evs_settings).
  unfold evs_settings. repeat (apply Forall_cons_2; [discriminate|]). apply Forall_nil_2.
Defined.

Lemma combo_shows_resolution_witness :
  combo_inv (run_ui Recorder.host_mp4v cv2_plain evs_settings (init Recorder.host_mp4v world0)).
Proof.
  apply (combo_shows_resolution Recorder.host_mp4v cv2_plain world0 evs_settings).
  unfold evs_settings.
  repeat (apply Forall_cons_2; [first [exact I|cbn; lia]|]). apply Forall_nil_2.
Defined.

Lemma ui_session_log_witness :
  Recorder.read_lines
    (fs (world (snd (_toggle_recording Recorder.host_mp4v Provider.cv2_demo None no_device
       (snd (ticks_of Recorder.host_mp4v Provider.cv2_demo [no_device; no_device]
          (snd (_toggle_recording Recorder.host_mp4v Provider.cv2_demo
                  (Some ["home"; "pi"; "rec"]) no_device window_small))))))))
    (["home"; "pi"; "rec"] ++ ["timestamps.csv"])
  = Some ["frame_idx,unix_time"; "0,1700000000.166665"; "1,1700000000.266664"].
Proof.
  refine (proj1 (proj2 (proj2
    (ui_session_log Recorder.host_mp4v Provider.cv2_demo ["home"; "pi"; "rec"] no_device
       [no_device; no_device] None no_device window_small _ _ _ _ _ _))));
    vm_compute; reflexivity.
Defined.

Lemma ui_session_frame_size_witness :
  exists w frames,
    vw_size w = (48, 3) /\ length frames = 2%nat /\
    Forall (fun fr => size_of fr = (48, 3)) frames.
Proof.
  destruct (ui_session_frame_size Recorder.host_mp4v Provider.cv2_demo ["home"; "pi"; "rec"]
              no_device [no_device; no_device] window_small)
    as (w & frames & _ & Hsz & Hlen & _ & Hall); try (vm_compute; reflexivity).
  exists w, frames. split; [exact Hsz|]. split; [exact Hlen|].
  rewrite Hsz in Hall. exact Hall.
Defined.

Lemma labels_follow_state_witness :
  labels_inv (run_ui Recorder.host_mp4v cv2_plain evs_session (init Recorder.host_mp4v world0)).
Proof.
  apply (labels_follow_state Recorder.host_mp4v cv2_plain world0 evs_session).
  - unfold evs_session. repeat (apply Forall_cons_2; [discriminate|]). apply Forall_nil_2.
  - vm_compute. repeat split.
Defined.

End MainProofs.
